(** * PaperStore: a shallow embedding of [src/db/db_manager.py]

  The module under study is a thin data-access layer over an embedded
  SQLite database: three tables ([papers], [tags], [paper_tags]) and five
  operations ([add_paper], [get_paper], [search_papers], [add_tags],
  [update_paper]).

  Layout of this development:
  - [PyStr]   : the two Python string primitives the code relies on,
                [','.join(..)] and [.split(',')];
  - [Like]    : the engine's [LIKE] operator (['%'], ['_'], ASCII case
                folding) and the plain "contains, ignoring case" relation;
  - [Sql]     : values, rows, the store and the statements the code issues;
  - [Py]      : a small state-and-exception monad for the Python control
                flow ([try] / [except sqlite3.Error] / [finally]);
  - [DBManager] : the five operations, line by line;
  - [Obs]     : the vocabulary of the properties (what a run leaves behind,
                the search filter in the words of the specification, the
                schema constraints, the reachable worlds);
  - [Sample]  : a few concrete records and stores;
  - [More]    : further vocabulary (stored text forms, the tag reference
                invariant, ASCII lower case) and more sample records;
  - the properties, one section per operation, then the properties of
    their compositions (insert then look up, update then look up, tags,
    search against lookup).

  Modelling boundary.  The engine is deterministic: a statement fails only
  for a reason that its parameters and the current rows determine (a value
  of a type the driver cannot bind, a NOT NULL or uniqueness constraint).
  Failures of the environment (I/O, locking, memory, the 64-bit rowid
  ceiling) are outside the model.  Characters are 8-bit ([ascii]); the
  operands of [LIKE] are read as C strings, up to the first NUL; Python
  values range over the types the data model uses: [None], [bool], [str]
  and lists of [str].  A connection counts as open from [connect] until an
  explicit [close()]; what the garbage collector does with a connection
  that was dropped is not modelled.  A SELECT returns its rows in table
  order here; the engine promises no order. *)

From Stdlib Require Import ZArith Ascii String Bool.
From stdpp Require Import gmap strings list fin_maps pretty.

Local Open Scope string_scope.

(** ** Python string primitives *)

Module PyStr.

(** [sep.join(l)] for a list of strings. *)
Definition join (sep : string) (l : list string) : string :=
  String.concat sep l.

(** Iterating over a [str] yields its one-character substrings. *)
Fixpoint chars (s : string) : list string :=
  match s with
  | EmptyString => []
  | String c s' => String c EmptyString :: chars s'
  end.

(** [s.split(sep)] for a one-character separator: never returns the empty
    list, [''.split(',') == ['']]. *)
Fixpoint split (sep : ascii) (s : string) : list string :=
  match s with
  | EmptyString => [EmptyString]
  | String c s' =>
      if Ascii.eqb c sep then EmptyString :: split sep s'
      else match split sep s' with
           | h :: t => String c h :: t
           | [] => [String c EmptyString]
           end
  end.

(** [c in s] for a character. *)
Fixpoint has_char (c : ascii) (s : string) : bool :=
  match s with
  | EmptyString => false
  | String d s' => Ascii.eqb d c || has_char c s'
  end.

Definition comma : ascii := ","%char.

End PyStr.

(** ** The engine's pattern-match operator *)

Module Like.

(** ASCII case folding, as the engine's [LIKE] does it: only ['A'..'Z']. *)
Definition to_lower (c : ascii) : ascii :=
  let n := nat_of_ascii c in
  if (65 <=? n)%nat && (n <=? 90)%nat then ascii_of_nat (n + 32) else c.

Definition ci_eqb (c d : ascii) : bool :=
  Ascii.eqb (to_lower c) (to_lower d).

Definition percent : ascii := "%"%char.
Definition underscore : ascii := "_"%char.

(** [like p s]: does the text [s] match the pattern [p]?  ['%'] stands for
    any run of characters (possibly empty), ['_'] for exactly one
    character, every other character for itself up to ASCII case.  There
    is no escape character: the statements carry no ESCAPE clause. *)
Fixpoint like (p : string) (s : string) {struct p} : bool :=
  match p with
  | EmptyString => match s with EmptyString => true | _ => false end
  | String c p' =>
      if Ascii.eqb c percent then
        (fix star (s : string) : bool :=
           like p' s ||
           match s with
           | EmptyString => false
           | String _ s' => star s'
           end) s
      else if Ascii.eqb c underscore then
        match s with
        | EmptyString => false
        | String _ s' => like p' s'
        end
      else
        match s with
        | EmptyString => false
        | String d s' => ci_eqb c d && like p' s'
        end
  end.

(** The words of the specification: [q] occurs in [s] as a substring,
    ignoring ASCII case. *)
Fixpoint ci_prefix (q s : string) : bool :=
  match q with
  | EmptyString => true
  | String c q' =>
      match s with
      | EmptyString => false
      | String d s' => ci_eqb c d && ci_prefix q' s'
      end
  end.

Fixpoint ci_substring (q s : string) : bool :=
  ci_prefix q s ||
  match s with
  | EmptyString => false
  | String _ s' => ci_substring q s'
  end.

(** Exact (case-sensitive) containment, for comparison. *)
Fixpoint prefix (q s : string) : bool :=
  match q with
  | EmptyString => true
  | String c q' =>
      match s with
      | EmptyString => false
      | String d s' => Ascii.eqb c d && prefix q' s'
      end
  end.

Fixpoint substring_of (q s : string) : bool :=
  prefix q s ||
  match s with
  | EmptyString => false
  | String _ s' => substring_of q s'
  end.

Definition is_wildcard (c : ascii) : bool :=
  Ascii.eqb c percent || Ascii.eqb c underscore.

Fixpoint wildcard_free (q : string) : bool :=
  match q with
  | EmptyString => true
  | String c q' => negb (is_wildcard c) && wildcard_free q'
  end.

(** The f-string [f"%{query}%"]. *)
Definition contains_pattern (query : string) : string :=
  String percent (query ++ String percent EmptyString).

(** The engine reads both operands of [LIKE] as C strings: an embedded
    NUL character ends the pattern and the text. *)
Definition nul : ascii := Ascii.zero.

Fixpoint c_str (s : string) : string :=
  match s with
  | EmptyString => EmptyString
  | String c s' => if Ascii.eqb c nul then EmptyString else String c (c_str s')
  end.

Fixpoint nul_free (s : string) : bool :=
  match s with
  | EmptyString => true
  | String c s' => negb (Ascii.eqb c nul) && nul_free s'
  end.

(** [x LIKE p] for two texts. *)
Definition sql_like (p s : string) : bool := like (c_str p) (c_str s).

(** What the wildcards make of a query, in plain words: [q1] occurs in
    [s] and [q2] occurs somewhere after it ([ci_follows]), or right after
    it with exactly one character in between ([ci_one_between]), ignoring
    ASCII case. *)
Fixpoint skip (n : nat) (s : string) : string :=
  match n, s with
  | O, _ => s
  | S n', String _ s' => skip n' s'
  | S _, EmptyString => EmptyString
  end.

Fixpoint ci_follows (q1 q2 s : string) : bool :=
  ci_prefix q1 s && ci_substring q2 (skip (String.length q1) s)
  || match s with
     | EmptyString => false
     | String _ s' => ci_follows q1 q2 s'
     end.

Fixpoint ci_one_between (q1 q2 s : string) : bool :=
  ci_prefix q1 s
  && match skip (String.length q1) s with
     | EmptyString => false
     | String _ s' => ci_prefix q2 s'
     end
  || match s with
     | EmptyString => false
     | String _ s' => ci_one_between q1 q2 s'
     end.

End Like.

(** ** The storage engine: values, rows, statements *)

Module Sql.

(** Python values a caller may put in a record or bind to a statement. *)
Inductive pyval :=
| PNone
| PBool (b : bool)
| PStr (s : string)
| PList (l : list string).

(** What the driver hands to the engine for a bound parameter. *)
Inductive bound :=
| BNull
| BInt (z : Z)
| BText (s : string).

(** A stored value.  [CNumeric s] is what the NUMERIC coercion of the
    [is_paywalled] column makes of the text [s] (a number when [s] reads
    as one, [s] itself otherwise); the coercion is a function of [s] and
    is not unfolded here. *)
Inductive cell :=
| CNull
| CInt (z : Z)
| CText (s : string)
| CNumeric (s : string).

Inductive sqlite_error :=
| BindingError (index : nat)        (* parameter of an unsupported type *)
| BindingCount                      (* wrong number of parameters *)
| NotNullFailed (column : string)   (* NOT NULL constraint failed *)
| UniqueFailed (column : string)    (* UNIQUE constraint failed *)
| NoSuchColumn (column : string).

Inductive res (A : Type) :=
| Ok (a : A)
| Err (e : sqlite_error).
Arguments Ok {A} a.
Arguments Err {A} e.

#[global] Instance res_ret : MRet res := fun A a => Ok a.
#[global] Instance res_bind : MBind res := fun A B f m =>
  match m with
  | Ok a => f a
  | Err e => Err e
  end.

(** [None], [bool] (an [int]) and [str] are bindable; a list is not. *)
Definition bind (v : pyval) : option bound :=
  match v with
  | PNone => Some BNull
  | PBool b => Some (BInt (if b then 1 else 0))
  | PStr s => Some (BText s)
  | PList _ => None
  end.

(** Parameters are bound left to right; positions count from 1. *)
Fixpoint bind_all (i : nat) (vs : list pyval) : res (list bound) :=
  match vs with
  | [] => Ok []
  | v :: vs' =>
      match bind v with
      | None => Err (BindingError i)
      | Some b => bs ← bind_all (S i) vs'; Ok (b :: bs)
      end
  end.

(** Column affinity TEXT: an integer is stored as its decimal text. *)
Definition text_affinity (b : bound) : option string :=
  match b with
  | BNull => None
  | BInt z => Some (pretty z)
  | BText s => Some s
  end.

(** Column affinity NUMERIC (the declared type BOOLEAN). *)
Definition numeric_affinity (b : bound) : cell :=
  match b with
  | BNull => CNull
  | BInt z => CInt z
  | BText s => CNumeric s
  end.

Definition text_cell (o : option string) : cell :=
  match o with
  | None => CNull
  | Some s => CText s
  end.

Definition not_null (column : string) (o : option string) : res string :=
  match o with
  | Some s => Ok s
  | None => Err (NotNullFailed column)
  end.

(** One row of [papers].  NOT NULL columns hold a [string]; nullable TEXT
    columns an [option string].  The key is nullable: the engine admits
    NULL in a PRIMARY KEY that is not an INTEGER one. *)
Record paper_row := PaperRow {
  r_id : option string;
  r_title : string;
  r_authors : string;
  r_abstract : option string;
  r_source : string;
  r_publication_date : string;
  r_access_date : string;
  r_pdf_path : option string;
  r_bibtex_path : option string;
  r_endnote_path : option string;
  r_is_paywalled : cell;
  r_summary : option string;
  r_implications : option string;
  r_topic_category : option string;
  r_error_log : option string
}.

(** [tags(id INTEGER PRIMARY KEY AUTOINCREMENT, name TEXT NOT NULL UNIQUE)]
    and [paper_tags(paper_id, tag_id)]; [tags_seq] is the AUTOINCREMENT
    counter the engine keeps for [tags]. *)
Record store := Store {
  papers : list paper_row;
  tags : list (Z * string);
  tags_seq : Z;
  paper_tags : list (string * Z)
}.

Definition empty_store : store :=
  {| papers := []; tags := []; tags_seq := 0; paper_tags := [] |}.

Definition set_papers (ps : list paper_row) (s : store) : store :=
  {| papers := ps; tags := tags s; tags_seq := tags_seq s;
     paper_tags := paper_tags s |}.

Definition has_id (pid : string) (r : paper_row) : bool :=
  bool_decide (r_id r = Some pid).

(** Uniqueness of the key: NULL never conflicts. *)
Definition id_taken (id : option string) (ps : list paper_row) : bool :=
  match id with
  | None => false
  | Some pid => existsb (has_id pid) ps
  end.

(** [INSERT INTO papers (id, title, authors, abstract, source,
    publication_date, access_date, pdf_path, bibtex_path, endnote_path,
    is_paywalled, summary, implications, topic_category) VALUES (?, ...)]:
    [error_log] is not in the column list and takes its default, NULL. *)
Definition insert_paper (params : list pyval) (s : store) : res store :=
  bs ← bind_all 1 params;
  match bs with
  | [id; title; authors; abstract; source; publication_date; access_date;
     pdf_path; bibtex_path; endnote_path; is_paywalled; summary;
     implications; topic_category] =>
      title' ← not_null "title" (text_affinity title);
      authors' ← not_null "authors" (text_affinity authors);
      source' ← not_null "source" (text_affinity source);
      publication_date' ←
        not_null "publication_date" (text_affinity publication_date);
      access_date' ← not_null "access_date" (text_affinity access_date);
      if id_taken (text_affinity id) (papers s)
      then Err (UniqueFailed "id")
      else
        Ok (set_papers
              (papers s ++
               [{| r_id := text_affinity id;
                   r_title := title';
                   r_authors := authors';
                   r_abstract := text_affinity abstract;
                   r_source := source';
                   r_publication_date := publication_date';
                   r_access_date := access_date';
                   r_pdf_path := text_affinity pdf_path;
                   r_bibtex_path := text_affinity bibtex_path;
                   r_endnote_path := text_affinity endnote_path;
                   r_is_paywalled := numeric_affinity is_paywalled;
                   r_summary := text_affinity summary;
                   r_implications := text_affinity implications;
                   r_topic_category := text_affinity topic_category;
                   r_error_log := None |}])
              s)
  | _ => Err BindingCount
  end.

(** [SELECT * FROM papers WHERE id = ?] followed by [fetchone()]. *)
Definition select_paper (pid : string) (s : store) : option paper_row :=
  List.find (has_id pid) (papers s).

(** [SELECT t.name FROM tags t JOIN paper_tags pt ON t.id = pt.tag_id
    WHERE pt.paper_id = ?]; a NULL parameter matches no row.  The order of
    the result is the engine's choice; here: by association, then by tag. *)
Definition names_of_tag (tid : Z) (ts : list (Z * string)) : list string :=
  snd <$> List.filter (fun t => bool_decide (fst t = tid)) ts.

Definition select_tag_names (pid : option string) (s : store) : list string :=
  match pid with
  | None => []
  | Some p =>
      List.flat_map
        (fun pt => names_of_tag (snd pt) (tags s))
        (List.filter (fun pt => bool_decide (fst pt = p)) (paper_tags s))
  end.

(** Text order of the engine (BINARY collation): byte-wise lexicographic. *)
Definition text_ge (a b : string) : bool := String.leb b a.

(** [x LIKE p] is NULL, hence not true, for a NULL [x]. *)
Definition like_opt (pattern : string) (x : option string) : bool :=
  match x with
  | None => false
  | Some s => Like.sql_like pattern s
  end.

(** The WHERE clause [search_papers] assembles:
    [(title LIKE ? OR abstract LIKE ?)], then [AND source = ?] and
    [AND publication_date >= ?] when those parameters were appended. *)
Definition search_where (p1 p2 : string) (source from_date : option string)
    (r : paper_row) : bool :=
  (Like.sql_like p1 (r_title r) || like_opt p2 (r_abstract r))
  && match source with
     | None => true
     | Some src => bool_decide (r_source r = src)
     end
  && match from_date with
     | None => true
     | Some d => text_ge (r_publication_date r) d
     end.

Definition select_papers_where (p1 p2 : string)
    (source from_date : option string) (s : store) : list paper_row :=
  List.filter (search_where p1 p2 source from_date) (papers s).

(** *** Tags *)

Definition set_tags (ts : list (Z * string)) (seq : Z) (s : store) : store :=
  {| papers := papers s; tags := ts; tags_seq := seq;
     paper_tags := paper_tags s |}.

Definition set_paper_tags (pts : list (string * Z)) (s : store) : store :=
  {| papers := papers s; tags := tags s; tags_seq := tags_seq s;
     paper_tags := pts |}.

Definition max_tag_id (ts : list (Z * string)) : Z :=
  foldr (fun t m => Z.max (fst t) m) 0%Z ts.

(** AUTOINCREMENT: one more than the largest id ever generated. *)
Definition next_tag_id (s : store) : Z :=
  (Z.max (tags_seq s) (max_tag_id (tags s)) + 1)%Z.

Definition has_name (n : string) (t : Z * string) : bool :=
  bool_decide (snd t = n).

(** [INSERT OR IGNORE INTO tags (name) VALUES (?)].  The engine generates
    the id, and records it in the counter, before it checks the
    constraints; a NULL name or a name already present makes it skip the
    row, the counter keeps the generated id. *)
Definition insert_or_ignore_tag (tag : pyval) (s : store) : res store :=
  bs ← bind_all 1 [tag];
  match bs with
  | [b] =>
      let g := next_tag_id s in
      match text_affinity b with
      | None => Ok (set_tags (tags s) g s)
      | Some n =>
          if existsb (has_name n) (tags s)
          then Ok (set_tags (tags s) g s)
          else Ok (set_tags (tags s ++ [(g, n)]) g s)
      end
  | _ => Err BindingCount
  end.

(** [SELECT id FROM tags WHERE name = ?] followed by [fetchone()]: the
    parameter is compared as text, NULL equals nothing. *)
Definition select_tag_id (tag : pyval) (s : store) : res (option Z) :=
  bs ← bind_all 1 [tag];
  match bs with
  | [b] =>
      match text_affinity b with
      | None => Ok None
      | Some n => Ok (fst <$> List.find (has_name n) (tags s))
      end
  | _ => Err BindingCount
  end.

Definition has_pair (pid : string) (tid : Z) (pt : string * Z) : bool :=
  bool_decide (pt = (pid, tid)).

(** [INSERT OR IGNORE INTO paper_tags (paper_id, tag_id) VALUES (?, ?)]:
    foreign keys are declared but not enforced. *)
Definition insert_or_ignore_paper_tag (pid : string) (tid : Z) (s : store)
    : res store :=
  if existsb (has_pair pid tid) (paper_tags s)
  then Ok s
  else Ok (set_paper_tags (paper_tags s ++ [(pid, tid)]) s).

(** *** UPDATE *)

Inductive column :=
| c_id | c_title | c_authors | c_abstract | c_source | c_publication_date
| c_access_date | c_pdf_path | c_bibtex_path | c_endnote_path
| c_is_paywalled | c_summary | c_implications | c_topic_category
| c_error_log.

Definition columns : list (string * column) :=
  [("id", c_id); ("title", c_title); ("authors", c_authors);
   ("abstract", c_abstract); ("source", c_source);
   ("publication_date", c_publication_date);
   ("access_date", c_access_date); ("pdf_path", c_pdf_path);
   ("bibtex_path", c_bibtex_path); ("endnote_path", c_endnote_path);
   ("is_paywalled", c_is_paywalled); ("summary", c_summary);
   ("implications", c_implications);
   ("topic_category", c_topic_category); ("error_log", c_error_log)].

Fixpoint assoc {A} (k : string) (l : list (string * A)) : option A :=
  match l with
  | [] => None
  | (k', a) :: l' => if String.eqb k' k then Some a else assoc k l'
  end.

Definition resolve (name : string) : res column :=
  match assoc name columns with
  | Some c => Ok c
  | None => Err (NoSuchColumn name)
  end.

Definition get_column (c : column) (r : paper_row) : cell :=
  match c with
  | c_id => text_cell (r_id r)
  | c_title => CText (r_title r)
  | c_authors => CText (r_authors r)
  | c_abstract => text_cell (r_abstract r)
  | c_source => CText (r_source r)
  | c_publication_date => CText (r_publication_date r)
  | c_access_date => CText (r_access_date r)
  | c_pdf_path => text_cell (r_pdf_path r)
  | c_bibtex_path => text_cell (r_bibtex_path r)
  | c_endnote_path => text_cell (r_endnote_path r)
  | c_is_paywalled => r_is_paywalled r
  | c_summary => text_cell (r_summary r)
  | c_implications => text_cell (r_implications r)
  | c_topic_category => text_cell (r_topic_category r)
  | c_error_log => text_cell (r_error_log r)
  end.

#[global] Instance column_eq_dec : EqDecision column.
Proof. solve_decision. Defined.

(** [c.description] names the columns of the statement the cursor
    executed last: the fifteen columns of [papers] after
    [SELECT * FROM papers], the one column [name] after the tag query. *)
Inductive statement := SelectPapers | SelectTagNames.

Definition description (last : statement) : list string :=
  match last with
  | SelectPapers => fst <$> columns
  | SelectTagNames => ["name"]
  end.

(** A fetched row of [papers]: its values in column order. *)
Definition row_values (r : paper_row) : list cell :=
  (fun nc => get_column (snd nc) r) <$> columns.

(** [SET c = b] on one row: TEXT columns take the text form of the value,
    NOT NULL columns reject NULL, [is_paywalled] is NUMERIC. *)
Definition set_column (c : column) (b : bound) (r : paper_row)
    : res paper_row :=
  let t := text_affinity b in
  let opt (c' : column) (old : option string) : option string :=
    if bool_decide (c = c') then t else old in
  let req (c' : column) (name : string) (old : string) : res string :=
    if bool_decide (c = c') then not_null name t else Ok old in
  title ← req c_title "title" (r_title r);
  authors ← req c_authors "authors" (r_authors r);
  source ← req c_source "source" (r_source r);
  publication_date ←
    req c_publication_date "publication_date" (r_publication_date r);
  access_date ← req c_access_date "access_date" (r_access_date r);
  Ok {| r_id := opt c_id (r_id r);
        r_title := title;
        r_authors := authors;
        r_abstract := opt c_abstract (r_abstract r);
        r_source := source;
        r_publication_date := publication_date;
        r_access_date := access_date;
        r_pdf_path := opt c_pdf_path (r_pdf_path r);
        r_bibtex_path := opt c_bibtex_path (r_bibtex_path r);
        r_endnote_path := opt c_endnote_path (r_endnote_path r);
        r_is_paywalled :=
          if bool_decide (c = c_is_paywalled) then numeric_affinity b
          else r_is_paywalled r;
        r_summary := opt c_summary (r_summary r);
        r_implications := opt c_implications (r_implications r);
        r_topic_category := opt c_topic_category (r_topic_category r);
        r_error_log := opt c_error_log (r_error_log r) |}.

(** The SET list, left to right: a column named twice keeps the rightmost
    value. *)
Fixpoint assign (sets : list (column * bound)) (r : paper_row)
    : res paper_row :=
  match sets with
  | [] => Ok r
  | (c, b) :: sets' => r' ← set_column c b r; assign sets' r'
  end.

Fixpoint update_rows (pid : string) (sets : list (column * bound))
    (ps : list paper_row) : res (list paper_row) :=
  match ps with
  | [] => Ok []
  | r :: ps' =>
      r' ← (if has_id pid r then assign sets r else Ok r);
      rest ← update_rows pid sets ps';
      Ok (r' :: rest)
  end.

Fixpoint unique_ids (ps : list paper_row) : bool :=
  match ps with
  | [] => true
  | r :: ps' => negb (id_taken (r_id r) ps') && unique_ids ps'
  end.

(** [UPDATE papers SET f1 = ?, ..., fn = ? WHERE id = ?]: the column names
    are resolved when the statement is prepared, then the parameters are
    bound, then the matching rows are rewritten; a failure leaves the table
    as it was. *)
Definition update_papers (fields : list string) (values : list pyval)
    (pid : string) (s : store) : res store :=
  cols ← mapM resolve fields;
  bs ← bind_all 1 (values ++ [PStr pid]);
  if bool_decide (length bs = S (length cols)) then
    rows ← update_rows pid (zip cols bs) (papers s);
    if existsb (fun c => bool_decide (c = c_id)) cols
       && negb (unique_ids rows)
    then Err (UniqueFailed "id")
    else Ok (set_papers rows s)
  else Err BindingCount.

End Sql.

(** ** Python control flow: state and exceptions *)

Module Py.
Import Sql.

Inductive exn :=
| SqliteError (e : sqlite_error)   (* sqlite3.Error and its subclasses *)
| KeyError (key : string)
| TypeError.

(** What the [except] handlers print. *)
Inductive log_line :=
| ErrorAddingPaper (e : sqlite_error)
| ErrorAddingTags (e : sqlite_error)
| ErrorUpdatingPaper (e : sqlite_error).

(** The database file ([db]: committed rows), the pending transaction of
    the connection in use ([txn]: its view of the rows, when it has written
    since its last commit), the number of connections opened and not yet
    closed, and the standard output. *)
Record world := World {
  db : store;
  txn : option store;
  open_conns : nat;
  stdout : list log_line
}.

Inductive outcome (A : Type) :=
| Ret (a : A)
| Raise (e : exn).
Arguments Ret {A} a.
Arguments Raise {A} e.

Definition py (A : Type) : Type := world → outcome A * world.

#[global] Instance py_ret : MRet py := fun A a w => (Ret a, w).
#[global] Instance py_bind : MBind py := fun A B f m w =>
  match m w with
  | (Ret a, w') => f a w'
  | (Raise e, w') => (Raise e, w')
  end.

Definition raise {A} (e : exn) : py A := fun w => (Raise e, w).

(** [try: body / except sqlite3.Error as e: handler e] *)
Definition try_except {A} (body : py A) (handler : sqlite_error → py A)
    : py A :=
  fun w =>
    match body w with
    | (Raise (SqliteError e), w') => handler e w'
    | r => r
    end.

(** [try: body / finally: final]: [final] runs on every exit of [body];
    an exception of [final] replaces the outcome of [body]. *)
Definition try_finally {A} (body : py A) (final : py unit) : py A :=
  fun w =>
    match body w with
    | (o, w') =>
        match final w' with
        | (Ret _, w'') => (o, w'')
        | (Raise e, w'') => (Raise e, w'')
        end
    end.

(** The rows a statement of the connection in use sees. *)
Definition view (w : world) : store :=
  match txn w with
  | Some s => s
  | None => db w
  end.

(** [sqlite3.connect(self.db_path)]: a new connection, no transaction. *)
Definition connect : py unit := fun w =>
  (Ret tt, {| db := db w; txn := None; open_conns := S (open_conns w);
              stdout := stdout w |}).

(** [c.execute(..)] for a statement that writes: the driver opens a
    transaction implicitly; a failing statement changes nothing. *)
Definition execute_write (stmt : store → res store) : py unit := fun w =>
  match stmt (view w) with
  | Ok s' => (Ret tt, {| db := db w; txn := Some s';
                         open_conns := open_conns w; stdout := stdout w |})
  | Err e => (Raise (SqliteError e), w)
  end.

(** [c.execute(..)] for a SELECT, with the fetch that follows. *)
Definition execute_read {A} (query : store → res A) : py A := fun w =>
  match query (view w) with
  | Ok a => (Ret a, w)
  | Err e => (Raise (SqliteError e), w)
  end.

Definition commit : py unit := fun w =>
  (Ret tt, {| db := view w; txn := None; open_conns := open_conns w;
              stdout := stdout w |}).

Definition rollback : py unit := fun w =>
  (Ret tt, {| db := db w; txn := None; open_conns := open_conns w;
              stdout := stdout w |}).

(** [conn.close()]: what was not committed is discarded. *)
Definition close : py unit := fun w =>
  (Ret tt, {| db := db w; txn := None; open_conns := pred (open_conns w);
              stdout := stdout w |}).

Definition print (l : log_line) : py unit := fun w =>
  (Ret tt, {| db := db w; txn := txn w; open_conns := open_conns w;
              stdout := stdout w ++ [l] |}).

(** [d[key]] and [d.get(key, default)] on a dict. *)
Definition getitem (d : gmap string pyval) (key : string) : py pyval :=
  match d !! key with
  | Some v => mret v
  | None => raise (KeyError key)
  end.

Definition get (d : gmap string pyval) (key : string) (default : pyval)
    : pyval :=
  match d !! key with
  | Some v => v
  | None => default
  end.

(** [','.join(v)]: [v] must be iterable; a [str] is, character by
    character. *)
Definition join_value (v : pyval) : py string :=
  match v with
  | PList l => mret (PyStr.join "," l)
  | PStr s => mret (PyStr.join "," (PyStr.chars s))
  | PNone | PBool _ => raise TypeError
  end.

(** [for x in l: body x] *)
Fixpoint for_each {A} (l : list A) (body : A → py unit) : py unit :=
  match l with
  | [] => mret tt
  | x :: l' => body x;; for_each l' body
  end.

End Py.


(** ** The operations of [DBManager] *)

Module DBManager.
Import Sql Py.

(** The dict the read operations return: the columns of the row, with
    [authors] split and [tags] attached. *)
Record paper_dict := PaperDict {
  d_id : option string;
  d_title : string;
  d_authors : list string;
  d_abstract : option string;
  d_source : string;
  d_publication_date : string;
  d_access_date : string;
  d_pdf_path : option string;
  d_bibtex_path : option string;
  d_endnote_path : option string;
  d_is_paywalled : cell;
  d_summary : option string;
  d_implications : option string;
  d_topic_category : option string;
  d_error_log : option string;
  d_tags : list string
}.

(** [paper_dict = dict(zip(columns, row))],
    [paper_dict['authors'] = paper_dict['authors'].split(',')],
    [paper_dict['tags'] = [row[0] for row in c.fetchall()]]. *)
Definition row_dict (r : paper_row) (tag_names : list string) : paper_dict :=
  {| d_id := r_id r;
     d_title := r_title r;
     d_authors := PyStr.split PyStr.comma (r_authors r);
     d_abstract := r_abstract r;
     d_source := r_source r;
     d_publication_date := r_publication_date r;
     d_access_date := r_access_date r;
     d_pdf_path := r_pdf_path r;
     d_bibtex_path := r_bibtex_path r;
     d_endnote_path := r_endnote_path r;
     d_is_paywalled := r_is_paywalled r;
     d_summary := r_summary r;
     d_implications := r_implications r;
     d_topic_category := r_topic_category r;
     d_error_log := r_error_log r;
     d_tags := tag_names |}.

(** [_init_db(self)]: the tables and indices are created only if they do
    not exist; on a store that has them the six statements change
    nothing, and the connection is committed and closed. *)
Definition create_if_not_exists (s : store) : res store := Ok s.

Definition _init_db : py unit :=
  connect;;
  execute_write create_if_not_exists;;
  execute_write create_if_not_exists;;
  execute_write create_if_not_exists;;
  execute_write create_if_not_exists;;
  execute_write create_if_not_exists;;
  execute_write create_if_not_exists;;
  commit;;
  close.

(** The parameter tuple of the INSERT, evaluated left to right: the
    subscripts raise KeyError, the join raises TypeError.  [now] is
    [datetime.now().isoformat()]. *)
Definition paper_tuple (paper : gmap string pyval) (now : string)
    : py (list pyval) :=
  id ← getitem paper "id";
  title ← getitem paper "title";
  authors ← getitem paper "authors";
  joined ← join_value authors;
  source ← getitem paper "source";
  publication_date ← getitem paper "publication_date";
  mret [id; title; PStr joined; get paper "abstract" PNone; source;
        publication_date; PStr now; get paper "pdf_path" PNone;
        get paper "bibtex_path" PNone; get paper "endnote_path" PNone;
        get paper "is_paywalled" (PBool false);
        get paper "summary" PNone; get paper "implications" PNone;
        get paper "topic_category" PNone].

(** [add_paper(self, paper)] *)
Definition add_paper (paper : gmap string pyval) (now : string) : py bool :=
  try_finally
    (try_except
       (connect;;
        params ← paper_tuple paper now;
        execute_write (insert_paper params);;
        commit;;
        mret true)
       (fun e => print (ErrorAddingPaper e);; mret false))
    close.

(** [get_paper(self, paper_id)]: no [close()] on either path. *)
Definition get_paper (paper_id : string) : py (option paper_dict) :=
  connect;;
  paper ← execute_read (fun s => Ok (select_paper paper_id s));
  match paper with
  | Some r =>
      names ← execute_read (fun s => Ok (select_tag_names (Some paper_id) s));
      mret (Some (row_dict r names))
  | None => mret None
  end.

(** [if source:] and [if from_date:]: [None] and [''] are both false. *)
Definition truthy (o : option string) : option string :=
  match o with
  | Some (String c s) => Some (String c s)
  | Some EmptyString | None => None
  end.

(** The loop of [search_papers] over the rows of [c.fetchall()].  Every
    turn reads [columns] from [c.description] anew, builds
    [dict(zip(columns, row))] and subscripts it with ['authors']; then it
    runs the tag query on the same cursor, which replaces the description.
    [last] is the statement the cursor executed last: in the first turn
    the SELECT on [papers], so that the dict has the columns of the row
    ([row_dict]); in every later turn the tag query of the turn before,
    so that the dict has the single key [name] and the subscript raises
    KeyError. *)
Fixpoint attach_tags (last : statement) (rows : list paper_row)
    : py (list paper_dict) :=
  match rows with
  | [] => mret []
  | r :: rows' =>
      let paper_dict := zip (description last) (row_values r) in
      match assoc "authors" paper_dict with
      | None => raise (KeyError "authors")
      | Some _ =>
          names ← execute_read (fun s => Ok (select_tag_names (r_id r) s));
          papers ← attach_tags SelectTagNames rows';
          mret (row_dict r names :: papers)
      end
  end.

(** [search_papers(self, query, source=None, from_date=None)]: there is
    no [try] around the loop, an exception of the loop skips
    [conn.close()] and reaches the caller. *)
Definition search_papers (query : string) (source from_date : option string)
    : py (list paper_dict) :=
  connect;;
  rows ← execute_read (fun s =>
            Ok (select_papers_where
                  (Like.contains_pattern query) (Like.contains_pattern query)
                  (truthy source) (truthy from_date) s));
  papers ← attach_tags SelectPapers rows;
  close;;
  mret papers.

(** The body of the loop of [add_tags]: insert the tag if absent, look
    its id up, link it to the paper.  [c.fetchone()[0]] raises TypeError
    when the lookup returns no row. *)
Definition link_tag (paper_id : string) (tag : pyval) : py unit :=
  execute_write (insert_or_ignore_tag tag);;
  row ← execute_read (select_tag_id tag);
  match row with
  | Some tag_id =>
      execute_write (insert_or_ignore_paper_tag paper_id tag_id)
  | None => raise TypeError
  end.

(** [add_tags(self, paper_id, tags)] *)
Definition add_tags (paper_id : string) (tags : list pyval) : py unit :=
  connect;;
  try_finally
    (try_except
       (for_each tags (link_tag paper_id);;
        commit)
       (fun e => print (ErrorAddingTags e);; rollback))
    close.

Definition valid_fields : gset string :=
  {[ "title"; "authors"; "abstract"; "pdf_path"; "bibtex_path";
     "endnote_path"; "is_paywalled"; "summary"; "implications";
     "topic_category"; "error_log" ]}.

(** The loop over [updates.items()] that fills [update_fields] and
    [values]; [items] lists the dict in its iteration order. *)
Fixpoint collect (items : list (string * pyval))
    : py (list string * list pyval) :=
  match items with
  | [] => mret ([], [])
  | (field, value) :: items' =>
      if bool_decide (field ∈ valid_fields) then
        v ← (if bool_decide (field ≠ "authors") then mret value
             else joined ← join_value value; mret (PStr joined));
        rest ← collect items';
        mret (field :: rest.1, v :: rest.2)
      else collect items'
  end.

(** [update_paper(self, paper_id, updates)] *)
Definition update_paper (paper_id : string) (updates : list (string * pyval))
    : py bool :=
  collected ← collect updates;
  let update_fields := collected.1 in
  let values := collected.2 in
  match update_fields with
  | [] => mret false
  | _ :: _ =>
      try_finally
        (try_except
           (connect;;
            execute_write (update_papers update_fields values paper_id);;
            commit;;
            mret true)
           (fun e => print (ErrorUpdatingPaper e);; mret false))
        close
  end.

Definition initial_world : world :=
  {| db := empty_store; txn := None; open_conns := 0; stdout := [] |}.

End DBManager.

(** ** Vocabulary of the properties *)

Module Obs.
Import Sql Py DBManager.

(** The world after an operation that opened a connection and released
    it: [s] is what it committed, the transaction is gone. *)
Definition released (w : world) (s : store) : world :=
  {| db := s; txn := None; open_conns := open_conns w;
     stdout := stdout w |}.

Definition released_log (w : world) (l : log_line) : world :=
  {| db := db w; txn := None; open_conns := open_conns w;
     stdout := stdout w ++ [l] |}.

(** The world after an operation that opened a connection, wrote nothing
    and did not close it. *)
Definition left_open (w : world) : world :=
  {| db := db w; txn := None; open_conns := S (open_conns w);
     stdout := stdout w |}.

(** The rows the SELECT of [search_papers] keeps. *)
Definition hits (query : string) (source from_date : option string)
    (s : store) : list paper_row :=
  select_papers_where
    (Like.contains_pattern query) (Like.contains_pattern query)
    (truthy source) (truthy from_date) s.

(** A row whose title or abstract, as the engine reads it, has [q1] and
    later [q2]; has [q1], one character, then [q2]. *)
Definition on_text (f : string → bool) (r : paper_row) : bool :=
  f (Like.c_str (r_title r))
  || match r_abstract r with
     | Some a => f (Like.c_str a)
     | None => false
     end.

(** The dict [d] shows the row [r]: its fields are those of the row,
    with some list of tags. *)
Definition shows (d : paper_dict) (r : paper_row) : Prop :=
  ∃ names, d = row_dict r names.

Definition percent_matches (q1 q2 : string) (r : paper_row) : bool :=
  on_text (Like.ci_follows q1 q2) r.

Definition underscore_matches (q1 q2 : string) (r : paper_row) : bool :=
  on_text (Like.ci_one_between q1 q2) r.

(** The value of the parameter tuple: it does not depend on the world. *)
Definition tuple_value (paper : gmap string pyval) (now : string)
    : outcome (list pyval) :=
  (paper_tuple paper now initial_world).1.

(** A paper record as the data model describes the input of [add_paper]:
    the required fields are there and [authors] is a sequence of
    strings. *)
Definition paper_record (paper : gmap string pyval) : Prop :=
  is_Some (paper !! "id") ∧ is_Some (paper !! "title")
  ∧ (∃ l, paper !! "authors" = Some (PList l))
  ∧ is_Some (paper !! "source")
  ∧ is_Some (paper !! "publication_date").

(** The store holds a paper with id [pid]. *)
Definition stored (pid : string) (s : store) : Prop :=
  ∃ r, r ∈ papers s ∧ r_id r = Some pid.

(** Nothing but the key can make the INSERT of this record fail: the
    NOT NULL text fields are strings and no field other than [authors]
    holds a value the driver cannot bind. *)
Definition insertable (paper : gmap string pyval) : Prop :=
  (∃ s, paper !! "title" = Some (PStr s))
  ∧ (∃ s, paper !! "source" = Some (PStr s))
  ∧ (∃ s, paper !! "publication_date" = Some (PStr s))
  ∧ (∀ k v, paper !! k = Some v → k ≠ "authors" → is_Some (bind v)).

(** The read operations turn rows into dicts, tags attached. *)
Definition dicts (s : store) (rows : list paper_row) : list paper_dict :=
  (fun r => row_dict r (select_tag_names (r_id r) s)) <$> rows.

(** The search filter in the words of the specification: the title or
    the abstract contains [query], ignoring case; the source, when given,
    is equal; the publication date, when a lower bound is given, is not
    before it in text order. *)
Definition contains_opt (query : string) (x : option string) : bool :=
  match x with
  | None => false
  | Some s => Like.ci_substring query s
  end.

Definition spec_matches (query : string) (source from_date : option string)
    (r : paper_row) : bool :=
  (Like.ci_substring query (r_title r) || contains_opt query (r_abstract r))
  && match source with
     | None => true
     | Some src => bool_decide (r_source r = src)
     end
  && match from_date with
     | None => true
     | Some d => String.leb d (r_publication_date r)
     end.

(** One turn of the loop of [add_tags], as a function of the rows the
    connection sees, and the whole loop. *)
Definition tag_step (pid : string) (tag : pyval) (s : store)
    : outcome store :=
  match insert_or_ignore_tag tag s with
  | Err e => Raise (SqliteError e)
  | Ok s1 =>
      match select_tag_id tag s1 with
      | Err e => Raise (SqliteError e)
      | Ok None => Raise TypeError
      | Ok (Some tid) =>
          match insert_or_ignore_paper_tag pid tid s1 with
          | Ok s2 => Ret s2
          | Err e => Raise (SqliteError e)
          end
      end
  end.

Fixpoint batch (pid : string) (tags : list pyval) (s : store)
    : outcome store :=
  match tags with
  | [] => Ret s
  | tag :: tags' =>
      match tag_step pid tag s with
      | Ret s' => batch pid tags' s'
      | Raise e => Raise e
      end
  end.

Definition with_txn (w : world) (t : option store) : world :=
  {| db := db w; txn := t; open_conns := open_conns w;
     stdout := stdout w |}.

(** The text a tag is stored under, when it has one. *)
Definition tag_name (tag : pyval) : option string :=
  match bind tag with
  | Some b => text_affinity b
  | None => None
  end.

(** What one turn of the loop does for a tag named [n]. *)
Definition link_pair (pid : string) (tid : Z) (s : store) : store :=
  if existsb (has_pair pid tid) (paper_tags s) then s
  else set_paper_tags (paper_tags s ++ [(pid, tid)]) s.

Definition link (pid : string) (n : string) (s : store) : store :=
  let g := next_tag_id s in
  match List.find (has_name n) (tags s) with
  | Some t => link_pair pid (fst t) (set_tags (tags s) g s)
  | None => link_pair pid g (set_tags (tags s ++ [(g, n)]) g s)
  end.

Definition link_all (pid : string) (names : list string) (s : store)
    : store :=
  foldl (fun s n => link pid n s) s names.

(** The tag named [n] exists and is attached to the paper [pid]. *)
Definition linked (pid : string) (n : string) (s : store) : Prop :=
  ∃ tid, List.find (has_name n) (tags s) = Some (tid, n)
         ∧ existsb (has_pair pid tid) (paper_tags s) = true.

(** The constraints of the schema on the two tag tables: tag ids and tag
    names are unique, and so are the (paper, tag) pairs. *)
Definition wf_store (s : store) : Prop :=
  NoDup (fst <$> tags s) ∧ NoDup (snd <$> tags s) ∧ NoDup (paper_tags s).

(** What the loop of [update_paper] gathers: it does not depend on the
    world. *)
Definition collect_value (items : list (string * pyval))
    : outcome (list string * list pyval) :=
  (collect items initial_world).1.

Definition column_name (c : column) : string :=
  match c with
  | c_id => "id" | c_title => "title" | c_authors => "authors"
  | c_abstract => "abstract" | c_source => "source"
  | c_publication_date => "publication_date"
  | c_access_date => "access_date" | c_pdf_path => "pdf_path"
  | c_bibtex_path => "bibtex_path" | c_endnote_path => "endnote_path"
  | c_is_paywalled => "is_paywalled" | c_summary => "summary"
  | c_implications => "implications"
  | c_topic_category => "topic_category" | c_error_log => "error_log"
  end.

(** The value [update_paper] binds for an entry of [updates]: the value
    itself, or the joined string for [authors]. *)
Definition bound_value (field : string) (value : pyval) : option pyval :=
  if bool_decide (field ≠ "authors") then Some value
  else match value with
       | PList l => Some (PStr (PyStr.join "," l))
       | PStr s => Some (PStr (PyStr.join "," (PyStr.chars s)))
       | PNone | PBool _ => None
       end.

(** The cell a column holds after [SET c = b]. *)
Definition cell_of (c : column) (b : bound) : cell :=
  if bool_decide (c = c_is_paywalled) then numeric_affinity b
  else text_cell (text_affinity b).

(** An entry of [updates] and the SET clause it becomes. *)
Definition entry_set (kv : string * pyval) (cb : column * bound) : Prop :=
  resolve kv.1 = Ok cb.1
  ∧ ∃ v', bound_value kv.1 kv.2 = Some v' ∧ bind v' = Some cb.2.

(** A row before and after an update of the paper [pid] that may write
    the columns named by [written]: a row of another paper is the same
    row, and every column that is not written holds the same cell. *)
Definition row_frame (pid : string) (written : string → Prop)
    (r r' : paper_row) : Prop :=
  (r_id r ≠ Some pid → r' = r)
  ∧ (∀ c, ¬ written (column_name c) → get_column c r' = get_column c r).

(** A row of the paper [pid] after a successful update: every entry of
    [updates] on the allow-list is in its column, in stored form. *)
Definition row_written (pid : string) (updates : list (string * pyval))
    (r r' : paper_row) : Prop :=
  r_id r = Some pid →
  ∀ k v, (k, v) ∈ updates → k ∈ valid_fields →
    ∃ c v' b, resolve k = Ok c ∧ bound_value k v = Some v'
              ∧ bind v' = Some b ∧ get_column c r' = cell_of c b.

(** "search_papers returns exactly the papers that match", at one call. *)
Definition search_claim (w : world) (query : string)
    (source from_date : option string) : Prop :=
  (search_papers query source from_date w).1 =
    Ret (dicts (db w)
           (List.filter (spec_matches query source from_date)
              (papers (db w)))).

(** The worlds the five operations can produce from an empty database. *)
Inductive reachable : world → Prop :=
| reach_init : reachable initial_world
| reach_add_paper w paper now :
    reachable w → reachable (add_paper paper now w).2
| reach_get_paper w pid :
    reachable w → reachable (get_paper pid w).2
| reach_search_papers w query source from_date :
    reachable w → reachable (search_papers query source from_date w).2
| reach_add_tags w pid tags :
    reachable w → reachable (add_tags pid tags w).2
| reach_update_paper w pid updates :
    reachable w → reachable (update_paper pid updates w).2.

(** [Paper.id] is unique across the store (NULL ids aside). *)
Definition ids_unique (s : store) : Prop := NoDup (omap r_id (papers s)).

End Obs.

(** ** Sample data *)

Module Sample.
Import Sql Py DBManager.

Definition paper1 : gmap string pyval :=
  {[ "id" := PStr "p1";
     "title" := PStr "Graph Neural Networks";
     "authors" := PList ["A"; "B"];
     "source" := PStr "arxiv";
     "publication_date" := PStr "2023-01-01";
     "error_log" := PStr "fetch failed" ]}.

Definition now1 : string := "2024-05-01T10:00:00".

(** The store after [add_paper(paper1)] on an empty database. *)
Definition world1 : world := (add_paper paper1 now1 initial_world).2.

(** A record with no author at all. *)
Definition paper2 : gmap string pyval :=
  {[ "id" := PStr "p2";
     "title" := PStr "Anonymous Note";
     "authors" := PList [];
     "source" := PStr "acm";
     "publication_date" := PStr "2022-01-01" ]}.

(** A paper whose title has an 'a', then something, then a 'b'. *)
Definition paper3 : gmap string pyval :=
  {[ "id" := PStr "p3";
     "title" := PStr "axb";
     "authors" := PList ["C"];
     "source" := PStr "arxiv";
     "publication_date" := PStr "2023-06-01" ]}.

Definition world3 : world := (add_paper paper3 now1 initial_world).2.

(** Two papers, from "arxiv" (2023-01-01) and from "acm" (2022-01-01). *)
Definition world12 : world := (add_paper paper2 now1 world1).2.

End Sample.

(** ** Further vocabulary and sample data *)

Module More.
Import Sql Py DBManager Obs.

(** Number of occurrences of a character. *)
Fixpoint count_char (c : ascii) (s : string) : nat :=
  match s with
  | EmptyString => 0
  | String d s' => (if Ascii.eqb d c then 1 else 0) + count_char c s'
  end.

(** The text a TEXT column holds for a bound Python value ([None] when the
    value is NULL or cannot be bound), and the cell of the NUMERIC column. *)
Definition text_of (v : pyval) : option string :=
  match bind v with
  | Some b => text_affinity b
  | None => None
  end.

Definition numeric_of (v : pyval) : option cell :=
  numeric_affinity <$> bind v.

(** The keys [add_paper] reads by subscript, in the order it reads them. *)
Definition required_keys : list string :=
  ["id"; "title"; "authors"; "source"; "publication_date"].

(** A row with its [authors] column rewritten, and the dict read from it. *)
Definition set_authors (a : string) (r : paper_row) : paper_row :=
  {| r_id := r_id r; r_title := r_title r; r_authors := a;
     r_abstract := r_abstract r; r_source := r_source r;
     r_publication_date := r_publication_date r;
     r_access_date := r_access_date r; r_pdf_path := r_pdf_path r;
     r_bibtex_path := r_bibtex_path r; r_endnote_path := r_endnote_path r;
     r_is_paywalled := r_is_paywalled r; r_summary := r_summary r;
     r_implications := r_implications r;
     r_topic_category := r_topic_category r;
     r_error_log := r_error_log r |}.

Definition with_authors (l : list string) (d : paper_dict) : paper_dict :=
  {| d_id := d_id d; d_title := d_title d; d_authors := l;
     d_abstract := d_abstract d; d_source := d_source d;
     d_publication_date := d_publication_date d;
     d_access_date := d_access_date d; d_pdf_path := d_pdf_path d;
     d_bibtex_path := d_bibtex_path d; d_endnote_path := d_endnote_path d;
     d_is_paywalled := d_is_paywalled d; d_summary := d_summary d;
     d_implications := d_implications d;
     d_topic_category := d_topic_category d;
     d_error_log := d_error_log d; d_tags := d_tags d |}.

(** The row [add_paper(paper1)] stores at the time [now1]. *)
Definition row1 : paper_row :=
  {| r_id := Some "p1"; r_title := "Graph Neural Networks";
     r_authors := "A,B"; r_abstract := None; r_source := "arxiv";
     r_publication_date := "2023-01-01"; r_access_date := Sample.now1;
     r_pdf_path := None; r_bibtex_path := None; r_endnote_path := None;
     r_is_paywalled := CInt 0; r_summary := None; r_implications := None;
     r_topic_category := None; r_error_log := None |}.

(** A record with no id. *)
Definition paper_null_id : gmap string pyval :=
  {[ "id" := PNone;
     "title" := PStr "Untitled";
     "authors" := PList ["N"];
     "source" := PStr "arxiv";
     "publication_date" := PStr "2021-01-01" ]}.

(** Every tag id an association names is the id of a tag. *)
Definition refs_ok (s : store) : Prop :=
  ∀ pt, pt ∈ paper_tags s → snd pt ∈ fst <$> tags s.

(** ASCII lower case of a text. *)
Fixpoint lower (s : string) : string :=
  match s with
  | EmptyString => EmptyString
  | String c s' => String (Like.to_lower c) (lower s')
  end.

(** A record whose [authors] is a string, not a list. *)
Definition paper_str : gmap string pyval :=
  {[ "id" := PStr "p4";
     "title" := PStr "Solo";
     "authors" := PStr "Kim";
     "source" := PStr "arxiv";
     "publication_date" := PStr "2021-03-04" ]}.

(** A record with no title, and one whose title is [None]. *)
Definition paper_untitled : gmap string pyval :=
  {[ "id" := PStr "p5";
     "authors" := PList ["A"];
     "source" := PStr "arxiv";
     "publication_date" := PStr "2021-03-04" ]}.

Definition paper_null_title : gmap string pyval :=
  <["title" := PNone]> paper_untitled.

End More.

(** * Properties *)

(** ** Strings: join and split *)

Section JoinSplit.
Import PyStr.

Lemma append_empty_r (s : string) : s ++ "" = s.
Proof.
  induction s as [|c s IH]; [done |].
  change (String c (s ++ "") = String c s). by rewrite IH.
Qed.

Lemma append_assoc (a b c : string) : (a ++ b) ++ c = a ++ (b ++ c).
Proof.
  induction a as [|x a IH]; [done |].
  change (String x ((a ++ b) ++ c) = String x (a ++ (b ++ c))).
  by rewrite IH.
Qed.

Lemma split_not_nil (sep : ascii) (s : string) : split sep s ≠ [].
Proof.
  induction s as [|c s IH]; simpl; [done |].
  destruct (Ascii.eqb c sep); [done |].
  by destruct (split sep s).
Qed.

(** A piece without the separator, followed by [rest], is glued to the
    first piece of [rest]. *)
Lemma split_append (sep : ascii) (x rest : string) :
  has_char sep x = false →
  split sep (x ++ rest) =
    match split sep rest with
    | h :: t => (x ++ h) :: t
    | [] => [x]
    end.
Proof.
  induction x as [|c x IH]; intros Hx.
  - change ("" ++ rest) with rest. destruct (split sep rest) eqn:E; [|done].
    by apply split_not_nil in E.
  - simpl in Hx. apply orb_false_iff in Hx as [Hc Hx].
    change (String c x ++ rest) with (String c (x ++ rest)).
    cbn [split]. rewrite Hc, (IH Hx).
    by destruct (split sep rest).
Qed.

Lemma split_single (sep : ascii) (x : string) :
  has_char sep x = false → split sep x = [x].
Proof.
  intros Hx. pose proof (split_append sep x "" Hx) as H.
  rewrite append_empty_r in H. rewrite H. cbn [split].
  by rewrite append_empty_r.
Qed.

Lemma split_join (l : list string) :
  l ≠ [] →
  Forall (fun a => has_char comma a = false) l →
  split comma (join "," l) = l.
Proof.
  unfold join. induction l as [|x l IH]; [done |]. intros _ Hl.
  apply Forall_cons in Hl as [Hx Hl].
  destruct l as [|y l].
  - by apply split_single.
  - change (String.concat "," (x :: y :: l))
      with (x ++ String comma (String.concat "," (y :: l))).
    rewrite split_append by done.
    change (split comma (String comma ?r)) with ("" :: split comma r).
    cbv iota. rewrite append_empty_r. f_equal. by apply IH.
Qed.

Lemma split_join_nil : split comma (join "," []) = [""].
Proof. reflexivity. Qed.

End JoinSplit.

(** ** The pattern-match operator *)

Section LikeFacts.
Import Like.

Lemma like_percent (p s : string) :
  like (String percent p) s =
    like p s ||
    match s with
    | EmptyString => false
    | String _ s' => like (String percent p) s'
    end.
Proof. by destruct s. Qed.

Lemma like_underscore (p s : string) :
  like (String underscore p) s =
    match s with
    | EmptyString => false
    | String _ s' => like p s'
    end.
Proof. by destruct s. Qed.

Lemma like_plain (c : ascii) (p s : string) :
  is_wildcard c = false →
  like (String c p) s =
    match s with
    | EmptyString => false
    | String d s' => ci_eqb c d && like p s'
    end.
Proof.
  unfold is_wildcard. intros [Hp Hu]%orb_false_iff.
  destruct s; simpl; by rewrite Hp, Hu.
Qed.

(** A lone ['%'] matches every text. *)
Lemma like_any (s : string) : like (String percent "") s = true.
Proof.
  induction s as [|c s IH]; [done |].
  rewrite like_percent, IH. apply orb_true_r.
Qed.

Lemma ci_eqb_refl (c : ascii) : ci_eqb c c = true.
Proof. apply Ascii.eqb_refl. Qed.

(** Without wildcards, [q%] is "starts with [q], ignoring case". *)
Lemma like_prefix (q s : string) :
  wildcard_free q = true →
  like (q ++ String percent "") s = ci_prefix q s.
Proof.
  revert s. induction q as [|c q IH]; intros s Hq.
  - apply like_any.
  - simpl in Hq. apply andb_true_iff in Hq as [Hc Hq].
    apply negb_true_iff in Hc.
    change (String c q ++ String percent "")
      with (String c (q ++ String percent "")).
    rewrite like_plain by done.
    destruct s as [|d s]; simpl; [done |]. by rewrite IH.
Qed.

(** Without wildcards, [%q%] is "contains [q], ignoring case". *)
Lemma like_contains (q s : string) :
  wildcard_free q = true →
  like (contains_pattern q) s = ci_substring q s.
Proof.
  intros Hq. unfold contains_pattern.
  induction s as [|d s IH].
  - rewrite like_percent, like_prefix by done. by destruct q.
  - rewrite like_percent, like_prefix, IH by done. by destruct q.
Qed.

(** ['%'] swallows any prefix. *)
Lemma like_percent_skip (p u s : string) :
  like (String percent p) s = true →
  like (String percent p) (u ++ s) = true.
Proof.
  intros H. induction u as [|c u IH]; [done |].
  change (String c u ++ s) with (String c (u ++ s)).
  rewrite like_percent, IH. apply orb_true_r.
Qed.

Lemma like_percent_here (p s : string) :
  like p s = true → like (String percent p) s = true.
Proof. intros H. rewrite like_percent, H. done. Qed.

(** Patterns compose along concatenation. *)
Lemma like_app (p1 p2 s1 s2 : string) :
  like p1 s1 = true → like p2 s2 = true →
  like (p1 ++ p2) (s1 ++ s2) = true.
Proof.
  revert s1. induction p1 as [|c p1 IH]; intros s1 H1 H2.
  - destruct s1; [done | discriminate].
  - change (String c p1 ++ p2) with (String c (p1 ++ p2)).
    destruct (Ascii.eqb c percent) eqn:Ec.
    + apply Ascii.eqb_eq in Ec as ->.
      induction s1 as [|d s1 IHs].
      * rewrite like_percent in H1. rewrite orb_false_r in H1.
        apply like_percent_here. by apply (IH "").
      * rewrite like_percent in H1. apply orb_true_iff in H1 as [H1|H1].
        -- apply like_percent_here. by apply IH.
        -- change (String d s1 ++ s2) with (String d (s1 ++ s2)).
           rewrite like_percent. rewrite (IHs H1). apply orb_true_r.
    + destruct (Ascii.eqb c underscore) eqn:Eu.
      * apply Ascii.eqb_eq in Eu as ->.
        rewrite like_underscore in H1. destruct s1 as [|d s1]; [done |].
        change (String d s1 ++ s2) with (String d (s1 ++ s2)).
        rewrite like_underscore. by apply IH.
      * assert (Hw : is_wildcard c = false)
          by (unfold is_wildcard; by rewrite Ec, Eu).
        rewrite like_plain in H1 by done.
        destruct s1 as [|d s1]; [done |].
        apply andb_true_iff in H1 as [Hcd H1].
        change (String d s1 ++ s2) with (String d (s1 ++ s2)).
        rewrite like_plain by done. rewrite Hcd. by apply IH.
Qed.

(** Read as a pattern, every text matches itself: there is no way to
    write a literal ['%'] or ['_']. *)
Lemma like_self (p : string) : like p p = true.
Proof.
  induction p as [|c p IH]; [done |].
  destruct (Ascii.eqb c percent) eqn:Ec.
  - apply Ascii.eqb_eq in Ec as ->.
    rewrite like_percent. replace (like (String percent p) p) with true.
    + apply orb_true_r.
    + symmetry. by apply like_percent_here.
  - destruct (Ascii.eqb c underscore) eqn:Eu.
    + apply Ascii.eqb_eq in Eu as ->. by rewrite like_underscore.
    + rewrite like_plain by (unfold is_wildcard; by rewrite Ec, Eu).
      by rewrite ci_eqb_refl.
Qed.

(** *** The operands as C strings *)

Lemma c_str_nul_free (s : string) : nul_free s = true → c_str s = s.
Proof.
  induction s as [|c s IH]; [done|]. cbn [nul_free c_str].
  intros [Hc Hs]%andb_true_iff. apply negb_true_iff in Hc.
  by rewrite Hc, IH.
Qed.

Lemma nul_free_app (a b : string) :
  nul_free a = true → nul_free b = true → nul_free (a ++ b) = true.
Proof.
  intros Ha Hb. induction a as [|c a IH]; [done|].
  change (String c a ++ b) with (String c (a ++ b)). cbn [nul_free] in *.
  apply andb_true_iff in Ha as [Hc Ha]. by rewrite Hc, IH.
Qed.

Lemma c_str_contains_pattern (q : string) :
  nul_free q = true → c_str (contains_pattern q) = contains_pattern q.
Proof.
  intros Hq. apply c_str_nul_free. unfold contains_pattern.
  cbn [nul_free]. change (Ascii.eqb percent nul) with false.
  cbn [negb andb]. by apply nul_free_app.
Qed.

Lemma sql_like_contains (q s : string) :
  nul_free q = true →
  sql_like (contains_pattern q) s = like (contains_pattern q) (c_str s).
Proof. intros Hq. unfold sql_like. by rewrite c_str_contains_pattern. Qed.

(** The pattern of the empty query, ["%%"], matches every text. *)
Lemma sql_like_all (s : string) : sql_like (contains_pattern "") s = true.
Proof.
  rewrite sql_like_contains by done.
  change (contains_pattern "") with (String percent (String percent "")).
  apply like_percent_here, like_any.
Qed.

(** *** Wildcards inside a query *)

(** A wildcard-free piece at the head of a pattern is a prefix test. *)
Lemma like_plain_prefix (q p s : string) :
  wildcard_free q = true →
  like (q ++ p) s = ci_prefix q s && like p (skip (String.length q) s).
Proof.
  revert s. induction q as [|c q IH]; intros s Hq; [done|].
  cbn [wildcard_free] in Hq. apply andb_true_iff in Hq as [Hc Hq].
  apply negb_true_iff in Hc.
  change (String c q ++ p) with (String c (q ++ p)).
  rewrite like_plain by done.
  destruct s as [|d s]; [done|]. cbn [ci_prefix String.length skip].
  rewrite IH by done. by rewrite andb_assoc.
Qed.

(** [%q1%q2%] is "[q1], and [q2] somewhere after it". *)
Lemma like_follows (q1 q2 s : string) :
  wildcard_free q1 = true → wildcard_free q2 = true →
  like (contains_pattern (q1 ++ String percent q2)) s = ci_follows q1 q2 s.
Proof.
  intros H1 H2. unfold contains_pattern. rewrite append_assoc.
  change (String percent q2 ++ String percent "")
    with (contains_pattern q2).
  assert (∀ t, like (q1 ++ contains_pattern q2) t
               = ci_prefix q1 t
                 && ci_substring q2 (skip (String.length q1) t)) as Hhere.
  { intros t. by rewrite like_plain_prefix, like_contains. }
  induction s as [|d s IH].
  - by rewrite like_percent, Hhere.
  - by rewrite like_percent, IH, Hhere.
Qed.

(** [%q1_q2%] is "[q1], one character, then [q2]". *)
Lemma like_one_between (q1 q2 s : string) :
  wildcard_free q1 = true → wildcard_free q2 = true →
  like (contains_pattern (q1 ++ String underscore q2)) s
  = ci_one_between q1 q2 s.
Proof.
  intros H1 H2. unfold contains_pattern. rewrite append_assoc.
  change (String underscore q2 ++ String percent "")
    with (String underscore (q2 ++ String percent "")).
  assert (∀ t, like (q1 ++ String underscore (q2 ++ String percent "")) t
               = ci_prefix q1 t
                 && match skip (String.length q1) t with
                    | EmptyString => false
                    | String _ t' => ci_prefix q2 t'
                    end) as Hhere.
  { intros t. rewrite like_plain_prefix by done. f_equal.
    rewrite like_underscore. destruct (skip _ t); [done|].
    by apply like_prefix. }
  induction s as [|d s IH].
  - by rewrite like_percent, Hhere.
  - by rewrite like_percent, IH, Hhere.
Qed.

End LikeFacts.

(** ** Running [add_paper] and [get_paper] *)

Section AddGet.
Import Sql Py DBManager Obs.

Lemma paper_tuple_pure (paper : gmap string pyval) (now : string) (w : world) :
  paper_tuple paper now w = (tuple_value paper now, w).
Proof.
  unfold tuple_value, paper_tuple, getitem, join_value, mbind, py_bind,
    mret, py_ret, raise.
  destruct (paper !! "id"); [|done].
  destruct (paper !! "title"); [|done].
  destruct (paper !! "authors") as [[]|]; try done;
    (destruct (paper !! "source"); [|done]);
    (destruct (paper !! "publication_date"); done).
Qed.

(** [add_paper] in one equation: the tuple, then the INSERT, then the
    handlers; the connection is released on each path. *)
Lemma add_paper_run (paper : gmap string pyval) (now : string) (w : world) :
  add_paper paper now w =
    match tuple_value paper now with
    | Ret params =>
        match insert_paper params (db w) with
        | Ok s' => (Ret true, released w s')
        | Err e => (Ret false, released_log w (ErrorAddingPaper e))
        end
    | Raise (SqliteError e) =>
        (Ret false, released_log w (ErrorAddingPaper e))
    | Raise e => (Raise e, released w (db w))
    end.
Proof.
  unfold add_paper, try_finally, try_except, mbind, py_bind, connect.
  rewrite paper_tuple_pure.
  destruct (tuple_value paper now) as [params|[e| |]]; try done.
  unfold execute_write, view. cbn.
  destruct (insert_paper params (db w)); done.
Qed.

Lemma tuple_value_record (paper : gmap string pyval) (now : string)
    (id title source publication_date : pyval) (l : list string) :
  paper !! "id" = Some id →
  paper !! "title" = Some title →
  paper !! "authors" = Some (PList l) →
  paper !! "source" = Some source →
  paper !! "publication_date" = Some publication_date →
  tuple_value paper now =
    Ret [id; title; PStr (PyStr.join "," l); get paper "abstract" PNone;
         source; publication_date; PStr now; get paper "pdf_path" PNone;
         get paper "bibtex_path" PNone; get paper "endnote_path" PNone;
         get paper "is_paywalled" (PBool false);
         get paper "summary" PNone; get paper "implications" PNone;
         get paper "topic_category" PNone].
Proof.
  intros H1 H2 H3 H4 H5.
  unfold tuple_value, paper_tuple, getitem, join_value, mbind, py_bind,
    mret, py_ret.
  by rewrite H1, H2, H3, H4, H5.
Qed.

Lemma tuple_value_inv (paper : gmap string pyval) (now : string)
    (params : list pyval) :
  tuple_value paper now = Ret params →
  ∃ id title authors joined source publication_date,
    paper !! "id" = Some id ∧ paper !! "authors" = Some authors
    ∧ ((∃ l, authors = PList l ∧ joined = PyStr.join "," l)
       ∨ (∃ s, authors = PStr s
               ∧ joined = PyStr.join "," (PyStr.chars s)))
    ∧ params =
      [id; title; PStr joined; get paper "abstract" PNone;
       source; publication_date; PStr now; get paper "pdf_path" PNone;
       get paper "bibtex_path" PNone; get paper "endnote_path" PNone;
       get paper "is_paywalled" (PBool false);
       get paper "summary" PNone; get paper "implications" PNone;
       get paper "topic_category" PNone].
Proof.
  unfold tuple_value, paper_tuple, getitem, join_value, mbind, py_bind,
    mret, py_ret, raise.
  destruct (paper !! "id") as [id|]; [|done].
  destruct (paper !! "title") as [title|]; [|done].
  destruct (paper !! "authors") as [[| |s|l]|]; try done;
    (destruct (paper !! "source") as [source|]; [|done]);
    (destruct (paper !! "publication_date") as [pd|]; [|done]);
    intros [= <-].
  - exists id, title, (PStr s), (PyStr.join "," (PyStr.chars s)), source, pd.
    naive_solver.
  - exists id, title, (PList l), (PyStr.join "," l), source, pd.
    naive_solver.
Qed.

(** What a successful INSERT did. *)
Lemma insert_paper_inv (id title authors abstract source publication_date
    access_date pdf_path bibtex_path endnote_path is_paywalled summary
    implications topic_category : pyval) (s s' : store) :
  insert_paper
    [id; title; authors; abstract; source; publication_date; access_date;
     pdf_path; bibtex_path; endnote_path; is_paywalled; summary;
     implications; topic_category] s = Ok s' →
  ∃ r bid bauthors,
    s' = set_papers (papers s ++ [r]) s
    ∧ bind id = Some bid ∧ r_id r = text_affinity bid
    ∧ bind authors = Some bauthors
    ∧ text_affinity bauthors = Some (r_authors r)
    ∧ id_taken (r_id r) (papers s) = false
    ∧ r_error_log r = None.
Proof.
  unfold insert_paper. cbn [bind_all].
  repeat (lazymatch goal with
          | |- context [bind ?v] => destruct (bind v) eqn:?
          end; [|done]).
  unfold mbind, res_bind, not_null.
  destruct (text_affinity b0) eqn:?; [|done].
  destruct (text_affinity b1) eqn:?; [|done].
  destruct (text_affinity b3) eqn:?; [|done].
  destruct (text_affinity b4) eqn:?; [|done].
  destruct (text_affinity b5) eqn:?; [|done].
  destruct (id_taken (text_affinity b) (papers s)) eqn:?; [done|].
  intros [= <-]. by eexists _, _, _.
Qed.

Lemma find_app_fresh {A} (f : A → bool) (l : list A) (x : A) :
  existsb f l = false → f x = true → List.find f (l ++ [x]) = Some x.
Proof.
  intros Hl Hx. induction l as [|y l IH]; simpl in *.
  - by rewrite Hx.
  - apply orb_false_iff in Hl as [-> Hl]. by apply IH.
Qed.

(** [get_paper] in one equation; the connection it opened stays open. *)
Lemma get_paper_run (pid : string) (w : world) :
  get_paper pid w =
    (Ret ((fun r => row_dict r (select_tag_names (Some pid) (db w)))
            <$> select_paper pid (db w)),
     {| db := db w; txn := None; open_conns := S (open_conns w);
        stdout := stdout w |}).
Proof.
  unfold get_paper, mbind, py_bind, connect, execute_read, view. cbn.
  by destruct (select_paper pid (db w)).
Qed.

Lemma add_paper_true (paper : gmap string pyval) (now : string)
    (w w1 : world) :
  add_paper paper now w = (Ret true, w1) →
  ∃ params s',
    tuple_value paper now = Ret params
    ∧ insert_paper params (db w) = Ok s' ∧ w1 = released w s'.
Proof.
  rewrite add_paper_run.
  destruct (tuple_value paper now) as [params|[]]; try done.
  destruct (insert_paper params (db w)) as [s'|] eqn:E; [|done].
  intros [= <-]. eauto.
Qed.

(** A successful [add_paper] appended exactly one row; its id and authors
    are those of the record, its [error_log] is NULL. *)
Lemma add_paper_true_row (paper : gmap string pyval) (now : string)
    (w w1 : world) :
  add_paper paper now w = (Ret true, w1) →
  ∃ r id bid authors joined,
    w1 = released w (set_papers (papers (db w) ++ [r]) (db w))
    ∧ paper !! "id" = Some id ∧ bind id = Some bid
    ∧ r_id r = text_affinity bid
    ∧ paper !! "authors" = Some authors
    ∧ ((∃ l, authors = PList l ∧ joined = PyStr.join "," l)
       ∨ (∃ s, authors = PStr s
               ∧ joined = PyStr.join "," (PyStr.chars s)))
    ∧ r_authors r = joined
    ∧ id_taken (r_id r) (papers (db w)) = false
    ∧ r_error_log r = None.
Proof.
  intros (params & s' & Hp & Hins & ->)%add_paper_true.
  apply tuple_value_inv in Hp
    as (id & title & authors & joined & source & pd & Hid & Hauth & Hj & ->).
  apply insert_paper_inv in Hins
    as (r & bid & ba & -> & Hb & Hrid & [= <-] & [= Hra] & Hfresh & Hlog).
  exists r, id, bid, authors, joined. naive_solver.
Qed.

Lemma select_paper_appended (pid : string) (r : paper_row) (s : store) :
  r_id r = Some pid →
  id_taken (r_id r) (papers s) = false →
  select_paper pid (set_papers (papers s ++ [r]) s) = Some r.
Proof.
  intros Hrid Hfresh. unfold select_paper. cbn [set_papers papers].
  apply find_app_fresh.
  - by rewrite Hrid in Hfresh.
  - unfold has_id. by rewrite Hrid, bool_decide_eq_true.
Qed.

Lemma get_bindable (paper : gmap string pyval) (k : string) (d : pyval) :
  (∀ k v, paper !! k = Some v → k ≠ "authors" → is_Some (bind v)) →
  k ≠ "authors" → is_Some (bind d) → is_Some (bind (get paper k d)).
Proof.
  intros H Hk Hd. unfold get. destruct (paper !! k) eqn:E; [|done]. eauto.
Qed.

Lemma stored_taken (pid : string) (s : store) :
  stored pid s ↔ id_taken (Some pid) (papers s) = true.
Proof.
  unfold stored, id_taken, has_id. rewrite existsb_exists. split.
  - intros (r & Hr & Hid). exists r. rewrite <- list_elem_of_In.
    by rewrite bool_decide_eq_true.
  - intros (r & Hr & Hid). exists r. rewrite <- list_elem_of_In in Hr.
    by rewrite bool_decide_eq_true in Hid.
Qed.

Lemma insert_paper_ok (pid title joined source publication_date now : string)
    (abstract pdf_path bibtex_path endnote_path is_paywalled summary
     implications topic_category : pyval) (s : store) :
  is_Some (bind abstract) → is_Some (bind pdf_path) →
  is_Some (bind bibtex_path) → is_Some (bind endnote_path) →
  is_Some (bind is_paywalled) → is_Some (bind summary) →
  is_Some (bind implications) → is_Some (bind topic_category) →
  ¬ stored pid s →
  ∃ s', insert_paper
    [PStr pid; PStr title; PStr joined; abstract; PStr source;
     PStr publication_date; PStr now; pdf_path; bibtex_path; endnote_path;
     is_paywalled; summary; implications; topic_category] s = Ok s'.
Proof.
  intros [? H1] [? H2] [? H3] [? H4] [? H5] [? H6] [? H7] [? H8] Hfresh.
  rewrite stored_taken in Hfresh. apply not_true_is_false in Hfresh.
  unfold insert_paper. cbn [bind_all bind].
  rewrite H1, H2, H3, H4, H5, H6, H7, H8. cbn.
  unfold id_taken in Hfresh. rewrite Hfresh. eauto.
Qed.

(** The key is unique: an id already stored makes the INSERT fail,
    whatever the other parameters are. *)
Lemma insert_paper_dup (pid : string) (title authors abstract source
    publication_date access_date pdf_path bibtex_path endnote_path
    is_paywalled summary implications topic_category : pyval) (s : store) :
  stored pid s →
  ∃ e, insert_paper
    [PStr pid; title; authors; abstract; source; publication_date;
     access_date; pdf_path; bibtex_path; endnote_path; is_paywalled;
     summary; implications; topic_category] s = Err e.
Proof.
  intros Hs%stored_taken.
  destruct (insert_paper _ s) as [s'|e] eqn:E; [|by eauto].
  apply insert_paper_inv in E
    as (r & bid & ba & _ & [= <-] & Hrid & _ & _ & Hfresh & _).
  rewrite Hrid in Hfresh. cbn in Hfresh. unfold id_taken in Hs. congruence.
Qed.

(** Whatever [add_paper] does short of returning [True], the committed
    rows stay as they were. *)
Lemma add_paper_keeps_db_unless_true (paper : gmap string pyval)
    (now : string) (w : world) :
  (add_paper paper now w).1 ≠ Ret true →
  db (add_paper paper now w).2 = db w.
Proof.
  rewrite add_paper_run.
  destruct (tuple_value paper now) as [params|[]]; try done.
  destruct (insert_paper params (db w)); done.
Qed.

(** A record missing a required field is not caught: KeyError reaches the
    caller (the rows are untouched, the connection is released). *)
Lemma add_paper_missing_title (paper : gmap string pyval) (now : string)
    (w : world) :
  is_Some (paper !! "id") → paper !! "title" = None →
  add_paper paper now w = (Raise (KeyError "title"), released w (db w)).
Proof.
  intros [id Hid] Ht. rewrite add_paper_run.
  unfold tuple_value, paper_tuple, getitem, mbind, py_bind, raise.
  by rewrite Hid, Ht.
Qed.

Lemma add_paper_succeeds (paper : gmap string pyval) (now pid : string)
    (l : list string) (w : world) :
  paper !! "id" = Some (PStr pid) →
  paper !! "authors" = Some (PList l) →
  insertable paper →
  ¬ stored pid (db w) →
  ∃ w1, add_paper paper now w = (Ret true, w1).
Proof.
  intros Hid Hauth ([title Ht] & [source Hs] & [pd Hp] & Hb) Hfresh.
  rewrite add_paper_run.
  rewrite (tuple_value_record paper now _ _ _ _ _ Hid Ht Hauth Hs Hp).
  destruct (insert_paper_ok pid title (PyStr.join "," l) source pd now
              (get paper "abstract" PNone) (get paper "pdf_path" PNone)
              (get paper "bibtex_path" PNone)
              (get paper "endnote_path" PNone)
              (get paper "is_paywalled" (PBool false))
              (get paper "summary" PNone) (get paper "implications" PNone)
              (get paper "topic_category" PNone) (db w)) as [s' ->];
    try (by apply get_bindable); [done|].
  by eexists.
Qed.

(** C1.  Authors round-trip: when the record's [authors] is a non-empty
    sequence of comma-free strings, a successful [add_paper] followed by
    [get_paper] on the same id returns the [authors] that were supplied. *)
Theorem authors_round_trip (paper : gmap string pyval) (now pid : string)
    (l : list string) (w w1 : world) :
  paper !! "id" = Some (PStr pid) →
  paper !! "authors" = Some (PList l) →
  l ≠ [] →
  Forall (fun a => PyStr.has_char PyStr.comma a = false) l →
  add_paper paper now w = (Ret true, w1) →
  ∃ d w2, get_paper pid w1 = (Ret (Some d), w2) ∧ d_authors d = l.
Proof.
  intros Hid Hauth Hne Hl Hadd.
  destruct (add_paper_true_row _ _ _ _ Hadd)
    as (r & id & bid & authors & joined & -> & Hid' & Hbid & Hrid & Hauth'
        & Hj & Hra & Hf & _).
  simplify_eq. cbn in Hbid. simplify_eq. cbn in Hrid.
  destruct Hj as [(l' & [= <-] & Hj)|(? & ? & _)]; [|done].
  rewrite get_paper_run. cbn [released db].
  rewrite (select_paper_appended pid r) by done.
  eexists _, _. split; [done|].
  cbn [d_authors row_dict]. rewrite Hj. by apply split_join.
Qed.

Lemma authors_round_trip_witness :
  ∃ d w2, get_paper "p1" Sample.world1 = (Ret (Some d), w2)
          ∧ d_authors d = ["A"; "B"].
Proof.
  apply (authors_round_trip Sample.paper1 Sample.now1 "p1" ["A"; "B"]
           initial_world Sample.world1).
  - vm_compute. reflexivity.
  - vm_compute. reflexivity.
  - discriminate.
  - repeat constructor.
  - vm_compute. reflexivity.
Defined.

(** C2.  Duplicate id: on a store that holds a paper with id [pid],
    [add_paper] of a paper record with that id returns [False], raises
    nothing, and leaves the committed rows, hence every field of the
    stored paper, as they were. *)
Theorem duplicate_id_rejected (paper : gmap string pyval) (now pid : string)
    (w : world) :
  paper_record paper →
  paper !! "id" = Some (PStr pid) →
  stored pid (db w) →
  ∃ w', add_paper paper now w = (Ret false, w')
        ∧ db w' = db w
        ∧ (get_paper pid w').1 = (get_paper pid w).1.
Proof.
  intros (_ & [title Ht] & [l Hl] & [source Hs] & [pd Hp]) Hid Hst.
  rewrite add_paper_run.
  rewrite (tuple_value_record paper now _ _ _ _ _ Hid Ht Hl Hs Hp).
  edestruct insert_paper_dup as [e ->]; [done|].
  eexists. split; [done|]. split; [done|]. by rewrite !get_paper_run.
Qed.

Lemma duplicate_id_rejected_witness :
  ∃ w', add_paper Sample.paper1 Sample.now1 Sample.world1 = (Ret false, w')
        ∧ db w' = db Sample.world1
        ∧ (get_paper "p1" w').1 = (get_paper "p1" Sample.world1).1.
Proof.
  apply (duplicate_id_rejected Sample.paper1 Sample.now1 "p1" Sample.world1).
  - repeat split; vm_compute; eauto.
  - vm_compute. reflexivity.
  - eexists. split; [apply list_elem_of_here|]. vm_compute. reflexivity.
Defined.

(** C10.  Empty authors: [add_paper] of a record whose [authors] is the
    empty sequence succeeds (the join is the empty string, which is not
    NULL), and [get_paper] then returns [authors == ['']], one empty
    string, not the empty sequence. *)
Theorem empty_authors_round_trip (paper : gmap string pyval)
    (now pid : string) (w : world) :
  paper !! "id" = Some (PStr pid) →
  paper !! "authors" = Some (PList []) →
  insertable paper →
  ¬ stored pid (db w) →
  ∃ w1 r d w2,
    add_paper paper now w = (Ret true, w1)
    ∧ select_paper pid (db w1) = Some r ∧ r_authors r = ""
    ∧ get_paper pid w1 = (Ret (Some d), w2)
    ∧ d_authors d = [""].
Proof.
  intros Hid Hauth Hins Hfresh.
  destruct (add_paper_succeeds paper now pid [] w) as [w1 Hadd]; try done.
  destruct (add_paper_true_row _ _ _ _ Hadd)
    as (r & id & bid & authors & joined & -> & Hid' & Hbid & Hrid & Hauth'
        & Hj & Hra & Hf & _).
  simplify_eq. cbn in Hbid. simplify_eq. cbn in Hrid.
  destruct Hj as [(l & [= <-] & Hj)|(? & ? & _)]; [|done].
  exists (released w (set_papers (papers (db w) ++ [r]) (db w))), r.
  eexists _, _.
  split; [done|]. rewrite get_paper_run. cbn [released db].
  rewrite (select_paper_appended pid r) by done.
  split; [done|]. split; [done|]. split; [done|].
  cbn [fmap option_fmap option_map d_authors row_dict]. by rewrite Hj.
Qed.

Lemma empty_authors_round_trip_witness :
  ∃ w1 r d w2,
    add_paper Sample.paper2 Sample.now1 Sample.world1 = (Ret true, w1)
    ∧ select_paper "p2" (db w1) = Some r ∧ r_authors r = ""
    ∧ get_paper "p2" w1 = (Ret (Some d), w2)
    ∧ d_authors d = [""].
Proof.
  apply (empty_authors_round_trip Sample.paper2 Sample.now1 "p2"
           Sample.world1).
  - vm_compute. reflexivity.
  - vm_compute. reflexivity.
  - repeat split; try (eexists; vm_compute; reflexivity).
    intros k v Hkv Hk.
    apply elem_of_map_to_list in Hkv. vm_compute in Hkv.
    repeat (apply elem_of_cons in Hkv as [Hkv|Hkv];
            [injection Hkv as -> ->; try done; by eexists|]).
    by apply not_elem_of_nil in Hkv.
  - intros (r & Hr & Hid). vm_compute in Hr.
    apply list_elem_of_singleton in Hr as ->. discriminate Hid.
Defined.

End AddGet.

(** ** Running [search_papers] *)

Section Search.
Import Sql Py DBManager Obs.

(** The dict of the first turn has every column of the row under its
    name; the dict of a later turn has no key [authors]. *)
Lemma zip_description_papers (c : column) (r : paper_row) :
  assoc (column_name c) (zip (description SelectPapers) (row_values r))
  = Some (get_column c r).
Proof. by destruct c. Qed.

Lemma zip_description_tag_names (r : paper_row) :
  zip (description SelectTagNames) (row_values r)
  = [("name", text_cell (r_id r))].
Proof. reflexivity. Qed.

(** The loop in one equation: it gets through no row or one row, and
    raises at the second. *)
Lemma attach_tags_run (rows : list paper_row) (w : world) :
  attach_tags SelectPapers rows w =
    match rows with
    | _ :: _ :: _ => (Raise (KeyError "authors"), w)
    | _ => (Ret (dicts (view w) rows), w)
    end.
Proof. by destruct rows as [|r [|r' rows]]. Qed.

(** [search_papers] in one equation.  When the SELECT keeps at most one
    row the result is that row as a dict, nothing is written and the
    connection is released; when it keeps two or more, KeyError reaches
    the caller and the connection stays open. *)
Lemma search_papers_run (query : string) (source from_date : option string)
    (w : world) :
  search_papers query source from_date w =
    match hits query source from_date (db w) with
    | _ :: _ :: _ => (Raise (KeyError "authors"), left_open w)
    | rows => (Ret (dicts (db w) rows), released w (db w))
    end.
Proof.
  unfold search_papers, mbind, py_bind, connect, execute_read, hits.
  cbn [view txn db]. rewrite attach_tags_run.
  by destruct (select_papers_where _ _ _ _ (db w)) as [|r [|r' rows]].
Qed.

Lemma search_papers_returns (query : string)
    (source from_date : option string) (w : world) :
  (List.length (hits query source from_date (db w)) ≤ 1)%nat →
  search_papers query source from_date w =
    (Ret (dicts (db w) (hits query source from_date (db w))),
     released w (db w)).
Proof.
  rewrite search_papers_run.
  destruct (hits query source from_date (db w)) as [|r [|r' rows]];
    cbn [List.length]; [done..|lia].
Qed.

Lemma search_papers_raises (query : string)
    (source from_date : option string) (w : world) :
  (2 ≤ List.length (hits query source from_date (db w)))%nat →
  search_papers query source from_date w =
    (Raise (KeyError "authors"), left_open w).
Proof.
  rewrite search_papers_run.
  destruct (hits query source from_date (db w)) as [|r [|r' rows]];
    cbn [List.length]; [lia..|done].
Qed.

Lemma search_papers_ret (query : string) (source from_date : option string)
    (found : list paper_dict) (w w1 : world) :
  search_papers query source from_date w = (Ret found, w1) →
  (List.length (hits query source from_date (db w)) ≤ 1)%nat
  ∧ found = dicts (db w) (hits query source from_date (db w))
  ∧ w1 = released w (db w).
Proof.
  rewrite search_papers_run.
  destruct (hits query source from_date (db w)) as [|r [|r' rows]];
    cbn [List.length]; intros [= <- <-]; repeat split; lia.
Qed.

(** On both paths the search writes nothing, prints nothing and leaves
    no transaction. *)
Lemma search_papers_reads (query : string)
    (source from_date : option string) (w : world) :
  db (search_papers query source from_date w).2 = db w
  ∧ txn (search_papers query source from_date w).2 = None
  ∧ stdout (search_papers query source from_date w).2 = stdout w.
Proof.
  rewrite search_papers_run.
  by destruct (hits query source from_date (db w)) as [|r [|r' rows]].
Qed.

Lemma leb_empty (s : string) : String.leb "" s = true.
Proof. by destruct s. Qed.

Lemma truthy_given (o : option string) : o ≠ Some "" → truthy o = o.
Proof. by destruct o as [[]|]. Qed.

Lemma filter_ext_all {A} (f g : A → bool) (l : list A) :
  (∀ x, f x = g x) → List.filter f l = List.filter g l.
Proof.
  intros H. induction l as [|x l IH]; simpl; [done|]. by rewrite H, IH.
Qed.

Lemma filter_all {A} (f : A → bool) (l : list A) :
  (∀ x, f x = true) → List.filter f l = l.
Proof.
  intros H. induction l as [|x l IH]; simpl; [done|]. by rewrite H, IH.
Qed.

(** With the empty query and no filter the SELECT keeps every row. *)
Lemma hits_all (s : store) : hits "" None None s = papers s.
Proof.
  unfold hits, select_papers_where. apply filter_all. intros r.
  unfold search_where. cbn [truthy]. by rewrite sql_like_all.
Qed.

(** Where the search returns, it still departs from plain containment
    and exact source matching in two ways: a ['%'] in the query is a
    wildcard (the paper titled "axb" is returned for "a%b", which it does
    not contain), and an empty [source] is treated as no filter (the
    paper from "arxiv" is returned for [source = ""]). *)
Lemma search_claim_counterexample :
  (d_title <$> dicts (db Sample.world3) (papers (db Sample.world3)) = ["axb"]
   ∧ Like.ci_substring "a%b" "axb" = false
   ∧ (search_papers "a%b" None None Sample.world3).1
     = Ret (dicts (db Sample.world3) (papers (db Sample.world3)))
   ∧ ¬ search_claim Sample.world3 "a%b" None None)
  ∧ (d_source <$> dicts (db Sample.world3) (papers (db Sample.world3))
     = ["arxiv"]
     ∧ (search_papers "" (Some "") None Sample.world3).1
       = Ret (dicts (db Sample.world3) (papers (db Sample.world3)))
     ∧ ¬ search_claim Sample.world3 "" (Some "") None).
Proof.
  repeat split; try (vm_compute; reflexivity);
    intros H; vm_compute in H; discriminate H.
Qed.

(** C3.  The search does not return "exactly the papers that match" on
    every store: as soon as the SELECT keeps two rows, the second turn
    of the loop reads its column names from the description of the tag
    query, the dict it builds has no key [authors], and the call raises
    KeyError instead of returning; [conn.close()] is skipped.  With the
    empty query and no filter the SELECT keeps every row, so this is
    what happens on every store with two papers or more. *)
Theorem search_raises_on_second_hit (w : world) (query : string)
    (source from_date : option string) :
  (2 ≤ List.length (hits query source from_date (db w)))%nat →
  search_papers query source from_date w
  = (Raise (KeyError "authors"), left_open w)
  ∧ ¬ search_claim w query source from_date
  ∧ hits "" None None (db w) = papers (db w).
Proof.
  intros H. split; [by apply search_papers_raises|]. split.
  - unfold search_claim. by rewrite search_papers_raises.
  - apply hits_all.
Qed.

Lemma search_raises_on_second_hit_witness :
  List.length (papers (db Sample.world12)) = 2
  ∧ search_papers "" None None Sample.world12
    = (Raise (KeyError "authors"), left_open Sample.world12)
  ∧ ¬ search_claim Sample.world12 "" None None
  ∧ hits "" None None (db Sample.world12) = papers (db Sample.world12).
Proof.
  split; [reflexivity|].
  apply (search_raises_on_second_hit Sample.world12 "" None None).
  vm_compute. lia.
Defined.

(** The spec's own examples, on stores where one paper matches. *)
Example search_neural :
  d_title <$> (dicts (db Sample.world1)
                 (List.filter (spec_matches "neural" None None)
                    (papers (db Sample.world1))))
  = ["Graph Neural Networks"]
  ∧ (search_papers "NEURAL" None None Sample.world1).1
    = Ret (dicts (db Sample.world1) (papers (db Sample.world1))).
Proof. vm_compute. split; reflexivity. Qed.

Example search_zzz :
  (search_papers "zzz" None None Sample.world1).1 = Ret [].
Proof. vm_compute. reflexivity. Qed.

Example search_source_filter :
  match (search_papers "" (Some "acm") None Sample.world12).1 with
  | Ret found => d_id <$> found = [Some "p2"]
  | Raise _ => False
  end.
Proof. vm_compute. reflexivity. Qed.

Example search_date_filter :
  (search_papers "" None (Some "2023-06-01") Sample.world1).1 = Ret []
  ∧ match (search_papers "" None (Some "2022-01-01") Sample.world1).1 with
    | Ret found => d_id <$> found = [Some "p1"]
    | Raise _ => False
    end.
Proof. vm_compute. split; reflexivity. Qed.

(** *** Wildcards *)

Lemma like_percent_leak (q1 q2 u v t : string) :
  Like.like (Like.contains_pattern (q1 ++ String Like.percent q2))
    (u ++ q1 ++ v ++ q2 ++ t) = true.
Proof.
  unfold Like.contains_pattern. apply like_percent_skip, like_percent_here.
  rewrite append_assoc. apply like_app; [apply like_self|].
  change (String Like.percent q2 ++ String Like.percent "")
    with (String Like.percent (q2 ++ String Like.percent "")).
  apply like_percent_skip, like_percent_here.
  apply like_app; [apply like_self | apply like_any].
Qed.

Lemma like_underscore_leak (q1 q2 u t : string) (c : ascii) :
  Like.like (Like.contains_pattern (q1 ++ String Like.underscore q2))
    (u ++ q1 ++ String c (q2 ++ t)) = true.
Proof.
  unfold Like.contains_pattern. apply like_percent_skip, like_percent_here.
  rewrite append_assoc. apply like_app; [apply like_self|].
  change (String Like.underscore q2 ++ String Like.percent "")
    with (String Like.underscore (q2 ++ String Like.percent "")).
  rewrite like_underscore.
  apply like_app; [apply like_self | apply like_any].
Qed.

Lemma nul_free_wildcard_query (q1 q2 : string) (c : ascii) :
  Like.nul_free q1 = true → Like.nul_free q2 = true →
  Ascii.eqb c Like.nul = false →
  Like.nul_free (q1 ++ String c q2) = true.
Proof.
  intros H1 H2 Hc. apply nul_free_app; [done|].
  cbn [Like.nul_free]. by rewrite Hc, H2.
Qed.

Lemma dicts_show (s : store) (rows : list paper_row) :
  Forall2 shows (dicts s rows) rows.
Proof.
  unfold dicts. apply Forall2_fmap_l, Forall_Forall2_diag, Forall_forall.
  intros r _. by eexists.
Qed.

(** The rows the SELECT keeps for [q1%q2] and for [q1_q2]. *)
Lemma hits_percent (q1 q2 : string) (s : store) :
  Like.wildcard_free q1 = true → Like.wildcard_free q2 = true →
  Like.nul_free q1 = true → Like.nul_free q2 = true →
  hits (q1 ++ String Like.percent q2) None None s
  = List.filter (percent_matches q1 q2) (papers s).
Proof.
  intros W1 W2 N1 N2. unfold hits, select_papers_where.
  apply filter_ext_all. intros r.
  unfold search_where, like_opt, percent_matches, on_text.
  cbn [truthy]. rewrite !andb_true_r.
  rewrite sql_like_contains, like_follows
    by (done || by apply nul_free_wildcard_query).
  f_equal. destruct (r_abstract r) as [a|]; [|done].
  by rewrite sql_like_contains, like_follows
    by (done || by apply nul_free_wildcard_query).
Qed.

Lemma hits_underscore (q1 q2 : string) (s : store) :
  Like.wildcard_free q1 = true → Like.wildcard_free q2 = true →
  Like.nul_free q1 = true → Like.nul_free q2 = true →
  hits (q1 ++ String Like.underscore q2) None None s
  = List.filter (underscore_matches q1 q2) (papers s).
Proof.
  intros W1 W2 N1 N2. unfold hits, select_papers_where.
  apply filter_ext_all. intros r.
  unfold search_where, like_opt, underscore_matches, on_text.
  cbn [truthy]. rewrite !andb_true_r.
  rewrite sql_like_contains, like_one_between
    by (done || by apply nul_free_wildcard_query).
  f_equal. destruct (r_abstract r) as [a|]; [|done].
  by rewrite sql_like_contains, like_one_between
    by (done || by apply nul_free_wildcard_query).
Qed.

(** C8.  Wildcard leakage: the query goes into the pattern unescaped, so
    a ['%'] in it stands for any run of characters and a ['_'] for any
    one character.  For [q1] and [q2] without wildcards, the rows the
    search selects for the query [q1%q2] are exactly those whose title or
    abstract has [q1] and, anywhere after it, [q2]; for [q1_q2], exactly
    those that have [q1], one character, then [q2] (ignoring ASCII
    case).  When at most one row is selected, these rows, as dicts, are
    what [search_papers] returns.  A title [u q1 v q2 t] is thus selected for
    [q1%q2], whatever [v] is, and for [q1_q2] when [v] is one
    character. *)
Theorem wildcard_leakage (w : world) (q1 q2 : string) :
  Like.wildcard_free q1 = true → Like.wildcard_free q2 = true →
  Like.nul_free q1 = true → Like.nul_free q2 = true →
  let query_percent := q1 ++ String Like.percent q2 in
  let query_underscore := q1 ++ String Like.underscore q2 in
  let rows_percent := List.filter (percent_matches q1 q2) (papers (db w)) in
  let rows_underscore :=
    List.filter (underscore_matches q1 q2) (papers (db w)) in
  hits query_percent None None (db w) = rows_percent
  ∧ hits query_underscore None None (db w) = rows_underscore
  ∧ ((List.length rows_percent ≤ 1)%nat →
     ∃ found,
       search_papers query_percent None None w
       = (Ret found, released w (db w))
       ∧ Forall2 shows found rows_percent)
  ∧ ((List.length rows_underscore ≤ 1)%nat →
     ∃ found,
       search_papers query_underscore None None w
       = (Ret found, released w (db w))
       ∧ Forall2 shows found rows_underscore)
  ∧ (∀ r u v t,
       Like.c_str (r_title r) = u ++ q1 ++ v ++ q2 ++ t →
       percent_matches q1 q2 r = true
       ∧ (String.length v = 1 → underscore_matches q1 q2 r = true)).
Proof.
  intros W1 W2 N1 N2. cbn zeta.
  pose proof (hits_percent q1 q2 (db w) W1 W2 N1 N2) as Hp.
  pose proof (hits_underscore q1 q2 (db w) W1 W2 N1 N2) as Hu.
  split; [done|]. split; [done|]. split; [|split].
  - intros Hlen. rewrite <- Hp in *. eexists.
    split; [by apply search_papers_returns|apply dicts_show].
  - intros Hlen. rewrite <- Hu in *. eexists.
    split; [by apply search_papers_returns|apply dicts_show].
  - intros r u v t Ht. unfold percent_matches, underscore_matches, on_text.
    rewrite Ht. split.
    + rewrite <- like_follows by done. by rewrite like_percent_leak.
    + intros Hv. destruct v as [|c [|]]; try done.
      change (String c "" ++ q2 ++ t) with (String c (q2 ++ t)).
      rewrite <- like_one_between by done.
      by rewrite like_underscore_leak.
Qed.

Lemma wildcard_leakage_witness :
  (∃ found,
     search_papers "a%b" None None Sample.world3
     = (Ret found, released Sample.world3 (db Sample.world3))
     ∧ Forall2 shows found
         (List.filter (percent_matches "a" "b")
            (papers (db Sample.world3))))
  ∧ r_title <$> List.filter (percent_matches "a" "b")
                  (papers (db Sample.world3)) = ["axb"]
  ∧ Like.substring_of "a%b" "axb" = false.
Proof.
  split; [|split; reflexivity].
  destruct (wildcard_leakage Sample.world3 "a" "b"
              eq_refl eq_refl eq_refl eq_refl) as (_ & _ & H & _).
  apply H. vm_compute. lia.
Defined.

(** The wildcard reading also excludes: "axb" has no ['a'] after its
    ['b'], so it is not selected for "b%a", nor for "a_x". *)
Example wildcard_excludes :
  search_papers "b%a" None None Sample.world3
  = (Ret [], released Sample.world3 (db Sample.world3))
  ∧ search_papers "a_x" None None Sample.world3
    = (Ret [], released Sample.world3 (db Sample.world3))
  ∧ d_title <$> match (search_papers "a_b" None None Sample.world3).1 with
                | Ret found => found
                | Raise _ => []
                end = ["axb"].
Proof. vm_compute. done. Qed.

End Search.

(** ** Running [add_tags] *)

Section Tags.
Import Sql Py DBManager Obs.

Lemma link_tag_run (pid : string) (tag : pyval) (w : world) :
  ∃ t, link_tag pid tag w =
         (match tag_step pid tag (view w) with
          | Ret _ => Ret tt
          | Raise e => Raise e
          end, with_txn w t)
       ∧ ∀ s', tag_step pid tag (view w) = Ret s' → t = Some s'.
Proof.
  unfold link_tag, tag_step, mbind, py_bind, execute_write, execute_read, raise.
  destruct (insert_or_ignore_tag tag (view w)) as [s1|e] eqn:E1.
  - cbn [view txn]. destruct (select_tag_id tag s1) as [[tid|]|e] eqn:E2.
    + cbn [view txn].
      destruct (insert_or_ignore_paper_tag pid tid s1) as [s2|e] eqn:E3.
      * exists (Some s2). split; [done|]. by intros ? [= <-].
      * exists (Some s1). split; [done|]. done.
    + exists (Some s1). split; [done|]. done.
    + exists (Some s1). split; [done|]. done.
  - exists (txn w). split; [by destruct w|done].
Qed.

Lemma for_each_tags_run (pid : string) (tags : list pyval) (w : world) :
  ∃ t, for_each tags (link_tag pid) w =
         (match batch pid tags (view w) with
          | Ret _ => Ret tt
          | Raise e => Raise e
          end, with_txn w t)
       ∧ ∀ s', batch pid tags (view w) = Ret s' → view (with_txn w t) = s'.
Proof.
  revert w. induction tags as [|tag tags IH]; intros w.
  - exists (txn w). split; [by destruct w|]. cbn. by intros ? [= <-].
  - cbn [for_each batch]. unfold mbind, py_bind.
    destruct (link_tag_run pid tag w) as (t & -> & Ht).
    destruct (tag_step pid tag (view w)) as [s1|e] eqn:E1.
    + specialize (Ht _ eq_refl) as ->.
      destruct (IH (with_txn w (Some s1))) as (t' & -> & Ht').
      exists t'. done.
    + by exists t.
Qed.

Lemma add_tags_run (pid : string) (tags : list pyval) (w : world) :
  add_tags pid tags w =
    match batch pid tags (db w) with
    | Ret s' => (Ret tt, released w s')
    | Raise (SqliteError e) =>
        (Ret tt, released_log w (ErrorAddingTags e))
    | Raise e => (Raise e, released w (db w))
    end.
Proof.
  unfold add_tags, try_finally, try_except, mbind, py_bind, connect.
  destruct (for_each_tags_run pid tags
              {| db := db w; txn := None; open_conns := S (open_conns w);
                 stdout := stdout w |}) as (t & -> & Ht).
  cbn [view txn db] in *.
  destruct (batch pid tags (db w)) as [s'|[e| |]] eqn:E; try done.
  specialize (Ht _ eq_refl). unfold commit. rewrite Ht. done.
Qed.

Lemma find_existsb {A} (f : A → bool) (l : list A) :
  existsb f l = match List.find f l with Some _ => true | None => false end.
Proof. induction l as [|x l IH]; simpl; [done|]. by destruct (f x). Qed.

Lemma find_app_l {A} (f : A → bool) (l l' : list A) (x : A) :
  List.find f l = Some x → List.find f (l ++ l') = Some x.
Proof. induction l as [|y l IH]; simpl; [done|]. by destruct (f y). Qed.

Lemma find_app_r {A} (f : A → bool) (l l' : list A) :
  List.find f l = None → List.find f (l ++ l') = List.find f l'.
Proof. induction l as [|y l IH]; simpl; [done|]. by destruct (f y). Qed.

Lemma find_has_name (n : string) (ts : list (Z * string)) (t : Z * string) :
  List.find (has_name n) ts = Some t → t = (fst t, n).
Proof.
  intros [_ H]%find_some. unfold has_name in H.
  apply bool_decide_eq_true in H. destruct t; naive_solver.
Qed.

Lemma tag_step_named (pid : string) (tag : pyval) (n : string) (s : store) :
  tag_name tag = Some n → tag_step pid tag s = Ret (link pid n s).
Proof.
  unfold tag_name, tag_step, link, insert_or_ignore_tag, select_tag_id.
  cbn [bind_all]. destruct (bind tag) as [b|]; [|done]. intros Hn.
  unfold mbind, res_bind. rewrite Hn, find_existsb.
  destruct (List.find (has_name n) (tags s)) as [t|] eqn:Ef.
  - cbn [set_tags tags]. rewrite Ef. cbn [fmap option_fmap option_map].
    unfold insert_or_ignore_paper_tag, link_pair.
    by destruct (existsb _ _).
  - cbn [set_tags tags]. rewrite find_app_r by done. cbn [List.find].
    unfold has_name at 1. cbn [snd]. rewrite bool_decide_eq_true_2 by done.
    cbn [fmap option_fmap option_map fst].
    unfold insert_or_ignore_paper_tag, link_pair.
    by destruct (existsb _ _).
Qed.

Lemma tag_step_none (pid : string) (s : store) :
  tag_step pid PNone s = Raise TypeError.
Proof. reflexivity. Qed.

Lemma tag_step_list (pid : string) (l : list string) (s : store) :
  tag_step pid (PList l) s = Raise (SqliteError (BindingError 1)).
Proof. reflexivity. Qed.

Lemma tag_name_some (tag : pyval) :
  tag ≠ PNone → (∃ n, tag_name tag = Some n) ∨ (∃ l, tag = PList l).
Proof. destruct tag as [|[]| |]; naive_solver. Qed.

Lemma batch_no_type_error (pid : string) (tags : list pyval) (s : store) :
  Forall (fun t => t ≠ PNone) tags →
  (∃ s', batch pid tags s = Ret s')
  ∨ (∃ e, batch pid tags s = Raise (SqliteError e)).
Proof.
  intros H. revert s. induction H as [|tag tags Ht _ IH]; intros s.
  - left. by eexists.
  - cbn [batch]. destruct (tag_name_some tag Ht) as [[n Hn]|[l ->]].
    + rewrite (tag_step_named _ _ _ _ Hn). apply IH.
    + rewrite tag_step_list. right. by eexists.
Qed.

Lemma batch_names (pid : string) (names : list string) (s : store) :
  batch pid (PStr <$> names) s = Ret (foldl (fun s n => link pid n s) s names).
Proof.
  revert s. induction names as [|n names IH]; intros s; [done|].
  cbn [fmap list_fmap batch foldl].
  rewrite (tag_step_named pid (PStr n) n) by done.
  apply IH.
Qed.

Lemma link_pair_tables (pid : string) (tid : Z) (s : store) :
  papers (link_pair pid tid s) = papers s
  ∧ tags (link_pair pid tid s) = tags s
  ∧ tags_seq (link_pair pid tid s) = tags_seq s
  ∧ existsb (has_pair pid tid) (paper_tags (link_pair pid tid s)) = true
  ∧ (paper_tags (link_pair pid tid s) = paper_tags s
     ∨ existsb (has_pair pid tid) (paper_tags s) = false
       ∧ paper_tags (link_pair pid tid s) = (paper_tags s ++ [(pid, tid)])%list).
Proof.
  unfold link_pair. destruct (existsb _ _) eqn:E.
  - naive_solver.
  - cbn. repeat split; try done; [|by right].
    rewrite existsb_app. cbn. unfold has_pair at 2.
    rewrite bool_decide_eq_true_2 by done. by rewrite orb_true_r.
Qed.

Lemma link_papers (pid n : string) (s : store) :
  papers (link pid n s) = papers s.
Proof.
  unfold link.
  destruct (List.find _ _); by rewrite (proj1 (link_pair_tables _ _ _)).
Qed.

Lemma link_linked (pid n : string) (s : store) : linked pid n (link pid n s).
Proof.
  unfold link, linked.
  destruct (List.find (has_name n) (tags s)) as [t|] eqn:Ef.
  - destruct (link_pair_tables pid (fst t)
                (set_tags (tags s) (next_tag_id s) s))
      as (_ & -> & _ & He & _).
    exists (fst t). cbn [set_tags tags]. rewrite Ef. split; [|done].
    f_equal. by apply find_has_name in Ef.
  - destruct (link_pair_tables pid (next_tag_id s)
                (set_tags (tags s ++ [(next_tag_id s, n)]) (next_tag_id s) s))
      as (_ & -> & _ & He & _).
    exists (next_tag_id s). cbn [set_tags tags]. split; [|done].
    rewrite find_app_r by done. cbn. unfold has_name. cbn.
    by rewrite bool_decide_eq_true_2.
Qed.

Lemma link_noop (pid n : string) (s : store) :
  linked pid n s →
  tags (link pid n s) = tags s ∧ paper_tags (link pid n s) = paper_tags s.
Proof.
  intros (tid & Hf & He). unfold link. rewrite Hf. cbn [fst].
  unfold link_pair. cbn [set_tags paper_tags]. by rewrite He.
Qed.

Lemma link_grows (pid n : string) (s : store) :
  (∃ l, tags (link pid n s) = (tags s ++ l)%list)
  ∧ (∃ l, paper_tags (link pid n s) = (paper_tags s ++ l)%list).
Proof.
  unfold link. destruct (List.find (has_name n) (tags s)) as [t|].
  - destruct (link_pair_tables pid (fst t)
                (set_tags (tags s) (next_tag_id s) s))
      as (_ & -> & _ & _ & [->| [_ ->]]); cbn.
    + split; exists []; by rewrite app_nil_r.
    + split; [exists []; by rewrite app_nil_r | by eexists].
  - destruct (link_pair_tables pid (next_tag_id s)
                (set_tags (tags s ++ [(next_tag_id s, n)]) (next_tag_id s) s))
      as (_ & -> & _ & _ & [->| [_ ->]]); cbn.
    + split; [by eexists | exists []; by rewrite app_nil_r].
    + split; by eexists.
Qed.

Lemma linked_mono (pid m : string) (s s' : store) :
  (∃ l, tags s' = (tags s ++ l)%list) →
  (∃ l, paper_tags s' = (paper_tags s ++ l)%list) →
  linked pid m s → linked pid m s'.
Proof.
  intros [l1 H1] [l2 H2] (tid & Hf & He). exists tid. rewrite H1, H2. split.
  - by apply find_app_l.
  - rewrite existsb_app, He. done.
Qed.

Lemma link_keeps_linked (pid n m : string) (s : store) :
  linked pid m s → linked pid m (link pid n s).
Proof. apply linked_mono; apply link_grows. Qed.

Lemma max_tag_id_ge (ts : list (Z * string)) (t : Z * string) :
  t ∈ ts → (fst t ≤ max_tag_id ts)%Z.
Proof.
  induction ts as [|a ts IH]; [by intros ?%not_elem_of_nil|].
  change (max_tag_id (a :: ts)) with (Z.max (fst a) (max_tag_id ts)).
  intros [->|H]%elem_of_cons; [lia|]. specialize (IH H). lia.
Qed.

Lemma next_tag_id_fresh (s : store) : next_tag_id s ∉ fst <$> tags s.
Proof.
  intros (t & Ht & Hin)%list_elem_of_fmap.
  apply max_tag_id_ge in Hin. unfold next_tag_id in Ht. lia.
Qed.

Lemma find_none_name (n : string) (ts : list (Z * string)) :
  List.find (has_name n) ts = None → n ∉ snd <$> ts.
Proof.
  intros Hf (t & -> & Hin)%list_elem_of_fmap.
  apply list_elem_of_In in Hin.
  apply (find_none _ _ Hf) in Hin. unfold has_name in Hin.
  by rewrite bool_decide_eq_true_2 in Hin.
Qed.

Lemma existsb_false_pair (pid : string) (tid : Z) (pts : list (string * Z)) :
  existsb (has_pair pid tid) pts = false → (pid, tid) ∉ pts.
Proof.
  intros He Hin. apply not_true_iff_false in He. apply He.
  apply existsb_exists. exists (pid, tid).
  split; [by apply list_elem_of_In|]. unfold has_pair.
  by rewrite bool_decide_eq_true_2.
Qed.

Lemma link_tables (pid n : string) (s : store) :
  (tags (link pid n s) = tags s
   ∨ List.find (has_name n) (tags s) = None
     ∧ tags (link pid n s) = (tags s ++ [(next_tag_id s, n)])%list)
  ∧ (paper_tags (link pid n s) = paper_tags s
     ∨ ∃ tid, existsb (has_pair pid tid) (paper_tags s) = false
              ∧ paper_tags (link pid n s)
                = (paper_tags s ++ [(pid, tid)])%list).
Proof.
  unfold link. destruct (List.find (has_name n) (tags s)) as [t|] eqn:Ef.
  - destruct (link_pair_tables pid (fst t)
                (set_tags (tags s) (next_tag_id s) s))
      as (_ & -> & _ & _ & [->|[He ->]]); cbn; split; eauto.
  - destruct (link_pair_tables pid (next_tag_id s)
                (set_tags (tags s ++ [(next_tag_id s, n)]) (next_tag_id s) s))
      as (_ & -> & _ & _ & [->|[He ->]]); cbn; split; eauto.
Qed.

Lemma link_wf (pid n : string) (s : store) :
  wf_store s → wf_store (link pid n s).
Proof.
  intros (Hids & Hnames & Hpairs).
  destruct (link_tables pid n s) as [Ht Hp]. unfold wf_store.
  assert (NoDup (paper_tags (link pid n s))) as Hp'.
  { destruct Hp as [->|(tid & He & ->)]; [done|].
    apply NoDup_app. split; [done|]. split; [|apply NoDup_singleton].
    intros x Hx ->%list_elem_of_singleton.
    by apply existsb_false_pair in He. }
  destruct Ht as [->|[Hf ->]]; [done|].
  rewrite !fmap_app. cbn. split; [|split; [|done]].
  - apply NoDup_app. split; [done|]. split; [|apply NoDup_singleton].
    intros x Hx ->%list_elem_of_singleton. by apply next_tag_id_fresh in Hx.
  - apply NoDup_app. split; [done|]. split; [|apply NoDup_singleton].
    intros x Hx ->%list_elem_of_singleton. by apply find_none_name in Hf.
Qed.

Lemma filter_unique_name (x : string) (ts : list (Z * string))
    (t : Z * string) :
  NoDup (snd <$> ts) → List.find (has_name x) ts = Some t →
  List.filter (has_name x) ts = [t].
Proof.
  induction ts as [|a ts IH]; [done|]. cbn.
  intros [Ha Hnd]%NoDup_cons. destruct (has_name x a) eqn:E.
  - intros [= <-]. f_equal.
    unfold has_name in E. apply bool_decide_eq_true in E.
    destruct (List.filter (has_name x) ts) as [|b l] eqn:Ef; [done|].
    assert (In b (List.filter (has_name x) ts)) as Hb by (rewrite Ef; by left).
    apply filter_In in Hb as [Hb Hn]. unfold has_name in Hn.
    apply bool_decide_eq_true in Hn. exfalso. apply Ha.
    apply list_elem_of_fmap. exists b. split; [congruence|].
    by apply list_elem_of_In.
  - by apply IH.
Qed.

Lemma filter_unique_pair (pid : string) (tid : Z) (pts : list (string * Z)) :
  NoDup pts → existsb (has_pair pid tid) pts = true →
  List.filter (has_pair pid tid) pts = [(pid, tid)].
Proof.
  induction pts as [|a pts IH]; [done|]. cbn.
  intros [Ha Hnd]%NoDup_cons. destruct (has_pair pid tid a) eqn:E.
  - intros _. unfold has_pair in E. apply bool_decide_eq_true in E as ->.
    f_equal.
    destruct (List.filter (has_pair pid tid) pts) as [|b l] eqn:Ef; [done|].
    assert (In b (List.filter (has_pair pid tid) pts)) as Hb
      by (rewrite Ef; by left).
    apply filter_In in Hb as [Hb Hn]. unfold has_pair in Hn.
    apply bool_decide_eq_true in Hn as ->. exfalso. apply Ha.
    by apply list_elem_of_In.
  - cbn. by apply IH.
Qed.

Lemma link_all_wf (pid : string) (names : list string) (s : store) :
  wf_store s → wf_store (link_all pid names s).
Proof.
  revert s. induction names as [|n names IH]; intros s Hs; [done|].
  apply IH. by apply link_wf.
Qed.

Lemma link_all_papers (pid : string) (names : list string) (s : store) :
  papers (link_all pid names s) = papers s.
Proof.
  revert s. induction names as [|n names IH]; intros s; [done|].
  cbn. unfold link_all in IH. by rewrite IH, link_papers.
Qed.

Lemma link_all_keeps_linked (pid m : string) (names : list string) (s : store) :
  linked pid m s → linked pid m (link_all pid names s).
Proof.
  revert s. induction names as [|n names IH]; intros s Hs; [done|].
  apply IH. by apply link_keeps_linked.
Qed.

Lemma link_all_linked (pid x : string) (names : list string) (s : store) :
  x ∈ names → linked pid x (link_all pid names s).
Proof.
  revert s. induction names as [|n names IH]; intros s;
    [by intros ?%not_elem_of_nil|].
  change (link_all pid (n :: names) s)
    with (link_all pid names (link pid n s)).
  intros [->|Hx]%elem_of_cons.
  - apply link_all_keeps_linked, link_linked.
  - by apply IH.
Qed.

Lemma linked_same_tables (pid x : string) (s s' : store) :
  tags s' = tags s → paper_tags s' = paper_tags s →
  linked pid x s → linked pid x s'.
Proof. unfold linked. by intros -> ->. Qed.

Lemma link_all_noop (pid : string) (names : list string) (s : store) :
  (∀ x, x ∈ names → linked pid x s) →
  tags (link_all pid names s) = tags s
  ∧ paper_tags (link_all pid names s) = paper_tags s.
Proof.
  revert s. induction names as [|n names IH]; intros s Hall; [done|].
  cbn. destruct (link_noop pid n s) as [Ht Hp]; [apply Hall; left|].
  destruct (IH (link pid n s)) as [Ht' Hp'].
  - intros x Hx. apply (linked_same_tables pid x s); [done..|].
    apply Hall. by right.
  - unfold link_all in *. by rewrite Ht', Hp'.
Qed.

Lemma add_tags_names_run (pid : string) (names : list string) (w : world) :
  add_tags pid (PStr <$> names) w =
    (Ret tt, released w (link_all pid names (db w))).
Proof. by rewrite add_tags_run, batch_names. Qed.

Lemma add_tags_again (pid : string) (names : list string) (w1 : world)
    (k : nat) :
  (∀ x, x ∈ names → linked pid x (db w1)) →
  let wk := Nat.iter k (fun w => (add_tags pid (PStr <$> names) w).2) w1 in
  tags (db wk) = tags (db w1)
  ∧ paper_tags (db wk) = paper_tags (db w1)
  ∧ papers (db wk) = papers (db w1).
Proof.
  intros Hall. induction k as [|k IH]; [done|].
  cbn zeta in *. rewrite Nat.iter_succ, add_tags_names_run.
  cbn [snd released db]. destruct IH as (IH1 & IH2 & IH3).
  rewrite link_all_papers.
  destruct (link_all_noop pid names
              (db (Nat.iter k
                     (fun w => (add_tags pid (PStr <$> names) w).2) w1)))
    as [Ht Hp].
  - intros y Hy.
    apply (linked_same_tables pid y (db w1)); [done..|]. by apply Hall.
  - by rewrite Ht, Hp.
Qed.

(** The counter of [tags] is not a row of the tables: it advances on
    every call, also when the tag is already there. *)
Example counter_advances :
  let w1 := (add_tags "p1" [PStr "x"; PStr "x"] Sample.world1).2 in
  let w2 := (add_tags "p1" [PStr "x"; PStr "x"] w1).2 in
  tags (db w2) = [(1%Z, "x")] ∧ paper_tags (db w2) = [("p1", 1%Z)]
  ∧ tags_seq (db w1) = 2%Z ∧ tags_seq (db w2) = 4%Z.
Proof. vm_compute. done. Qed.

(** C5.  Tag idempotence: on a store that meets the uniqueness constraints
    of the schema, after [add_tags(pid, names)] with [x] among the names
    (once or several times) there is exactly one row of [tags] named [x]
    and exactly one row of [paper_tags] pairing [pid] with its id; calling
    again, any number of times, changes no row of any table. *)
Theorem tag_idempotence (pid x : string) (names : list string) (w : world)
    (k : nat) :
  wf_store (db w) →
  x ∈ names →
  let call := fun w => (add_tags pid (PStr <$> names) w).2 in
  let w1 := call w in
  let wk := Nat.iter k call w1 in
  (add_tags pid (PStr <$> names) w).1 = Ret tt
  ∧ (∃ tid,
       List.filter (has_name x) (tags (db w1)) = [(tid, x)]
       ∧ List.filter (has_pair pid tid) (paper_tags (db w1)) = [(pid, tid)])
  ∧ tags (db wk) = tags (db w1)
  ∧ paper_tags (db wk) = paper_tags (db w1)
  ∧ papers (db wk) = papers (db w).
Proof.
  intros Hwf Hx call w1 wk.
  assert (w1 = released w (link_all pid names (db w))) as Hw1
    by (subst w1 call; cbn beta; by rewrite add_tags_names_run).
  split; [by rewrite add_tags_names_run|]. split.
  - rewrite Hw1. cbn [released db].
    destruct (link_all_linked pid x names (db w) Hx) as (tid & Hf & He).
    destruct (link_all_wf pid names (db w) Hwf) as (_ & Hn & Hp).
    exists tid. split.
    + by apply filter_unique_name.
    + by apply filter_unique_pair.
  - destruct (add_tags_again pid names w1 k) as (H1 & H2 & H3).
    + intros y Hy. rewrite Hw1. cbn [released db]. by apply link_all_linked.
    + subst wk call. rewrite H1, H2, H3. repeat split; try done.
      rewrite Hw1. cbn [released db]. apply link_all_papers.
Qed.

Lemma tag_idempotence_witness :
  let call := fun w => (add_tags "p1" (PStr <$> ["x"; "x"]) w).2 in
  let w1 := call Sample.world1 in
  let wk := Nat.iter 1 call w1 in
  (add_tags "p1" (PStr <$> ["x"; "x"]) Sample.world1).1 = Ret tt
  ∧ (∃ tid,
       List.filter (has_name "x") (tags (db w1)) = [(tid, "x")]
       ∧ List.filter (has_pair "p1" tid) (paper_tags (db w1))
         = [("p1", tid)])
  ∧ tags (db wk) = tags (db w1)
  ∧ paper_tags (db wk) = paper_tags (db w1)
  ∧ papers (db wk) = papers (db Sample.world1).
Proof.
  apply (tag_idempotence "p1" "x" ["x"; "x"] Sample.world1 1).
  - vm_compute. repeat split; constructor.
  - vm_compute. constructor.
Defined.

(** The schema constraints hold on the empty database and every
    operation that writes the tag tables keeps them. *)
Lemma wf_store_empty : wf_store empty_store.
Proof. repeat split; constructor. Qed.

Lemma add_tags_wf (pid : string) (names : list string) (w : world) :
  wf_store (db w) → wf_store (db (add_tags pid (PStr <$> names) w).2).
Proof. rewrite add_tags_names_run. apply link_all_wf. Qed.

(** A tag that is [None] is skipped by the INSERT, the lookup comes back
    empty and the subscript raises: TypeError is not an sqlite3.Error and
    reaches the caller.  The rows are as before. *)
Example add_tags_none :
  add_tags "p1" [PStr "x"; PNone] Sample.world1
  = (Raise TypeError, released Sample.world1 (db Sample.world1)).
Proof. vm_compute. reflexivity. Qed.

(** C6.  [add_tags] is all or nothing and silent: when a turn of the loop
    fails, the committed rows are those from before the call, whatever
    the earlier turns wrote; when no turn fails, the rows are those the
    loop produced; no exception reaches the caller when no tag is [None];
    the connection is released. *)
Theorem add_tags_atomic_and_silent (pid : string) (tags : list pyval)
    (w : world) :
  (∀ e, batch pid tags (db w) = Raise e →
        db (add_tags pid tags w).2 = db w)
  ∧ (∀ s', batch pid tags (db w) = Ret s' →
           db (add_tags pid tags w).2 = s')
  ∧ (Forall (fun t => t ≠ PNone) tags → (add_tags pid tags w).1 = Ret tt)
  ∧ open_conns (add_tags pid tags w).2 = open_conns w.
Proof.
  rewrite add_tags_run. split; [|split; [|split]].
  - intros e ->. by destruct e.
  - by intros s' ->.
  - intros H.
    destruct (batch_no_type_error pid tags (db w) H) as [[s' ->]|[e ->]];
      done.
  - by destruct (batch pid tags (db w)) as [|[]].
Qed.

(** The same, read off what the caller can see: if [add_tags] raised, or
    printed an error, the committed rows are those from before. *)
Lemma add_tags_failure_observed (pid : string) (tags : list pyval)
    (w : world) :
  (add_tags pid tags w).1 ≠ Ret tt
  ∨ stdout (add_tags pid tags w).2 ≠ stdout w →
  db (add_tags pid tags w).2 = db w.
Proof.
  rewrite add_tags_run.
  destruct (batch pid tags (db w)) as [s'|[e| |]]; cbn; try done.
  by intros [H|H].
Qed.

Lemma add_tags_atomic_and_silent_witness :
  db (add_tags "p1" [PStr "x"; PList ["y"]] Sample.world1).2
    = db Sample.world1
  ∧ (add_tags "p1" [PStr "x"; PList ["y"]] Sample.world1).1 = Ret tt.
Proof.
  destruct (add_tags_atomic_and_silent "p1" [PStr "x"; PList ["y"]]
              Sample.world1) as (Hfail & _ & Hsilent & _).
  split.
  - apply (Hfail (SqliteError (BindingError 1))). vm_compute. reflexivity.
  - apply Hsilent. repeat constructor; discriminate.
Defined.

End Tags.

(** ** Running [update_paper] *)

Section Update.
Import Sql Py DBManager Obs.

Lemma collect_cons (field : string) (value : pyval)
    (items : list (string * pyval)) :
  collect ((field, value) :: items) =
    if bool_decide (field ∈ valid_fields) then
      v ← (if bool_decide (field ≠ "authors") then mret value
           else joined ← join_value value; mret (PStr joined));
      rest ← collect items;
      mret (field :: rest.1, v :: rest.2)
    else collect items.
Proof. reflexivity. Qed.

Lemma collect_pure (items : list (string * pyval)) (w : world) :
  collect items w = (collect_value items, w).
Proof.
  unfold collect_value. revert w.
  induction items as [|[field value] items IH]; intros w; [done|].
  rewrite !collect_cons.
  destruct (bool_decide (field ∈ valid_fields)); [|apply IH].
  unfold mbind, py_bind, join_value, raise, mret, py_ret.
  destruct (bool_decide (field ≠ "authors")).
  - cbv beta iota. rewrite (IH w), (IH initial_world).
    by destruct ((collect items initial_world).1).
  - destruct value; try reflexivity; cbv beta iota;
      rewrite (IH w), (IH initial_world);
      by destruct ((collect items initial_world).1).
Qed.

Lemma collect_value_cons (field : string) (value : pyval)
    (items : list (string * pyval)) :
  collect_value ((field, value) :: items) =
    if bool_decide (field ∈ valid_fields) then
      match bound_value field value with
      | None => Raise TypeError
      | Some v =>
          match collect_value items with
          | Ret rest => Ret (field :: rest.1, v :: rest.2)
          | Raise e => Raise e
          end
      end
    else collect_value items.
Proof.
  unfold collect_value at 1. rewrite collect_cons.
  destruct (bool_decide (field ∈ valid_fields)); [|done].
  unfold bound_value, mbind, py_bind, join_value, raise, mret, py_ret.
  destruct (bool_decide (field ≠ "authors")).
  - cbv beta iota. rewrite collect_pure. by destruct (collect_value items).
  - destruct value; try reflexivity; cbv beta iota; rewrite collect_pure;
      by destruct (collect_value items).
Qed.

Lemma update_paper_run (pid : string) (updates : list (string * pyval))
    (w : world) :
  update_paper pid updates w =
    match collect_value updates with
    | Raise e => (Raise e, w)
    | Ret ([], _) => (Ret false, w)
    | Ret (f :: fs, vs) =>
        match update_papers (f :: fs) vs pid (db w) with
        | Ok s' => (Ret true, released w s')
        | Err e => (Ret false, released_log w (ErrorUpdatingPaper e))
        end
    end.
Proof.
  unfold update_paper, mbind at 1, py_bind at 1. rewrite collect_pure.
  destruct (collect_value updates) as [[[|f fs] vs]|e]; try done.
  cbn [fst snd].
  unfold try_finally, try_except, mbind, py_bind, connect, execute_write.
  cbn [view txn db].
  destruct (update_papers (f :: fs) vs pid (db w)); done.
Qed.

Lemma collect_value_fields (items : list (string * pyval))
    (fs : list string) (vs : list pyval) :
  collect_value items = Ret (fs, vs) →
  fs = List.filter (fun k => bool_decide (k ∈ valid_fields)) (items.*1)
  ∧ Forall2 (fun kv fv => kv.1 = fv.1 ∧ bound_value kv.1 kv.2 = Some fv.2)
      (List.filter (fun kv => bool_decide (kv.1 ∈ valid_fields)) items)
      (zip fs vs)
  ∧ length vs = length fs.
Proof.
  revert fs vs. induction items as [|[field value] items IH]; intros fs vs.
  - intros [= <- <-]. by repeat split; try constructor.
  - rewrite collect_value_cons. cbn [fmap list_fmap List.filter fst].
    destruct (bool_decide (field ∈ valid_fields)); [|apply IH].
    destruct (bound_value field value) as [v|] eqn:Ev; [|done].
    destruct (collect_value items) as [[fs' vs']|]; [|done].
    intros [= <- <-]. destruct (IH fs' vs' eq_refl) as (-> & HF & Hl).
    cbn. repeat split; try done; [|by rewrite Hl].
    by constructor.
Qed.

Lemma resolve_name (f : string) (c : column) :
  resolve f = Ok c → f = column_name c.
Proof.
  unfold resolve. cbn [columns assoc].
  repeat (lazymatch goal with
          | |- context [String.eqb ?a f] =>
              destruct (String.eqb_spec a f) as [<-|_];
              [by intros [= <-]|]
          end).
  done.
Qed.

Lemma resolve_column_name (c : column) : resolve (column_name c) = Ok c.
Proof. by destruct c. Qed.

Lemma set_column_frame (c c' : column) (b : bound) (r r' : paper_row) :
  set_column c b r = Ok r' → c' ≠ c →
  get_column c' r' = get_column c' r.
Proof.
  unfold set_column, mbind, res_bind, not_null.
  destruct c; cbn;
    (destruct (text_affinity b); [|try done]);
    intros [= <-] Hne; destruct c'; done.
Qed.

Lemma set_column_written (c : column) (b : bound) (r r' : paper_row) :
  set_column c b r = Ok r' → get_column c r' = cell_of c b.
Proof.
  unfold set_column, mbind, res_bind, not_null, cell_of.
  destruct c; cbn;
    (destruct (text_affinity b); [|try done]);
    by intros [= <-].
Qed.

Lemma assign_frame (sets : list (column * bound)) (c' : column)
    (r r' : paper_row) :
  assign sets r = Ok r' → c' ∉ sets.*1 →
  get_column c' r' = get_column c' r.
Proof.
  revert r. induction sets as [|[c b] sets IH]; intros r.
  - by intros [= <-].
  - cbn [assign fmap list_fmap fst]. unfold mbind, res_bind.
    destruct (set_column c b r) as [r1|] eqn:E; [|done].
    intros H [Hc Hin]%not_elem_of_cons.
    rewrite (IH r1 H Hin). by apply (set_column_frame c c' b).
Qed.

Lemma update_rows_frame (pid : string) (sets : list (column * bound))
    (ps ps' : list paper_row) :
  update_rows pid sets ps = Ok ps' →
  Forall2 (fun r r' =>
             (r_id r ≠ Some pid → r' = r)
             ∧ (r_id r = Some pid → assign sets r = Ok r'))
    ps ps'.
Proof.
  revert ps'. induction ps as [|r ps IH]; intros ps'.
  - intros [= <-]. constructor.
  - cbn [update_rows]. unfold mbind, res_bind, has_id.
    destruct (bool_decide_reflect (r_id r = Some pid)) as [Hid|Hid].
    + destruct (assign sets r) as [r1|] eqn:E; [|done].
      destruct (update_rows pid sets ps) as [rest|]; [|done].
      intros [= <-]. constructor; [|by apply IH]. naive_solver.
    + destruct (update_rows pid sets ps) as [rest|]; [|done].
      intros [= <-]. constructor; [|by apply IH]. naive_solver.
Qed.

Lemma mapM_resolve (fs : list string) (cols : list column) :
  mapM resolve fs = Ok cols → Forall2 (fun f c => resolve f = Ok c) fs cols.
Proof.
  revert cols. induction fs as [|f fs IH]; intros cols.
  - intros [= <-]. constructor.
  - cbn [mapM]. unfold mbind, res_bind, mret, res_ret.
    destruct (resolve f) as [c|] eqn:E; [|done].
    fold (mapM resolve fs). destruct (mapM resolve fs) as [cs|]; [|done].
    intros [= <-]. constructor; [exact E|exact (IH cs eq_refl)].
Qed.

Lemma update_papers_inv (fs : list string) (vs : list pyval) (pid : string)
    (s s' : store) :
  update_papers fs vs pid s = Ok s' →
  ∃ cols bs rows,
    mapM resolve fs = Ok cols
    ∧ bind_all 1 (vs ++ [PStr pid]) = Ok bs
    ∧ length bs = S (length cols)
    ∧ update_rows pid (zip cols bs) (papers s) = Ok rows
    ∧ s' = set_papers rows s.
Proof.
  unfold update_papers, mbind, res_bind.
  destruct (mapM resolve fs) as [cols|] eqn:E1; [|done].
  destruct (bind_all 1 (vs ++ [PStr pid])) as [bs|] eqn:E2; [|done].
  destruct (bool_decide_reflect (length bs = S (length cols))); [|done].
  destruct (update_rows pid (zip cols bs) (papers s)) as [rows|] eqn:E3;
    [|done].
  destruct (_ && _); [done|]. intros [= <-]. by eexists _, _, _.
Qed.

Lemma cols_names (fs : list string) (cols : list column) (c : column) :
  Forall2 (fun f c => resolve f = Ok c) fs cols →
  c ∈ cols → column_name c ∈ fs.
Proof.
  induction 1 as [|f c0 fs cols Hr _ IH]; [by intros ?%not_elem_of_nil|].
  intros [->|Hin]%elem_of_cons.
  - apply resolve_name in Hr as ->. by left.
  - right. by apply IH.
Qed.

Lemma zip_fst_subset {A B} (l : list A) (k : list B) (x : A) :
  x ∈ (zip l k).*1 → x ∈ l.
Proof.
  revert k. induction l as [|a l IH]; intros [|b k]; cbn;
    try by intros ?%not_elem_of_nil.
  intros [->|H]%elem_of_cons; [by left|right; by apply (IH k)].
Qed.

Lemma row_frame_refl (pid : string) (written : string → Prop)
    (ps : list paper_row) :
  Forall2 (row_frame pid written) ps ps.
Proof. induction ps; constructor; [by split|done]. Qed.

Lemma update_papers_frame (fs : list string) (vs : list pyval)
    (pid : string) (s s' : store) :
  update_papers fs vs pid s = Ok s' →
  tags s' = tags s ∧ tags_seq s' = tags_seq s
  ∧ paper_tags s' = paper_tags s
  ∧ Forall2 (row_frame pid (fun name => name ∈ fs)) (papers s) (papers s').
Proof.
  intros (cols & bs & rows & Hc & Hb & Hl & Hr & ->)%update_papers_inv.
  repeat split; try done. cbn [set_papers papers].
  apply mapM_resolve in Hc. apply update_rows_frame in Hr.
  eapply Forall2_impl; [exact Hr|].
  intros r r' [Hother Hsame]. split; [done|]. intros c Hc'.
  destruct (decide (r_id r = Some pid)) as [Hid|Hid].
  - apply (assign_frame (zip cols bs)); [by apply Hsame|].
    intros Hin%zip_fst_subset. apply Hc'. by apply (cols_names fs cols).
  - by rewrite (Hother Hid).
Qed.

Lemma collect_value_none (items : list (string * pyval)) :
  (∀ k, k ∈ items.*1 → k ∉ valid_fields) →
  collect_value items = Ret ([], []).
Proof.
  induction items as [|[k v] items IH]; [done|]. intros H.
  rewrite collect_value_cons. rewrite bool_decide_eq_false_2.
  - apply IH. intros k' Hk'. apply H. by right.
  - apply H. by left.
Qed.

Lemma filter_subset (items : list (string * pyval)) (k : string) :
  k ∈ List.filter (fun k => bool_decide (k ∈ valid_fields)) (items.*1) →
  k ∈ valid_fields ∧ k ∈ items.*1.
Proof.
  intros [H1 H2]%list_elem_of_In%filter_In.
  apply bool_decide_eq_true in H2. by apply list_elem_of_In in H1.
Qed.

Lemma bind_all_inv (i : nat) (vs : list pyval) (bs : list bound) :
  bind_all i vs = Ok bs → Forall2 (fun v b => bind v = Some b) vs bs.
Proof.
  revert i bs. induction vs as [|v vs IH]; intros i bs.
  - intros [= <-]. constructor.
  - cbn [bind_all]. destruct (bind v) as [b|] eqn:E; [|done].
    unfold mbind, res_bind. destruct (bind_all (S i) vs) as [bs'|] eqn:E';
      [|done].
    intros [= <-]. constructor; [exact E|exact (IH _ _ E')].
Qed.

Lemma zip_app_extra {A B} (l : list A) (k k' : list B) :
  length l = length k → zip l (k ++ k') = zip l k.
Proof.
  revert k. induction l as [|a l IH]; intros [|b k]; cbn; try done.
  intros [= H]. by rewrite IH.
Qed.

Lemma assign_written (sets : list (column * bound)) (c : column)
    (b : bound) (r r' : paper_row) :
  NoDup (sets.*1) → (c, b) ∈ sets → assign sets r = Ok r' →
  get_column c r' = cell_of c b.
Proof.
  revert r. induction sets as [|[c0 b0] sets IH]; intros r;
    [by intros _ ?%not_elem_of_nil|].
  cbn [fmap list_fmap fst assign]. intros [Hc0 Hnd]%NoDup_cons Hin.
  unfold mbind, res_bind.
  destruct (set_column c0 b0 r) as [r1|] eqn:E; [|done]. intros Ha.
  apply elem_of_cons in Hin as [[= -> ->]|Hin].
  - rewrite (assign_frame sets c0 r1 r' Ha Hc0).
    by apply (set_column_written c0 b0 r).
  - by apply (IH r1).
Qed.

Lemma sets_of_items (items : list (string * pyval)) (fs : list string)
    (vs : list pyval) (cols : list column) (bvs : list bound) :
  Forall2 (fun kv fv => kv.1 = fv.1 ∧ bound_value kv.1 kv.2 = Some fv.2)
    items (zip fs vs) →
  length vs = length fs →
  Forall2 (fun f c => resolve f = Ok c) fs cols →
  Forall2 (fun v b => bind v = Some b) vs bvs →
  Forall2 entry_set items (zip cols bvs).
Proof.
  revert fs vs cols bvs.
  induction items as [|[k v] items IH]; intros fs vs cols bvs H Hl Hc Hb.
  - destruct fs, vs; try done; inversion Hc; inversion Hb; subst;
      try constructor. inversion H.
  - destruct fs as [|f fs], vs as [|v0 vs]; try done; [inversion H|].
    inversion H as [|? ? ? ? [Hk Hv] HF]; subst.
    inversion Hc as [|? c ? cols' Hr Hc']; subst.
    inversion Hb as [|? b ? bvs' Hbv Hb']; subst.
    cbn in *. constructor.
    + split; [by subst|]. by exists v0.
    + apply (IH fs vs); try done. by injection Hl.
Qed.

Lemma entry_sets_NoDup (items : list (string * pyval))
    (sets : list (column * bound)) :
  Forall2 entry_set items sets → NoDup (items.*1) → NoDup (sets.*1).
Proof.
  induction 1 as [|[k v] [c b] items sets [Hr _] HF IH]; [constructor|].
  cbn [fmap list_fmap fst]. intros [Hk Hnd]%NoDup_cons.
  apply NoDup_cons. split; [|by apply IH].
  intros (cb & -> & Hin)%list_elem_of_fmap. apply Hk.
  apply list_elem_of_lookup in Hin as [i Hi].
  destruct (Forall2_lookup_r _ _ _ _ _ HF Hi) as ([k' v'] & Hi' & [Hr' _]).
  cbn in *. apply resolve_name in Hr, Hr'. subst.
  apply list_elem_of_fmap. exists (column_name cb.1, v'). split; [done|].
  by apply list_elem_of_lookup_2 in Hi'.
Qed.

Lemma filter_valid_NoDup (items : list (string * pyval)) :
  NoDup (items.*1) →
  NoDup
    ((List.filter (fun kv => bool_decide (kv.1 ∈ valid_fields)) items).*1).
Proof.
  induction items as [|[k v] items IH]; [done|].
  cbn [fmap list_fmap fst List.filter]. intros [Hk Hnd]%NoDup_cons.
  destruct (bool_decide (k ∈ valid_fields)); [|by apply IH].
  cbn [fmap list_fmap fst]. apply NoDup_cons. split; [|by apply IH].
  intros (kv & -> & Hin)%list_elem_of_fmap. apply Hk.
  apply list_elem_of_In, filter_In in Hin as [Hin _].
  apply list_elem_of_fmap. exists kv. split; [done|].
  by apply list_elem_of_In.
Qed.

(** What a successful [update_paper] wrote into the rows with the id. *)
Lemma update_paper_writes (pid : string) (updates : list (string * pyval))
    (w w' : world) :
  NoDup (updates.*1) →
  update_paper pid updates w = (Ret true, w') →
  Forall2 (row_written pid updates) (papers (db w)) (papers (db w')).
Proof.
  intros Hnd. rewrite update_paper_run.
  destruct (collect_value updates) as [[[|f fs] vs]|e] eqn:Ec; try done.
  destruct (update_papers (f :: fs) vs pid (db w)) as [s'|] eqn:Eu; [|done].
  intros [= <-]. cbn [released db].
  apply update_papers_inv in Eu
    as (cols & bs & rows & Hc & Hb & Hl & Hr & ->).
  cbn [set_papers papers].
  apply collect_value_fields in Ec as (_ & Hitems & Hlen).
  apply mapM_resolve in Hc. apply bind_all_inv in Hb.
  apply Forall2_app_inv_l in Hb as (bvs & blast & Hbvs & _ & ->).
  assert (length cols = length bvs) as Hlc.
  { rewrite <- (Forall2_length _ _ _ Hc), <- (Forall2_length _ _ _ Hbvs).
    done. }
  rewrite zip_app_extra in Hr by done.
  pose proof (sets_of_items _ _ _ _ _ Hitems Hlen Hc Hbvs) as Hsets.
  pose proof (entry_sets_NoDup _ _ Hsets (filter_valid_NoDup _ Hnd))
    as Hnd'.
  apply update_rows_frame in Hr.
  eapply Forall2_impl; [exact Hr|].
  intros r r' [_ Hassign] Hid k v Hin Hk. specialize (Hassign Hid).
  assert ((k, v) ∈ List.filter
            (fun kv => bool_decide (kv.1 ∈ valid_fields)) updates) as Hin'.
  { apply list_elem_of_In, filter_In. split; [by apply list_elem_of_In|].
    by apply bool_decide_eq_true. }
  apply list_elem_of_lookup in Hin' as [i Hi].
  destruct (Forall2_lookup_l _ _ _ _ _ Hsets Hi)
    as ([c b] & Hi' & Hr' & v' & Hv' & Hb').
  exists c, v', b. repeat split; try done.
  apply (assign_written (zip cols bvs) c b r); try done.
  by apply list_elem_of_lookup_2 in Hi'.
Qed.

(** The spec's example: an unknown field is dropped without an error and
    only [title] changes. *)
Example update_title_only :
  let r := update_paper "p1"
             [("title", PStr "New"); ("hacker_field", PStr "x")]
             Sample.world1 in
  r.1 = Ret true
  ∧ (r_title <$> papers (db r.2)) = ["New"]
  ∧ (r_authors <$> papers (db r.2)) = ["A,B"]
  ∧ (r_source <$> papers (db r.2)) = ["arxiv"].
Proof. vm_compute. done. Qed.

(** An id that is not stored is not an error: the UPDATE matches no row
    and the operation reports success. *)
Example update_unknown_id :
  update_paper "nope" [("title", PNone)] Sample.world1
  = (Ret true, Obs.released Sample.world1 (db Sample.world1)).
Proof. vm_compute. reflexivity. Qed.

(** C4.  Allow-list: [update_paper] leaves every row of another paper as
    it is and, in the rows of the paper, every column whose name is not
    both on the allow-list and a key of [updates]; the tag tables are
    untouched.  When no key of [updates] is on the allow-list it returns
    [False] and the world is the one before the call.  When it returns
    [True], every allow-listed entry of [updates] is in its column. *)
Theorem update_allow_list (pid : string) (updates : list (string * pyval))
    (w : world) :
  let w' := (update_paper pid updates w).2 in
  Forall2
    (row_frame pid
       (fun name => name ∈ valid_fields ∧ name ∈ updates.*1))
    (papers (db w)) (papers (db w'))
  ∧ tags (db w') = tags (db w)
  ∧ paper_tags (db w') = paper_tags (db w)
  ∧ ((∀ k, k ∈ updates.*1 → k ∉ valid_fields) →
     update_paper pid updates w = (Ret false, w))
  ∧ (NoDup (updates.*1) → (update_paper pid updates w).1 = Ret true →
     Forall2 (row_written pid updates) (papers (db w)) (papers (db w'))).
Proof.
  cbn zeta. split; [|split; [|split; [|split]]].
  5:{ intros Hnd Ht. apply update_paper_writes; [done|].
      by destruct (update_paper pid updates w) as [o w'']; cbn in *; subst. }
  all: rewrite update_paper_run.
  all: destruct (collect_value updates) as [[fs vs]|e] eqn:Ec.
  - destruct fs as [|f fs]; [apply row_frame_refl|].
    destruct (update_papers (f :: fs) vs pid (db w)) as [s'|] eqn:Eu;
      [|apply row_frame_refl].
    apply update_papers_frame in Eu as (_ & _ & _ & HF).
    eapply Forall2_impl; [exact HF|].
    intros r r' [H1 H2]. split; [done|]. intros c Hc. apply H2.
    intros Hin. apply Hc.
    apply collect_value_fields in Ec as (Hfs & _). rewrite Hfs in Hin.
    by apply filter_subset in Hin.
  - apply row_frame_refl.
  - destruct fs as [|f fs]; [done|].
    destruct (update_papers (f :: fs) vs pid (db w)) as [s'|] eqn:Eu;
      [|done].
    by apply update_papers_frame in Eu as (? & _ & _ & _).
  - done.
  - destruct fs as [|f fs]; [done|].
    destruct (update_papers (f :: fs) vs pid (db w)) as [s'|] eqn:Eu;
      [|done].
    by apply update_papers_frame in Eu as (_ & _ & ? & _).
  - done.
  - intros Hnone. rewrite (collect_value_none _ Hnone) in Ec.
    by simplify_eq.
  - intros Hnone. rewrite (collect_value_none _ Hnone) in Ec. done.
Qed.

Lemma update_allow_list_witness :
  update_paper "p1" [("bogus", PBool true)] Sample.world1
    = (Ret false, Sample.world1)
  ∧ Forall2
      (row_written "p1" [("title", PStr "New"); ("hacker_field", PStr "x")])
      (papers (db Sample.world1))
      (papers (db (update_paper "p1"
                     [("title", PStr "New"); ("hacker_field", PStr "x")]
                     Sample.world1).2)).
Proof.
  split.
  - apply (update_allow_list "p1" [("bogus", PBool true)] Sample.world1).
    intros k ->%list_elem_of_singleton. vm_compute. intros H. discriminate H.
  - apply (update_allow_list "p1"
             [("title", PStr "New"); ("hacker_field", PStr "x")]
             Sample.world1).
    + repeat constructor; [|by intros ?%not_elem_of_nil].
      intros ?%list_elem_of_singleton. discriminate.
    + vm_compute. reflexivity.
Defined.

End Update.

(** ** Connections, and what each operation may write *)

Section Resources.
Import Sql Py DBManager Obs.

Lemma add_paper_conns (paper : gmap string pyval) (now : string)
    (w : world) :
  open_conns (add_paper paper now w).2 = open_conns w.
Proof.
  rewrite add_paper_run.
  destruct (tuple_value paper now) as [params|[]]; try done.
  by destruct (insert_paper params (db w)).
Qed.

(** [search_papers] has no [finally]: it closes its connection when it
    returns, and leaves it open when the loop raises. *)
Lemma search_papers_conns (query : string) (source from_date : option string)
    (w : world) :
  open_conns (search_papers query source from_date w).2
  = match (search_papers query source from_date w).1 with
    | Ret _ => open_conns w
    | Raise _ => S (open_conns w)
    end.
Proof.
  rewrite search_papers_run.
  by destruct (hits query source from_date (db w)) as [|r [|r' rows]].
Qed.

Lemma add_tags_conns (pid : string) (tags : list pyval) (w : world) :
  open_conns (add_tags pid tags w).2 = open_conns w.
Proof.
  rewrite add_tags_run. by destruct (batch pid tags (db w)) as [|[]].
Qed.

Lemma update_paper_conns (pid : string) (updates : list (string * pyval))
    (w : world) :
  open_conns (update_paper pid updates w).2 = open_conns w.
Proof.
  rewrite update_paper_run.
  destruct (collect_value updates) as [[[|f fs] vs]|]; try done.
  by destruct (update_papers (f :: fs) vs pid (db w)).
Qed.

(** C7.  Connection scoping fails for [get_paper]: it opens a connection
    and has no [close()] on either path, so every call leaves one more
    connection open than it found, whether the paper exists or not. *)
Theorem get_paper_leaves_connection_open (pid : string) (w : world) :
  open_conns (get_paper pid w).2 = S (open_conns w).
Proof. by rewrite get_paper_run. Qed.

Example get_paper_found_leaks :
  (get_paper "p1" Sample.world1).1 ≠ Ret None
  ∧ open_conns Sample.world1 = 0
  ∧ open_conns (get_paper "p1" Sample.world1).2 = 1.
Proof. vm_compute. done. Qed.

Example get_paper_absent_leaks :
  (get_paper "nope" Sample.world1).1 = Ret None
  ∧ open_conns (get_paper "nope" Sample.world1).2 = 1.
Proof. vm_compute. done. Qed.

(** [search_papers] leaks as well, on the path where it raises. *)
Example search_papers_raise_leaks :
  (search_papers "" None None Sample.world12).1 = Raise (KeyError "authors")
  ∧ open_conns Sample.world12 = 0
  ∧ open_conns (search_papers "" None None Sample.world12).2 = 1.
Proof. vm_compute. done. Qed.

(** The three operations with a [finally] release what they open on
    every path; [search_papers] does so on the path where it returns. *)
Lemma other_operations_release (w : world) :
  (∀ paper now, open_conns (add_paper paper now w).2 = open_conns w)
  ∧ (∀ pid tags, open_conns (add_tags pid tags w).2 = open_conns w)
  ∧ (∀ pid updates,
       open_conns (update_paper pid updates w).2 = open_conns w)
  ∧ (∀ query source from_date found w1,
       search_papers query source from_date w = (Ret found, w1) →
       open_conns w1 = open_conns w).
Proof.
  repeat split; intros.
  - apply add_paper_conns.
  - apply add_tags_conns.
  - apply update_paper_conns.
  - by apply search_papers_ret in H as (_ & _ & ->).
Qed.

Lemma tag_step_papers (pid : string) (tag : pyval) (s s' : store) :
  tag_step pid tag s = Ret s' → papers s' = papers s.
Proof.
  destruct tag as [|b|n|l]; try done.
  - rewrite (tag_step_named pid (PBool b) (pretty (if b then 1 else 0)%Z))
      by done.
    intros [= <-]. apply link_papers.
  - rewrite (tag_step_named pid (PStr n) n) by done.
    intros [= <-]. apply link_papers.
Qed.

Lemma batch_papers (pid : string) (tags : list pyval) (s s' : store) :
  batch pid tags s = Ret s' → papers s' = papers s.
Proof.
  revert s. induction tags as [|tag tags IH]; intros s.
  - by intros [= <-].
  - cbn [batch]. destruct (tag_step pid tag s) as [s1|] eqn:E; [|done].
    intros H. rewrite (IH _ H). by apply (tag_step_papers pid tag).
Qed.

Lemma add_tags_papers (pid : string) (tags : list pyval) (w : world) :
  papers (db (add_tags pid tags w).2) = papers (db w).
Proof.
  rewrite add_tags_run. destruct (batch pid tags (db w)) as [s'|[]] eqn:E;
    try done.
  by apply (batch_papers pid tags).
Qed.

(** [update_paper] is the operation that can set it. *)
Example update_sets_error_log :
  let r := update_paper "p1" [("error_log", PStr "timeout")] Sample.world1 in
  r.1 = Ret true
  ∧ (r_error_log <$> papers (db r.2)) = [Some "timeout"].
Proof. vm_compute. done. Qed.

(** C9.  [error_log] is not set at insert: a successful [add_paper]
    appends one row whose [error_log] is NULL, whatever the record says
    under "error_log"; a failed one, [get_paper], [search_papers] and
    [add_tags] leave the rows of [papers] as they are.  Of the five
    operations only [update_paper] can make an [error_log] non-null. *)
Theorem error_log_not_set_at_insert (paper : gmap string pyval)
    (now : string) (w : world) :
  (∀ w1, add_paper paper now w = (Ret true, w1) →
         ∃ r, papers (db w1) = (papers (db w) ++ [r])%list
              ∧ r_error_log r = None)
  ∧ ((add_paper paper now w).1 ≠ Ret true →
     db (add_paper paper now w).2 = db w)
  ∧ (∀ pid, db (get_paper pid w).2 = db w)
  ∧ (∀ query source from_date,
       db (search_papers query source from_date w).2 = db w)
  ∧ (∀ pid tags, papers (db (add_tags pid tags w).2) = papers (db w)).
Proof.
  split; [|split; [|split; [|split]]].
  - intros w1 Hadd.
    destruct (add_paper_true_row _ _ _ _ Hadd)
      as (r & _ & _ & _ & _ & -> & _ & _ & _ & _ & _ & _ & _ & Hlog).
    by exists r.
  - apply add_paper_keeps_db_unless_true.
  - intros pid. by rewrite get_paper_run.
  - intros. apply search_papers_reads.
  - intros. apply add_tags_papers.
Qed.

Lemma error_log_not_set_at_insert_witness :
  Sample.paper1 !! "error_log" = Some (PStr "fetch failed")
  ∧ ∃ r, papers (db Sample.world1) = [r] ∧ r_error_log r = None.
Proof.
  split; [vm_compute; reflexivity|].
  destruct (error_log_not_set_at_insert Sample.paper1 Sample.now1
              initial_world) as [Hadd _].
  apply (Hadd Sample.world1). vm_compute. reflexivity.
Defined.

(** Initialisation is idempotent: on a store that has its tables it
    changes no row and releases its connection. *)
Lemma init_db_idempotent (w : world) :
  _init_db w = (Ret tt, released w (db w)).
Proof.
  unfold _init_db, mbind, py_bind, connect, execute_write,
    create_if_not_exists, commit, close, view, released.
  reflexivity.
Qed.

End Resources.

(** ** Invariants of the reachable worlds *)

Section Invariants.
Import Sql Py DBManager Obs.

Lemma tag_step_wf (pid : string) (tag : pyval) (s s' : store) :
  tag_step pid tag s = Ret s' → wf_store s → wf_store s'.
Proof.
  destruct tag as [|b|n|l]; try done.
  - rewrite (tag_step_named pid (PBool b) (pretty (if b then 1 else 0)%Z))
      by done.
    intros [= <-]. apply link_wf.
  - rewrite (tag_step_named pid (PStr n) n) by done.
    intros [= <-]. apply link_wf.
Qed.

Lemma batch_wf (pid : string) (tags : list pyval) (s s' : store) :
  batch pid tags s = Ret s' → wf_store s → wf_store s'.
Proof.
  revert s. induction tags as [|tag tags IH]; intros s.
  - by intros [= <-].
  - cbn [batch]. destruct (tag_step pid tag s) as [s1|] eqn:E; [|done].
    intros H Hs. apply (IH _ H). by apply (tag_step_wf pid tag s).
Qed.

Lemma add_tags_keeps_wf (pid : string) (tags : list pyval) (w : world) :
  wf_store (db w) → wf_store (db (add_tags pid tags w).2).
Proof.
  rewrite add_tags_run.
  destruct (batch pid tags (db w)) as [s'|[]] eqn:E; try done.
  intros Hs. by apply (batch_wf pid tags (db w)).
Qed.

Lemma insert_paper_appends (params : list pyval) (s s' : store) :
  insert_paper params s = Ok s' →
  ∃ r, s' = set_papers (papers s ++ [r]) s
       ∧ id_taken (r_id r) (papers s) = false.
Proof.
  unfold insert_paper, mbind at 1, res_bind at 1.
  destruct (bind_all 1 params) as [bs|]; [|done].
  do 15 (destruct bs as [|? bs]; try done).
  unfold mbind, res_bind, not_null.
  repeat (lazymatch goal with
          | |- context [match text_affinity ?b with _ => _ end] =>
              destruct (text_affinity b) eqn:?
          end; try done).
  all: destruct (id_taken _ _) eqn:?; [done|]; intros [= <-];
    by eexists.
Qed.

Lemma add_paper_db (paper : gmap string pyval) (now : string) (w : world) :
  db (add_paper paper now w).2 = db w
  ∨ ∃ r, db (add_paper paper now w).2
           = set_papers (papers (db w) ++ [r]) (db w)
         ∧ id_taken (r_id r) (papers (db w)) = false.
Proof.
  rewrite add_paper_run.
  destruct (tuple_value paper now) as [params|[]]; try by left.
  destruct (insert_paper params (db w)) as [s'|] eqn:E; [|by left].
  right. cbn [snd released db]. exact (insert_paper_appends _ _ _ E).
Qed.

(** What [update_paper] leaves alone, for every outcome. *)
Lemma update_paper_frame (pid : string) (updates : list (string * pyval))
    (w : world) :
  Forall2
    (row_frame pid (fun name => name ∈ valid_fields ∧ name ∈ updates.*1))
    (papers (db w)) (papers (db (update_paper pid updates w).2))
  ∧ tags (db (update_paper pid updates w).2) = tags (db w)
  ∧ tags_seq (db (update_paper pid updates w).2) = tags_seq (db w)
  ∧ paper_tags (db (update_paper pid updates w).2) = paper_tags (db w).
Proof.
  rewrite update_paper_run.
  destruct (collect_value updates) as [[[|f fs] vs]|e] eqn:Ec;
    try (split; [apply row_frame_refl|done]).
  destruct (update_papers (f :: fs) vs pid (db w)) as [s'|] eqn:Eu;
    [|split; [apply row_frame_refl|done]].
  apply update_papers_frame in Eu as (Ht & Hseq & Hpt & HF).
  split; [|done]. cbn [snd released db].
  eapply Forall2_impl; [exact HF|].
  intros r r' [H1 H2]. split; [done|]. intros c Hc. apply H2.
  intros Hin. apply Hc.
  apply collect_value_fields in Ec as (Hfs & _). rewrite Hfs in Hin.
  by apply filter_subset in Hin.
Qed.

Lemma update_paper_ids (pid : string) (updates : list (string * pyval))
    (w : world) :
  r_id <$> papers (db (update_paper pid updates w).2)
  = r_id <$> papers (db w).
Proof.
  destruct (update_paper_frame pid updates w) as (HF & _).
  induction HF as [|r r' ps ps' [_ Hcols] _ IH]; [done|].
  cbn [fmap list_fmap]. f_equal; [|done].
  specialize (Hcols c_id). cbn in Hcols.
  assert (text_cell (r_id r') = text_cell (r_id r)) as H.
  { apply Hcols. intros [Hv _]. vm_compute in Hv. discriminate Hv. }
  by destruct (r_id r'), (r_id r); simplify_eq.
Qed.

Lemma omap_ids (ps ps' : list paper_row) :
  r_id <$> ps' = r_id <$> ps → omap r_id ps' = omap r_id ps.
Proof.
  revert ps'. induction ps as [|r ps IH]; intros [|r' ps']; try done.
  cbn [fmap list_fmap]. intros [= Hr Hps]. cbn [omap list_omap].
  by rewrite Hr, (IH ps' Hps).
Qed.

Lemma not_taken_fresh (p : string) (ps : list paper_row) :
  id_taken (Some p) ps = false → p ∉ omap r_id ps.
Proof.
  intros Hf (r & Hr & Hid)%list_elem_of_omap.
  apply not_true_iff_false in Hf. apply Hf. unfold id_taken.
  apply existsb_exists. exists r. split; [by apply list_elem_of_In|].
  unfold has_id. by rewrite bool_decide_eq_true.
Qed.

(** X24.  Every world the operations can produce from an empty database
    meets the uniqueness constraints of the schema (tag ids, tag names,
    association pairs and paper ids are unique), and no transaction is
    left pending between two operations. *)
Lemma reachable_invariants (w : world) :
  reachable w →
  wf_store (db w) ∧ ids_unique (db w) ∧ txn w = None.
Proof.
  induction 1 as [|w paper now _ (Hwf & Hids & Ht)
                   |w pid _ (Hwf & Hids & Ht)
                   |w query source from_date _ (Hwf & Hids & Ht)
                   |w pid tags _ (Hwf & Hids & Ht)
                   |w pid updates _ (Hwf & Hids & Ht)].
  - repeat split; constructor.
  - split; [|split].
    + destruct (add_paper_db paper now w) as [->|(r & -> & _)]; done.
    + destruct (add_paper_db paper now w) as [->|(r & -> & Hf)]; [done|].
      unfold ids_unique in *. cbn [set_papers papers].
      rewrite omap_app. cbn [omap list_omap].
      destruct (r_id r) as [p|]; [|by rewrite app_nil_r].
      apply NoDup_app. split; [done|]. split; [|apply NoDup_singleton].
      intros x Hx ->%list_elem_of_singleton. by apply not_taken_fresh in Hf.
    + rewrite add_paper_run.
      destruct (tuple_value paper now) as [params|[]]; try done.
      by destruct (insert_paper params (db w)).
  - by rewrite get_paper_run.
  - by destruct (search_papers_reads query source from_date w)
      as (-> & -> & _).
  - split; [by apply add_tags_keeps_wf|]. split.
    + unfold ids_unique in *. by rewrite add_tags_papers.
    + rewrite add_tags_run. by destruct (batch pid tags (db w)) as [|[]].
  - destruct (update_paper_frame pid updates w) as (_ & Htags & _ & Hpt).
    split; [|split].
    + unfold wf_store in *. by rewrite Htags, Hpt.
    + unfold ids_unique in *.
      by rewrite (omap_ids _ _ (update_paper_ids pid updates w)).
    + rewrite update_paper_run.
      destruct (collect_value updates) as [[[|f fs] vs]|]; try done.
      by destruct (update_papers (f :: fs) vs pid (db w)).
Qed.

Lemma reachable_invariants_witness :
  let w := (add_tags "p1" [PStr "ml"; PStr "ml"]
              (add_paper Sample.paper1 Sample.now1 Sample.world1).2).2 in
  wf_store (db w) ∧ ids_unique (db w) ∧ txn w = None.
Proof.
  intros w. apply reachable_invariants.
  apply reach_add_tags, reach_add_paper, reach_add_paper, reach_init.
Defined.

End Invariants.

(** ** Insert and look up: the fields, the failures *)

Section AddGetMore.
Import Sql Py DBManager Obs More.

Lemma count_char_app (c : ascii) (a b : string) :
  count_char c (a ++ b) = count_char c a + count_char c b.
Proof.
  induction a as [|d a IH]; [done|].
  change (String d a ++ b) with (String d (a ++ b)). cbn [count_char].
  rewrite IH. lia.
Qed.

Lemma length_split (sep : ascii) (s : string) :
  length (PyStr.split sep s) = S (count_char sep s).
Proof.
  induction s as [|d s IH]; [done|]. cbn [PyStr.split count_char].
  destruct (Ascii.eqb d sep); cbn [length]; [by rewrite IH|].
  destruct (PyStr.split sep s) eqn:E; [by apply split_not_nil in E|].
  cbn [length] in *. lia.
Qed.

Lemma count_char_none (c : ascii) (s : string) :
  count_char c s = 0 ↔ PyStr.has_char c s = false.
Proof.
  induction s as [|d s IH]; [done|]. cbn [count_char PyStr.has_char].
  destruct (Ascii.eqb d c); cbn; [split; [lia|done]|]. exact IH.
Qed.

Lemma count_join (l : list string) :
  l ≠ [] →
  count_char PyStr.comma (PyStr.join "," l)
  = sum_list (count_char PyStr.comma <$> l) + (length l - 1).
Proof.
  unfold PyStr.join. induction l as [|x l IH]; [done|]. intros _.
  destruct l as [|y l]; [simpl; lia|].
  change (String.concat "," (x :: y :: l))
    with (x ++ String PyStr.comma (String.concat "," (y :: l))).
  rewrite count_char_app. cbn [count_char]. rewrite IH by done.
  change (Ascii.eqb PyStr.comma PyStr.comma) with true.
  simpl. lia.
Qed.

Lemma sum_zero_all (l : list string) :
  sum_list (count_char PyStr.comma <$> l) = 0 →
  Forall (fun a => PyStr.has_char PyStr.comma a = false) l.
Proof.
  induction l as [|x l IH]; [constructor|]. cbn. intros H.
  constructor; [apply count_char_none; lia|apply IH; lia].
Qed.

(** Every field of the row a successful INSERT appended. *)
Lemma insert_paper_full (id title authors abstract source publication_date
    access_date pdf_path bibtex_path endnote_path is_paywalled summary
    implications topic_category : pyval) (s s' : store) :
  insert_paper
    [id; title; authors; abstract; source; publication_date; access_date;
     pdf_path; bibtex_path; endnote_path; is_paywalled; summary;
     implications; topic_category] s = Ok s' →
  ∃ r,
    s' = set_papers (papers s ++ [r]) s
    ∧ id_taken (r_id r) (papers s) = false
    ∧ r_id r = text_of id
    ∧ text_of title = Some (r_title r)
    ∧ text_of authors = Some (r_authors r)
    ∧ r_abstract r = text_of abstract
    ∧ text_of source = Some (r_source r)
    ∧ text_of publication_date = Some (r_publication_date r)
    ∧ text_of access_date = Some (r_access_date r)
    ∧ r_pdf_path r = text_of pdf_path
    ∧ r_bibtex_path r = text_of bibtex_path
    ∧ r_endnote_path r = text_of endnote_path
    ∧ numeric_of is_paywalled = Some (r_is_paywalled r)
    ∧ r_summary r = text_of summary
    ∧ r_implications r = text_of implications
    ∧ r_topic_category r = text_of topic_category
    ∧ r_error_log r = None.
Proof.
  unfold insert_paper, text_of, numeric_of. cbn [bind_all].
  repeat (lazymatch goal with
          | |- context [match bind ?v with _ => _ end] =>
              destruct (bind v) eqn:?
          end; [|done]).
  unfold mbind, res_bind, not_null.
  destruct (text_affinity b0) eqn:?; [|done].
  destruct (text_affinity b1) eqn:?; [|done].
  destruct (text_affinity b3) eqn:?; [|done].
  destruct (text_affinity b4) eqn:?; [|done].
  destruct (text_affinity b5) eqn:?; [|done].
  destruct (id_taken (text_affinity b) (papers s)) eqn:?; [done|].
  intros [= <-]. eexists. split; [done|]. cbn. by repeat split.
Qed.

Lemma find_none_not_stored (pid : string) (s : store) :
  select_paper pid s = None ↔ ¬ stored pid s.
Proof.
  unfold select_paper. rewrite stored_taken. unfold id_taken.
  rewrite find_existsb. by destruct (List.find _ _).
Qed.

(** X1.  [get_paper] returns [None] exactly when no paper with the id is
    stored, and never raises; a dict it returns carries the id that was
    asked for and is a stored row with its tags; the rows are untouched. *)
Theorem get_paper_found_iff_stored (pid : string) (w : world) :
  ((get_paper pid w).1 = Ret None ↔ ¬ stored pid (db w))
  ∧ (∀ d, (get_paper pid w).1 = Ret (Some d) →
          d_id d = Some pid
          ∧ ∃ r, r ∈ papers (db w)
                 ∧ d = row_dict r (select_tag_names (Some pid) (db w)))
  ∧ (∀ e, (get_paper pid w).1 ≠ Raise e)
  ∧ db (get_paper pid w).2 = db w.
Proof.
  rewrite get_paper_run. cbn [fst snd db].
  destruct (select_paper pid (db w)) as [r|] eqn:E.
  - split; [|split; [|done]].
    + split; [done|]. intros H. apply find_none_not_stored in H. congruence.
    + intros d [= <-]. apply find_some in E as [Hin Hid].
      unfold has_id in Hid. apply bool_decide_eq_true in Hid.
      split; [done|]. exists r. split; [by apply list_elem_of_In|done].
  - split; [|done]. split; [|done]. intros _. by apply find_none_not_stored.
Qed.

(** X2.  Insert then look up: after a successful [add_paper] of a record
    with a string id, [get_paper] on that id returns the fields as they
    were supplied (text fields in their stored text form, absent optional
    fields as NULL, [is_paywalled] 0 when absent), [access_date] is the
    clock reading, [error_log] is NULL, and the tags are those already
    attached to the id. *)
Theorem add_then_get_fields (paper : gmap string pyval) (now pid : string)
    (w w1 : world) :
  paper !! "id" = Some (PStr pid) →
  add_paper paper now w = (Ret true, w1) →
  ∃ d w2,
    get_paper pid w1 = (Ret (Some d), w2)
    ∧ d_id d = Some pid
    ∧ paper !! "title" ≫= text_of = Some (d_title d)
    ∧ d_abstract d = text_of (get paper "abstract" PNone)
    ∧ paper !! "source" ≫= text_of = Some (d_source d)
    ∧ paper !! "publication_date" ≫= text_of = Some (d_publication_date d)
    ∧ d_access_date d = now
    ∧ d_pdf_path d = text_of (get paper "pdf_path" PNone)
    ∧ d_bibtex_path d = text_of (get paper "bibtex_path" PNone)
    ∧ d_endnote_path d = text_of (get paper "endnote_path" PNone)
    ∧ numeric_of (get paper "is_paywalled" (PBool false))
      = Some (d_is_paywalled d)
    ∧ d_summary d = text_of (get paper "summary" PNone)
    ∧ d_implications d = text_of (get paper "implications" PNone)
    ∧ d_topic_category d = text_of (get paper "topic_category" PNone)
    ∧ d_error_log d = None
    ∧ d_tags d = select_tag_names (Some pid) (db w).
Proof.
  intros Hid (params & s' & Hp & Hins & ->)%add_paper_true.
  unfold tuple_value, paper_tuple, getitem, join_value, mbind, py_bind,
    mret, py_ret, raise in Hp.
  rewrite Hid in Hp.
  destruct (paper !! "title") as [title|]; [|done].
  destruct (paper !! "authors") as [[| |a|l]|]; try done;
    (destruct (paper !! "source") as [source|]; [|done]);
    (destruct (paper !! "publication_date") as [pd|]; [|done]);
    injection Hp as <-.
  all: apply insert_paper_full in Hins
      as (r & -> & Hf & H1 & H2 & H3 & H4 & H5 & H6 & H7 & H8 & H9 & H10
          & H11 & H12 & H13 & H14 & H15).
  all: rewrite get_paper_run; cbn [released db].
  all: change (text_of (PStr pid)) with (Some pid) in H1.
  all: change (text_of (PStr now)) with (Some now) in H7.
  all: injection H7 as H7.
  all: rewrite (select_paper_appended pid r) by done.
  all: eexists _, _; (split; [done|]).
  all: cbn [d_id d_title d_abstract d_source d_publication_date
            d_access_date d_pdf_path d_bibtex_path d_endnote_path
            d_is_paywalled d_summary d_implications d_topic_category
            d_error_log d_tags row_dict mbind option_bind].
  all: by repeat split.
Qed.

Lemma add_then_get_fields_witness :
  ∃ d w2,
    get_paper "p1" Sample.world1 = (Ret (Some d), w2)
    ∧ d_title d = "Graph Neural Networks"
    ∧ d_access_date d = Sample.now1
    ∧ d_is_paywalled d = CInt 0
    ∧ d_abstract d = None.
Proof.
  destruct (add_then_get_fields Sample.paper1 Sample.now1 "p1"
              initial_world Sample.world1)
    as (d & w2 & Hget & _ & Ht & Ha & _ & _ & Hacc & _ & _ & _ & Hp & _).
  - vm_compute. reflexivity.
  - vm_compute. reflexivity.
  - exists d, w2. vm_compute in Ht, Ha, Hp.
    injection Ht as Ht. injection Hp as Hp. by repeat split.
Defined.

(** The stored authors string of the row a successful [add_paper] wrote,
    as [get_paper] splits it. *)
Lemma add_then_get_authors (paper : gmap string pyval) (now pid : string)
    (w w1 : world) :
  paper !! "id" = Some (PStr pid) →
  add_paper paper now w = (Ret true, w1) →
  ∃ d w2 authors joined,
    get_paper pid w1 = (Ret (Some d), w2)
    ∧ paper !! "authors" = Some authors
    ∧ ((∃ l, authors = PList l ∧ joined = PyStr.join "," l)
       ∨ (∃ s, authors = PStr s ∧ joined = PyStr.join "," (PyStr.chars s)))
    ∧ d_authors d = PyStr.split PyStr.comma joined.
Proof.
  intros Hid Hadd.
  destruct (add_paper_true_row _ _ _ _ Hadd)
    as (r & id & bid & authors & joined & -> & Hid' & Hbid & Hrid & Hauth
        & Hj & Hra & Hf & _).
  rewrite Hid in Hid'. injection Hid' as <-. injection Hbid as <-.
  cbn in Hrid. rewrite get_paper_run. cbn [released db].
  rewrite (select_paper_appended pid r) by done.
  eexists _, _, authors, joined. repeat split; try done.
  cbn [fmap option_fmap option_map d_authors row_dict]. by rewrite Hra.
Qed.

(** X3.  The authors round trip holds exactly for comma-free names: after
    a successful [add_paper] with a non-empty list of authors, [get_paper]
    returns one author more per comma in the names, so it returns the list
    that was supplied if and only if no name contains a comma. *)
Theorem authors_round_trip_iff (paper : gmap string pyval) (now pid : string)
    (l : list string) (w w1 : world) :
  paper !! "id" = Some (PStr pid) →
  paper !! "authors" = Some (PList l) →
  l ≠ [] →
  add_paper paper now w = (Ret true, w1) →
  ∃ d w2,
    get_paper pid w1 = (Ret (Some d), w2)
    ∧ length (d_authors d)
      = length l + sum_list (count_char PyStr.comma <$> l)
    ∧ (d_authors d = l
       ↔ Forall (fun a => PyStr.has_char PyStr.comma a = false) l).
Proof.
  intros Hid Hauth Hne Hadd.
  destruct (add_then_get_authors paper now pid w w1 Hid Hadd)
    as (d & w2 & authors & joined & Hget & Hauth' & Hj & Hd).
  rewrite Hauth in Hauth'. injection Hauth' as <-.
  destruct Hj as [(l' & [= <-] & ->)|(? & ? & _)]; [|done].
  exists d, w2. split; [done|].
  assert (length (d_authors d)
          = length l + sum_list (count_char PyStr.comma <$> l)) as Hlen.
  { rewrite Hd, length_split, count_join by done.
    destruct l; [done|]. cbn [length]. lia. }
  split; [done|]. split.
  - intros Heq. rewrite Heq in Hlen. apply sum_zero_all. lia.
  - intros Hall. rewrite Hd. by apply split_join.
Qed.

Lemma authors_round_trip_iff_witness :
  ∃ d w2,
    get_paper "p1" Sample.world1 = (Ret (Some d), w2)
    ∧ length (d_authors d) = 2
    ∧ d_authors d = ["A"; "B"].
Proof.
  destruct (authors_round_trip_iff Sample.paper1 Sample.now1 "p1" ["A"; "B"]
              initial_world Sample.world1) as (d & w2 & Hget & Hlen & Hiff).
  - vm_compute. reflexivity.
  - vm_compute. reflexivity.
  - discriminate.
  - vm_compute. reflexivity.
  - exists d, w2. split; [done|]. split; [exact Hlen|].
    apply Hiff. repeat constructor.
Defined.

Lemma chars_comma_free (s : string) :
  PyStr.has_char PyStr.comma s = false →
  Forall (fun a => PyStr.has_char PyStr.comma a = false) (PyStr.chars s).
Proof.
  induction s as [|c s IH]; [constructor|]. cbn [PyStr.has_char PyStr.chars].
  intros [Hc Hs]%orb_false_iff. constructor; [|by apply IH].
  cbn. by rewrite Hc.
Qed.

(** X4.  A [str] passed as [authors] is joined character by character:
    after a successful [add_paper], [get_paper] returns one author per
    character of the string (for a non-empty string without a comma). *)
Theorem authors_string_split_into_characters (paper : gmap string pyval)
    (now pid s : string) (w w1 : world) :
  paper !! "id" = Some (PStr pid) →
  paper !! "authors" = Some (PStr s) →
  s ≠ "" →
  PyStr.has_char PyStr.comma s = false →
  add_paper paper now w = (Ret true, w1) →
  ∃ d w2,
    get_paper pid w1 = (Ret (Some d), w2) ∧ d_authors d = PyStr.chars s.
Proof.
  intros Hid Hauth Hne Hs Hadd.
  destruct (add_then_get_authors paper now pid w w1 Hid Hadd)
    as (d & w2 & authors & joined & Hget & Hauth' & Hj & Hd).
  rewrite Hauth in Hauth'. injection Hauth' as <-.
  destruct Hj as [(? & ? & _)|(s' & [= <-] & ->)]; [done|].
  exists d, w2. split; [done|]. rewrite Hd. apply split_join.
  - by destruct s.
  - by apply chars_comma_free.
Qed.

Lemma authors_string_split_into_characters_witness :
  ∃ d w2,
    get_paper "p4" (add_paper paper_str Sample.now1 initial_world).2
      = (Ret (Some d), w2)
    ∧ d_authors d = ["K"; "i"; "m"].
Proof.
  apply (authors_string_split_into_characters paper_str Sample.now1 "p4"
           "Kim" initial_world).
  - vm_compute. reflexivity.
  - vm_compute. reflexivity.
  - discriminate.
  - vm_compute. reflexivity.
  - vm_compute. reflexivity.
Defined.

(** What the evaluation of the parameter tuple can raise. *)
Lemma tuple_value_raise (paper : gmap string pyval) (now : string) (e : exn) :
  tuple_value paper now = Raise e →
  e = TypeError
  ∨ ∃ k, e = KeyError k ∧ k ∈ required_keys ∧ paper !! k = None.
Proof.
  unfold tuple_value, paper_tuple, getitem, join_value, mbind, py_bind,
    mret, py_ret, raise, required_keys.
  destruct (paper !! "id") eqn:E1;
    [|intros [= <-]; right; exists "id"; set_solver].
  destruct (paper !! "title") eqn:E2;
    [|intros [= <-]; right; exists "title"; set_solver].
  destruct (paper !! "authors") as [[| | |]|] eqn:E3;
    try (intros [= <-]; by left);
    try (intros [= <-]; right; exists "authors"; set_solver).
  all: destruct (paper !! "source") eqn:E4;
    [|intros [= <-]; right; exists "source"; set_solver].
  all: destruct (paper !! "publication_date") eqn:E5;
    [done|intros [= <-]; right; exists "publication_date"; set_solver].
Qed.

Lemma tuple_value_missing (paper : gmap string pyval) (now k : string) :
  k ∈ required_keys → paper !! k = None →
  ∃ e, tuple_value paper now = Raise e.
Proof.
  intros Hk Hnone.
  unfold tuple_value, paper_tuple, getitem, join_value, mbind, py_bind,
    mret, py_ret, raise.
  destruct (paper !! "id") eqn:E1; [|by eexists].
  destruct (paper !! "title") eqn:E2; [|by eexists].
  destruct (paper !! "authors") as [[| | |]|] eqn:E3; try by eexists.
  all: destruct (paper !! "source") eqn:E4; [|by eexists].
  all: destruct (paper !! "publication_date") eqn:E5; [|by eexists].
  all: exfalso; unfold required_keys in Hk.
  all: repeat (apply elem_of_cons in Hk as [->|Hk]); try congruence.
  all: by apply not_elem_of_nil in Hk.
Qed.

(** X5.  A record that lacks one of the five keys [add_paper] reads by
    subscript is not reported as a failure: the call raises (KeyError for
    a key that is missing, or TypeError when [authors] cannot be joined),
    nothing is written or printed, and the connection is released. *)
Theorem add_paper_missing_key (paper : gmap string pyval) (now k : string)
    (w : world) :
  k ∈ required_keys →
  paper !! k = None →
  ∃ e,
    add_paper paper now w = (Raise e, released w (db w))
    ∧ (e = TypeError
       ∨ ∃ k', e = KeyError k' ∧ k' ∈ required_keys ∧ paper !! k' = None).
Proof.
  intros Hk Hnone. rewrite add_paper_run.
  destruct (tuple_value_missing paper now k Hk Hnone) as [e He].
  rewrite He. destruct (tuple_value_raise paper now e He) as [->|(k' & -> & H)].
  - exists TypeError. split; [done|by left].
  - exists (KeyError k'). split; [done|]. right. by exists k'.
Qed.

Lemma add_paper_missing_key_witness :
  ∃ e,
    add_paper paper_untitled Sample.now1 Sample.world1
      = (Raise e, released Sample.world1 (db Sample.world1))
    ∧ (e = TypeError
       ∨ ∃ k', e = KeyError k' ∧ k' ∈ required_keys
               ∧ paper_untitled !! k' = None).
Proof.
  apply (add_paper_missing_key paper_untitled Sample.now1 "title"
           Sample.world1).
  - vm_compute. set_solver.
  - vm_compute. reflexivity.
Defined.

(** X6.  [add_paper] has three kinds of outcome and prints on exactly one
    of them: it returns [True], one row is appended and nothing is printed;
    or it returns [False], the rows are as before and one error line is
    printed; or it raises KeyError or TypeError, the rows are as before and
    nothing is printed.  On each the connection is released and no
    transaction is left open. *)
Theorem add_paper_outcomes (paper : gmap string pyval) (now : string)
    (w : world) :
  let o := (add_paper paper now w).1 in
  let w' := (add_paper paper now w).2 in
  open_conns w' = open_conns w ∧ txn w' = None
  ∧ ((o = Ret true ∧ stdout w' = stdout w
      ∧ ∃ r, db w' = set_papers (papers (db w) ++ [r]) (db w)
             ∧ id_taken (r_id r) (papers (db w)) = false)
     ∨ (o = Ret false ∧ db w' = db w
        ∧ ∃ e, stdout w' = (stdout w ++ [ErrorAddingPaper e])%list)
     ∨ ((o = Raise TypeError
         ∨ ∃ k, o = Raise (KeyError k) ∧ paper !! k = None)
        ∧ db w' = db w ∧ stdout w' = stdout w)).
Proof.
  cbn zeta. rewrite add_paper_run.
  destruct (tuple_value paper now) as [params|e] eqn:E.
  - destruct (insert_paper params (db w)) as [s'|e] eqn:Ei.
    + repeat split; try done. left. repeat split; try done.
      exact (insert_paper_appends _ _ _ Ei).
    + repeat split; try done. right. left. repeat split; try done.
      by eexists.
  - destruct (tuple_value_raise paper now e E) as [->|(k & -> & _ & Hk)].
    + repeat split; try done. right. right. repeat split; try done. by left.
    + repeat split; try done. right. right. repeat split; try done.
      right. by exists k.
Qed.

(** X7.  A required text field that is present but [None] is reported as a
    failure, not raised: for a paper record whose [title], [source] or
    [publication_date] is [None], [add_paper] returns [False], prints one
    line and writes nothing. *)
Theorem add_paper_null_field (paper : gmap string pyval) (now k : string)
    (w : world) :
  paper_record paper →
  k ∈ ["title"; "source"; "publication_date"] →
  paper !! k = Some PNone →
  ∃ e,
    add_paper paper now w
    = (Ret false, released_log w (ErrorAddingPaper e)).
Proof.
  intros ([id Hid] & [title Ht] & [l Hl] & [source Hs] & [pd Hp]) Hk Hnull.
  rewrite add_paper_run.
  rewrite (tuple_value_record paper now _ _ _ _ _ Hid Ht Hl Hs Hp).
  destruct (insert_paper _ (db w)) as [s'|e] eqn:Ei; [|by eexists].
  exfalso. apply insert_paper_full in Ei
    as (r & _ & _ & _ & H2 & _ & _ & H5 & H6 & _).
  repeat (apply elem_of_cons in Hk as [->|Hk]);
    [| | |by apply not_elem_of_nil in Hk]; simplify_eq; done.
Qed.

Lemma add_paper_null_field_witness :
  ∃ e,
    add_paper paper_null_title Sample.now1 Sample.world1
    = (Ret false, released_log Sample.world1 (ErrorAddingPaper e)).
Proof.
  apply (add_paper_null_field paper_null_title Sample.now1 "title"
           Sample.world1).
  - repeat split; vm_compute; eauto.
  - set_solver.
  - vm_compute. reflexivity.
Defined.
End AddGetMore.

(** ** Updates: what is rejected, what is never written *)

Section UpdateMore.
Import Sql Py DBManager Obs More.

Lemma collect_value_raise (items : list (string * pyval)) (e : exn) :
  collect_value items = Raise e → e = TypeError.
Proof.
  induction items as [|[k v] items IH]; [done|].
  rewrite collect_value_cons.
  destruct (bool_decide (k ∈ valid_fields)); [|done].
  destruct (bound_value k v); [|by intros [= <-]].
  destruct (collect_value items); [done|]. intros [= <-]. by apply IH.
Qed.

Lemma collect_value_type_error (items : list (string * pyval)) (v : pyval) :
  ("authors", v) ∈ items → bound_value "authors" v = None →
  collect_value items = Raise TypeError.
Proof.
  intros Hin Hv. induction items as [|[k v'] items IH];
    [by apply not_elem_of_nil in Hin|].
  rewrite collect_value_cons.
  apply elem_of_cons in Hin as [[= <- <-]|Hin].
  - rewrite bool_decide_eq_true_2 by (unfold valid_fields; set_solver).
    by rewrite Hv.
  - specialize (IH Hin). rewrite IH.
    destruct (bool_decide (k ∈ valid_fields)); [|done].
    by destruct (bound_value k v').
Qed.

(** X8.  A value for [authors] that cannot be joined ([None] or a bool)
    makes [update_paper] raise TypeError while it is still collecting the
    fields: no connection is opened, nothing is written or printed, and the
    other entries of [updates], valid or not, are not applied. *)
Theorem update_paper_authors_not_iterable (pid : string)
    (updates : list (string * pyval)) (v : pyval) (w : world) :
  ("authors", v) ∈ updates →
  v = PNone ∨ (∃ b, v = PBool b) →
  update_paper pid updates w = (Raise TypeError, w).
Proof.
  intros Hin Hv. rewrite update_paper_run.
  rewrite (collect_value_type_error updates v Hin); [done|].
  by destruct Hv as [->|[b ->]].
Qed.

Lemma update_paper_authors_not_iterable_witness :
  update_paper "p1" [("title", PStr "New"); ("authors", PNone)] Sample.world1
  = (Raise TypeError, Sample.world1).
Proof.
  apply (update_paper_authors_not_iterable "p1" _ PNone).
  - set_solver.
  - by left.
Defined.

(** X9.  A failed update is all or nothing: whenever [update_paper] does
    not return [True] (it returned [False] or raised), the committed rows
    are those from before the call, whatever the number of fields. *)
Theorem update_paper_all_or_nothing (pid : string)
    (updates : list (string * pyval)) (w : world) :
  (update_paper pid updates w).1 ≠ Ret true →
  db (update_paper pid updates w).2 = db w.
Proof.
  rewrite update_paper_run.
  destruct (collect_value updates) as [[[|f fs] vs]|]; try done.
  by destruct (update_papers (f :: fs) vs pid (db w)).
Qed.

Lemma update_paper_all_or_nothing_witness :
  db (update_paper "p1" [("title", PStr "New"); ("summary", PList ["x"])]
        Sample.world1).2
  = db Sample.world1.
Proof.
  apply update_paper_all_or_nothing. vm_compute. discriminate.
Defined.

(** X10.  [update_paper] can never change the key, the source or the two
    dates: whatever [updates] holds, every row keeps its [id], [source],
    [publication_date] and [access_date], and the number of rows. *)
Theorem update_paper_keeps_key_source_dates (pid : string)
    (updates : list (string * pyval)) (w : world) :
  Forall2
    (fun r r' =>
       r_id r' = r_id r ∧ r_source r' = r_source r
       ∧ r_publication_date r' = r_publication_date r
       ∧ r_access_date r' = r_access_date r)
    (papers (db w)) (papers (db (update_paper pid updates w).2)).
Proof.
  destruct (update_paper_frame pid updates w) as (HF & _).
  eapply Forall2_impl; [exact HF|].
  intros r r' [_ Hcols].
  assert (∀ c, column_name c ∉ valid_fields →
               get_column c r' = get_column c r) as H.
  { intros c Hc. apply Hcols. by intros [? _]. }
  pose proof (H c_id) as H1. pose proof (H c_source) as H2.
  pose proof (H c_publication_date) as H3.
  pose proof (H c_access_date) as H4.
  cbn in H1, H2, H3, H4.
  repeat split.
  - assert (text_cell (r_id r') = text_cell (r_id r)) as E
      by (apply H1; vm_compute; discriminate).
    by destruct (r_id r'), (r_id r); simplify_eq.
  - assert (CText (r_source r') = CText (r_source r)) as E
      by (apply H2; vm_compute; discriminate).
    by injection E.
  - assert (CText (r_publication_date r') = CText (r_publication_date r))
      as E by (apply H3; vm_compute; discriminate).
    by injection E.
  - assert (CText (r_access_date r') = CText (r_access_date r)) as E
      by (apply H4; vm_compute; discriminate).
    by injection E.
Qed.
End UpdateMore.

(** ** Updates: unknown ids, and writing [authors] *)

Section UpdateRows.
Import PyStr Sql Py DBManager Obs More.

Lemma valid_field_resolves (k : string) :
  k ∈ valid_fields →
  ∃ c, resolve k = Ok c ∧ c ≠ c_id.
Proof.
  unfold valid_fields. intros Hk. set_unfold.
  repeat (destruct Hk as [Hk| ->]; [|by eexists]). subst. by eexists.
Qed.

Lemma collect_value_ok (updates : list (string * pyval)) :
  (∀ k v, (k, v) ∈ updates → k ∈ valid_fields →
     ∃ v', bound_value k v = Some v' ∧ is_Some (bind v')) →
  ∃ fs vs, collect_value updates = Ret (fs, vs)
    ∧ fs = List.filter (fun k => bool_decide (k ∈ valid_fields)) (updates.*1)
    ∧ Forall (fun v => is_Some (bind v)) vs
    ∧ length vs = length fs.
Proof.
  induction updates as [|[k v] updates IH]; intros H.
  - by exists [], [].
  - destruct IH as (fs & vs & E & Hfs & Hvs & Hlen).
    { intros k' v' Hin. apply H. by right. }
    rewrite collect_value_cons, E. cbn [fmap list_fmap fst List.filter].
    destruct (bool_decide (k ∈ valid_fields)) eqn:Ek.
    + apply bool_decide_eq_true_1 in Ek.
      destruct (H k v) as (v' & -> & Hb); [by left|done|].
      exists (k :: fs), (v' :: vs). cbn [fst snd length].
      repeat split; [by rewrite Hfs|by constructor|by rewrite Hlen].
    + by exists fs, vs.
Qed.

Lemma bind_all_ok (i : nat) (vs : list pyval) :
  Forall (fun v => is_Some (bind v)) vs →
  ∃ bs, bind_all i vs = Ok bs ∧ length bs = length vs.
Proof.
  intros H. revert i. induction H as [|v vs [b Hb] _ IH]; intros i.
  - by exists [].
  - destruct (IH (S i)) as (bs & E & Hlen).
    exists (b :: bs). cbn [bind_all]. rewrite Hb, E. cbn.
    by rewrite Hlen.
Qed.

Lemma mapM_resolve_ok (fs : list string) :
  Forall (fun k => k ∈ valid_fields) fs →
  ∃ cols, mapM resolve fs = Ok cols ∧ length cols = length fs
    ∧ existsb (fun c => bool_decide (c = c_id)) cols = false.
Proof.
  induction 1 as [|k fs Hk _ (cols & E & Hlen & Hid)].
  - by exists [].
  - destruct (valid_field_resolves k Hk) as (c & Ec & Hc).
    exists (c :: cols). cbn [mapM]. unfold mbind, res_bind, mret, res_ret.
    unfold mbind, res_bind, mret, res_ret in E.
    rewrite Ec, E. cbn [length existsb]. rewrite Hlen, Hid.
    by rewrite bool_decide_eq_false_2.
Qed.

Lemma update_rows_no_match (pid : string) (sets : list (column * bound))
    (ps : list paper_row) :
  existsb (has_id pid) ps = false → update_rows pid sets ps = Ok ps.
Proof.
  induction ps as [|r ps IH]; [done|].
  cbn [existsb update_rows]. intros [Hr Hps]%orb_false_elim.
  by rewrite Hr, (IH Hps).
Qed.

Lemma not_stored_no_match (pid : string) (s : store) :
  ¬ stored pid s → existsb (has_id pid) (papers s) = false.
Proof.
  intros H. apply not_true_is_false. intros (r & Hin & Hr)%existsb_exists.
  apply H. exists r. split; [by apply list_elem_of_In|].
  by apply bool_decide_eq_true_1 in Hr.
Qed.

Lemma set_papers_same (s : store) : set_papers (papers s) s = s.
Proof. by destruct s. Qed.

Lemma filter_valid_all (l : list string) :
  Forall (fun k => k ∈ valid_fields)
    (List.filter (fun k => bool_decide (k ∈ valid_fields)) l).
Proof.
  apply Forall_forall. intros k Hk%list_elem_of_In%filter_In.
  destruct Hk as [_ Hk]. by apply bool_decide_eq_true_1 in Hk.
Qed.

Lemma filter_valid_not_nil (l : list string) (k : string) :
  k ∈ l → k ∈ valid_fields →
  List.filter (fun k => bool_decide (k ∈ valid_fields)) l ≠ [].
Proof.
  intros Hin Hk E.
  assert (In k (List.filter (fun k => bool_decide (k ∈ valid_fields)) l))
    as Hf.
  { apply filter_In. split; [by apply list_elem_of_In|].
    by apply bool_decide_eq_true_2. }
  by rewrite E in Hf.
Qed.

(** X11.  [update_paper] does not check that the paper exists: for an id
    that is not stored, with at least one allow-listed key and values the
    driver can bind, it returns [True], prints nothing and leaves every
    table as it was. *)
Theorem update_paper_unknown_id (pid : string)
    (updates : list (string * pyval)) (w : world) :
  ¬ stored pid (db w) →
  (∃ k, k ∈ updates.*1 ∧ k ∈ valid_fields) →
  (∀ k v, (k, v) ∈ updates → k ∈ valid_fields →
     ∃ v', bound_value k v = Some v' ∧ is_Some (bind v')) →
  update_paper pid updates w = (Ret true, released w (db w)).
Proof.
  intros Hno (k & Hin & Hk) Hvals.
  destruct (collect_value_ok updates Hvals) as (fs & vs & E & Hfs & Hvs & Hl).
  rewrite update_paper_run, E.
  pose proof (filter_valid_not_nil _ k Hin Hk) as Hne. rewrite <- Hfs in Hne.
  assert (update_papers fs vs pid (db w) = Ok (db w)) as Hup.
  { unfold update_papers.
    destruct (mapM_resolve_ok fs) as (cols & -> & Hlc & Hid).
    { rewrite Hfs. apply filter_valid_all. }
    destruct (bind_all_ok 1 (vs ++ [PStr pid])) as (bs & -> & Hlb).
    { apply Forall_app. split; [done|]. by repeat constructor. }
    unfold mbind, res_bind.
    rewrite bool_decide_eq_true_2
      by (rewrite Hlb, length_app, Hlc, Hl; cbn; lia).
    rewrite update_rows_no_match by by apply not_stored_no_match.
    by rewrite Hid, set_papers_same. }
  destruct fs as [|f fs]; [done|]. by rewrite Hup.
Qed.

Lemma update_paper_unknown_id_witness :
  update_paper "nope" [("title", PStr "New"); ("hacker_field", PStr "x")]
    Sample.world1
  = (Ret true, released Sample.world1 (db Sample.world1)).
Proof.
  apply update_paper_unknown_id.
  - intros (r & Hin & Hr). vm_compute in Hin.
    apply list_elem_of_singleton in Hin. by subst r.
  - exists "title". split; [set_solver|]. unfold valid_fields. set_solver.
  - intros k v Hin Hk. apply elem_of_cons in Hin as [[= -> ->]|Hin].
    + by eexists.
    + apply list_elem_of_singleton in Hin as [= -> ->].
      exfalso. revert Hk. vm_compute. discriminate.
Defined.

Lemma join_split (s : string) : join "," (split comma s) = s.
Proof.
  unfold join. induction s as [|c s IH]; [done|].
  cbn [split]. destruct (Ascii.eqb_spec c comma) as [->|Hc].
  - pose proof (split_not_nil comma s) as Hne.
    destruct (split comma s) as [|h t] eqn:E; [done|].
    cbn [concat]. by rewrite <- IH.
  - pose proof (split_not_nil comma s) as Hne.
    destruct (split comma s) as [|h t] eqn:E; [done|].
    rewrite <- IH. by destruct t.
Qed.

Lemma set_column_authors (a : string) (r : paper_row) :
  set_column c_authors (BText a) r = Ok (set_authors a r).
Proof. reflexivity. Qed.

Lemma update_rows_authors (pid a : string) (ps : list paper_row) :
  update_rows pid [(c_authors, BText a)] ps
  = Ok ((fun r => if has_id pid r then set_authors a r else r) <$> ps).
Proof.
  induction ps as [|r ps IH]; [done|].
  cbn [update_rows assign]. rewrite set_column_authors, IH.
  unfold mbind, res_bind. rewrite fmap_cons. by destruct (has_id pid r).
Qed.

Lemma find_set_authors (pid a : string) (ps : list paper_row) :
  List.find (has_id pid)
    ((fun r => if has_id pid r then set_authors a r else r) <$> ps)
  = set_authors a <$> List.find (has_id pid) ps.
Proof.
  induction ps as [|r ps IH]; [done|].
  cbn [fmap list_fmap List.find]. fold (list_fmap _ _
    (fun r => if has_id pid r then set_authors a r else r) ps).
  destruct (has_id pid r) eqn:E.
  - change (has_id pid (set_authors a r)) with (has_id pid r).
    by rewrite E.
  - by rewrite E.
Qed.

Lemma update_authors_run (pid : string) (l : list string) (w : world) :
  update_paper pid [("authors", PList l)] w =
    (Ret true,
     released w
       (set_papers
          ((fun r => if has_id pid r then set_authors (join "," l) r else r)
             <$> papers (db w)) (db w))).
Proof.
  rewrite update_paper_run.
  change (collect_value [("authors", PList l)])
    with (Ret (["authors"], [PStr (join "," l)])).
  unfold update_papers.
  change (mapM resolve ["authors"]) with (Ok [c_authors]).
  cbn [app bind_all bind]. unfold mbind, res_bind. cbn [length zip zip_with].
  rewrite bool_decide_eq_true_2 by done.
  by rewrite update_rows_authors.
Qed.

(** X12.  Writing [authors] with [update_paper] and reading the paper back:
    for a stored paper and a non-empty list of comma-free names the update
    returns [True], and [get_paper] then returns the dict it returned
    before with [authors] replaced by the list; title, dates, tags and the
    other fields are the same. *)
Theorem update_authors_then_get (pid : string) (l : list string)
    (d0 : paper_dict) (w w0 : world) :
  get_paper pid w = (Ret (Some d0), w0) →
  l ≠ [] →
  Forall (fun a => has_char comma a = false) l →
  ∃ w1 w2,
    update_paper pid [("authors", PList l)] w = (Ret true, w1)
    ∧ get_paper pid w1 = (Ret (Some (with_authors l d0)), w2).
Proof.
  rewrite get_paper_run. intros [= Hd _] Hne Hl.
  eexists _, _. split; [apply update_authors_run|].
  rewrite get_paper_run. f_equal. f_equal.
  unfold select_paper in *. cbn [released db set_papers papers].
  rewrite find_set_authors.
  destruct (List.find (has_id pid) (papers (db w))) as [r|]; [|done].
  cbn in Hd |- *. injection Hd as <-. f_equal.
  unfold row_dict, with_authors, set_authors. cbn.
  by rewrite split_join.
Qed.

Lemma update_authors_then_get_witness :
  ∃ w1 w2,
    update_paper "p1" [("authors", PList ["X"; "Y"; "Z"])] Sample.world1
      = (Ret true, w1)
    ∧ get_paper "p1" w1
      = (Ret (Some (with_authors ["X"; "Y"; "Z"]
            (row_dict row1 []))), w2).
Proof.
  apply (update_authors_then_get "p1" _ _ Sample.world1
           (get_paper "p1" Sample.world1).2).
  - reflexivity.
  - done.
  - by repeat constructor.
Defined.

(** X13.  Writing back what was read: passing the [authors] list of the
    dict that [get_paper] returned to [update_paper] succeeds and
    [get_paper] returns the same dict again, commas in the stored text or
    not: joining the pieces of a split gives the text back. *)
Theorem update_authors_write_back (pid : string) (d0 : paper_dict)
    (w w0 : world) :
  get_paper pid w = (Ret (Some d0), w0) →
  ∃ w1,
    update_paper pid [("authors", PList (d_authors d0))] w = (Ret true, w1)
    ∧ (get_paper pid w1).1 = Ret (Some d0).
Proof.
  rewrite get_paper_run. intros [= Hd _].
  eexists. split; [apply update_authors_run|].
  rewrite get_paper_run. cbn [fst]. f_equal.
  unfold select_paper in *. cbn [released db set_papers papers].
  rewrite find_set_authors.
  destruct (List.find (has_id pid) (papers (db w))) as [r|]; [|done].
  cbn in Hd |- *. injection Hd as <-. f_equal.
  cbn [row_dict d_authors]. rewrite join_split. by destruct r.
Qed.

Lemma update_authors_write_back_witness :
  ∃ w1,
    update_paper "p1" [("authors", PList ["A"; "B"])] Sample.world1
      = (Ret true, w1)
    ∧ (get_paper "p1" w1).1 = (get_paper "p1" Sample.world1).1.
Proof.
  exact (update_authors_write_back "p1" _ Sample.world1 _ eq_refl).
Defined.
End UpdateRows.

(** ** Tags as [get_paper] returns them *)

Section TagsMore.
Import PyStr Sql Py DBManager Obs More.

Lemma flat_map_bind {A B} (f : A → list B) (l : list A) :
  List.flat_map f l = l ≫= f.
Proof. induction l as [|a l IH]; [done|]. cbn. by rewrite IH. Qed.

Lemma elem_of_filter {A} (P : A → bool) (l : list A) (x : A) :
  x ∈ List.filter P l ↔ x ∈ l ∧ P x = true.
Proof. rewrite !list_elem_of_In. apply filter_In. Qed.

Lemma names_of_tag_spec (tid : Z) (ts : list (Z * string)) (x : string) :
  x ∈ names_of_tag tid ts ↔ (tid, x) ∈ ts.
Proof.
  unfold names_of_tag. rewrite list_elem_of_fmap. split.
  - intros ([i n] & -> & [Hin Hb]%elem_of_filter).
    apply bool_decide_eq_true_1 in Hb. cbn in *. by subst.
  - intros H. exists (tid, x). split; [done|]. apply elem_of_filter.
    split; [done|]. by apply bool_decide_eq_true_2.
Qed.

Lemma select_tag_names_spec (pid : string) (s : store) (x : string) :
  x ∈ select_tag_names (Some pid) s
  ↔ ∃ tid, (pid, tid) ∈ paper_tags s ∧ (tid, x) ∈ tags s.
Proof.
  cbn [select_tag_names]. rewrite flat_map_bind, list_elem_of_bind. split.
  - intros ([p tid] & Hx%names_of_tag_spec & [Hin Hb]%elem_of_filter).
    apply bool_decide_eq_true_1 in Hb. cbn in *. subst. by exists tid.
  - intros (tid & H1 & H2). exists (pid, tid).
    split; [by apply names_of_tag_spec|]. apply elem_of_filter.
    split; [done|]. by apply bool_decide_eq_true_2.
Qed.

Lemma unique_snd {A B} (l : list (A * B)) (i j : A) (x : B) :
  NoDup (snd <$> l) → (i, x) ∈ l → (j, x) ∈ l → i = j.
Proof.
  induction l as [|[k y] l IH]; [by intros _ ?%not_elem_of_nil|].
  rewrite fmap_cons, NoDup_cons. cbn [snd]. intros [Hy Hl] Hi Hj.
  apply elem_of_cons in Hi as [Hi|Hi], Hj as [Hj|Hj]; simplify_eq.
  - done.
  - destruct Hy. by apply (list_elem_of_fmap_2 snd _ (j, y)).
  - destruct Hy. by apply (list_elem_of_fmap_2 snd _ (i, y)).
  - by apply IH.
Qed.

Lemma unique_fst {A B} (l : list (A * B)) (i : A) (x y : B) :
  NoDup (fst <$> l) → (i, x) ∈ l → (i, y) ∈ l → x = y.
Proof.
  induction l as [|[k z] l IH]; [by intros _ ?%not_elem_of_nil|].
  rewrite fmap_cons, NoDup_cons. cbn [fst]. intros [Hy Hl] Hi Hj.
  apply elem_of_cons in Hi as [Hi|Hi], Hj as [Hj|Hj]; simplify_eq.
  - done.
  - destruct Hy. by apply (list_elem_of_fmap_2 fst _ (k, y)).
  - destruct Hy. by apply (list_elem_of_fmap_2 fst _ (k, x)).
  - by apply IH.
Qed.

Lemma linked_joined (pid x : string) (s : store) :
  linked pid x s → x ∈ select_tag_names (Some pid) s.
Proof.
  intros (tid & Hf & He). apply select_tag_names_spec. exists tid.
  apply find_some in Hf as [Hf _].
  apply existsb_exists in He as (pt & Hin & Hpt).
  apply bool_decide_eq_true_1 in Hpt. subst pt.
  by rewrite !list_elem_of_In.
Qed.

Lemma joined_linked (pid x : string) (s : store) :
  NoDup (snd <$> tags s) →
  x ∈ select_tag_names (Some pid) s → linked pid x s.
Proof.
  intros Hn (tid & H1 & H2)%select_tag_names_spec. exists tid. split.
  - destruct (List.find (has_name x) (tags s)) as [t|] eqn:E.
    + pose proof (find_has_name _ _ _ E) as Ht.
      apply find_some in E as [E _]. apply list_elem_of_In in E.
      rewrite Ht in E. rewrite Ht. f_equal. f_equal.
      by apply (unique_snd (tags s) _ _ x).
    + apply find_none_name in E. destruct E.
      by apply (list_elem_of_fmap_2 snd _ (tid, x)).
  - apply existsb_exists. exists (pid, tid).
    split; [by apply list_elem_of_In|]. by apply bool_decide_eq_true_2.
Qed.

Lemma NoDup_list_filter {A} (P : A → bool) (l : list A) :
  NoDup l → NoDup (List.filter P l).
Proof.
  induction 1 as [|a l Ha _ IH]; cbn; [constructor|].
  destruct (P a); [|done]. constructor; [|done].
  by intros [? _]%elem_of_filter.
Qed.

Lemma select_tag_names_NoDup (pid : string) (s : store) :
  wf_store s → NoDup (select_tag_names (Some pid) s).
Proof.
  intros (Hi & Hn & Hp). cbn [select_tag_names]. rewrite flat_map_bind.
  apply NoDup_bind.
  - intros [p1 t1] [p2 t2] y [_ H1]%elem_of_filter [_ H2]%elem_of_filter.
    apply bool_decide_eq_true_1 in H1, H2. cbn in *. subst.
    intros Hy1%names_of_tag_spec Hy2%names_of_tag_spec. f_equal.
    by apply (unique_snd (tags s) _ _ y).
  - intros [p t] _. unfold names_of_tag.
    apply NoDup_fmap_2_strong.
    + intros [i a] [j b] [_ Ha]%elem_of_filter [_ Hb]%elem_of_filter.
      apply bool_decide_eq_true_1 in Ha, Hb. cbn in *. by intros; subst.
    + apply NoDup_list_filter. by apply (NoDup_fmap_1 snd).
  - by apply NoDup_list_filter.
Qed.

(** X14.  The [tags] list of the dict [get_paper] returns: it holds exactly
    the names of the tags that an association row joins to the paper, and
    on a store that meets the uniqueness constraints of the two tag tables
    no name occurs twice. *)
Theorem get_paper_tags (pid : string) (d : paper_dict) (w w' : world) :
  get_paper pid w = (Ret (Some d), w') →
  (∀ x, x ∈ d_tags d
        ↔ ∃ tid, (pid, tid) ∈ paper_tags (db w) ∧ (tid, x) ∈ tags (db w))
  ∧ (wf_store (db w) → NoDup (d_tags d)).
Proof.
  rewrite get_paper_run. intros [= Hd _].
  destruct (select_paper pid (db w)) as [r|]; [|done].
  cbn in Hd. injection Hd as <-. cbn [row_dict d_tags]. split.
  - intros x. apply select_tag_names_spec.
  - apply select_tag_names_NoDup.
Qed.

Lemma get_paper_tags_witness :
  let w := (add_tags "p1" [PStr "ml"; PStr "graphs"; PStr "ml"]
              Sample.world1).2 in
  ∃ d, (get_paper "p1" w).1 = Ret (Some d)
    ∧ d_tags d = ["ml"; "graphs"]
    ∧ (∀ x, x ∈ d_tags d
          ↔ ∃ tid, ("p1", tid) ∈ paper_tags (db w) ∧ (tid, x) ∈ tags (db w))
    ∧ (wf_store (db w) → NoDup (d_tags d)).
Proof.
  intros w. eexists. split; [reflexivity|]. split; [reflexivity|].
  exact (get_paper_tags "p1" _ w _ eq_refl).
Defined.

Lemma link_shape (pid n : string) (s : store) :
  ∃ tid,
    (List.find (has_name n) (tags s) = Some (tid, n)
       ∧ tags (link pid n s) = tags s
     ∨ List.find (has_name n) (tags s) = None ∧ tid = next_tag_id s
       ∧ tags (link pid n s) = (tags s ++ [(tid, n)])%list)
    ∧ (paper_tags (link pid n s) = paper_tags s
       ∨ paper_tags (link pid n s) = (paper_tags s ++ [(pid, tid)])%list)
    ∧ (tid, n) ∈ tags (link pid n s)
    ∧ (pid, tid) ∈ paper_tags (link pid n s).
Proof.
  unfold link.
  destruct (List.find (has_name n) (tags s)) as [t|] eqn:Ef.
  - pose proof (find_has_name _ _ _ Ef) as Ht.
    exists (fst t). rewrite <- Ht. unfold link_pair. cbn [set_tags paper_tags].
    destruct (existsb _ _) eqn:He; cbn [set_paper_tags set_tags tags paper_tags].
    + repeat split; auto.
      * apply find_some in Ef as [Ef _]. by apply list_elem_of_In.
      * apply existsb_exists in He as (pt & Hin & Hpt).
        apply bool_decide_eq_true_1 in Hpt. subst pt.
        by apply list_elem_of_In.
    + repeat split; auto.
      * apply find_some in Ef as [Ef _]. by apply list_elem_of_In.
      * apply elem_of_app. right. by apply list_elem_of_singleton.
  - exists (next_tag_id s). unfold link_pair. cbn [set_tags paper_tags].
    destruct (existsb _ _) eqn:He; cbn [set_paper_tags set_tags tags paper_tags].
    + repeat split; auto.
      * apply elem_of_app. right. by apply list_elem_of_singleton.
      * apply existsb_exists in He as (pt & Hin & Hpt).
        apply bool_decide_eq_true_1 in Hpt. subst pt.
        by apply list_elem_of_In.
    + repeat split; auto; apply elem_of_app; right;
        by apply list_elem_of_singleton.
Qed.

Lemma link_joined (pid n x : string) (s : store) :
  wf_store s →
  x ∈ select_tag_names (Some pid) (link pid n s)
  ↔ x ∈ select_tag_names (Some pid) s ∨ x = n.
Proof.
  intros Hwf. pose proof (link_wf pid n s Hwf) as (Hi' & Hn' & _).
  destruct Hwf as (Hi & Hn & _). split.
  - intros (t0 & Hp & Ht)%select_tag_names_spec.
    destruct (decide (x = n)) as [|Hx]; [by right|]. left.
    apply select_tag_names_spec.
    destruct (link_shape pid n s) as (tid & Htags & Hpts & Hin1 & Hin2).
    assert ((t0, x) ∈ tags s) as Ht0.
    { destruct Htags as [[_ E]|(_ & _ & E)]; rewrite E in Ht; [done|].
      apply elem_of_app in Ht as [Ht|Ht]; [done|].
      apply list_elem_of_singleton in Ht. by simplify_eq. }
    exists t0. split; [|done].
    destruct Hpts as [E|E]; rewrite E in Hp; [done|].
    apply elem_of_app in Hp as [Hp|Hp]; [done|].
    apply list_elem_of_singleton in Hp. simplify_eq.
    destruct Hx. by apply (unique_fst (tags (link pid n s)) tid).
  - intros [Hx| ->].
    + apply linked_joined, link_keeps_linked. by apply joined_linked.
    + apply linked_joined, link_linked.
Qed.

Lemma link_all_joined (pid x : string) (names : list string) (s : store) :
  wf_store s →
  x ∈ select_tag_names (Some pid) (link_all pid names s)
  ↔ x ∈ select_tag_names (Some pid) s ∨ x ∈ names.
Proof.
  revert s. induction names as [|n names IH]; intros s Hwf.
  - cbn [link_all foldl]. split; [by left|].
    by intros [H|H%not_elem_of_nil].
  - change (link_all pid (n :: names) s)
      with (link_all pid names (link pid n s)).
    rewrite IH by by apply link_wf. rewrite link_joined by done.
    rewrite elem_of_cons. tauto.
Qed.

(** X15.  Tagging a stored paper and reading it back, on a store that
    meets the uniqueness constraints of the tag tables: [add_tags] returns
    normally, and [get_paper] then returns the same dict as before except
    for [tags], which holds exactly the names it held before and the new
    ones. *)
Theorem add_tags_then_get (pid : string) (names : list string)
    (d0 : paper_dict) (w w0 : world) :
  wf_store (db w) →
  get_paper pid w = (Ret (Some d0), w0) →
  ∃ w1 d w2,
    add_tags pid (PStr <$> names) w = (Ret tt, w1)
    ∧ get_paper pid w1 = (Ret (Some d), w2)
    ∧ (∀ x, x ∈ d_tags d ↔ x ∈ d_tags d0 ∨ x ∈ names)
    ∧ NoDup (d_tags d)
    ∧ ∃ r, d0 = row_dict r (d_tags d0) ∧ d = row_dict r (d_tags d).
Proof.
  intros Hwf. rewrite get_paper_run. intros [= Hd _].
  unfold select_paper in Hd.
  destruct (List.find (has_id pid) (papers (db w))) as [r|] eqn:Ef; [|done].
  cbn in Hd. injection Hd as <-.
  rewrite add_tags_names_run. eexists _, _, _. split; [done|].
  rewrite get_paper_run. unfold select_paper. cbn [released db].
  rewrite link_all_papers, Ef. split; [reflexivity|].
  cbn [row_dict d_tags]. split; [|split].
  - intros x. by apply link_all_joined.
  - by apply select_tag_names_NoDup, link_all_wf.
  - by exists r.
Qed.

Lemma add_tags_then_get_witness :
  ∃ d0, (get_paper "p1" Sample.world1).1 = Ret (Some d0)
    ∧ ∃ w1 d w2,
        add_tags "p1" (PStr <$> ["ml"; "ml"; "graphs"]) Sample.world1
          = (Ret tt, w1)
        ∧ get_paper "p1" w1 = (Ret (Some d), w2)
        ∧ (∀ x, x ∈ d_tags d ↔ x ∈ d_tags d0 ∨ x ∈ ["ml"; "ml"; "graphs"])
        ∧ NoDup (d_tags d)
        ∧ ∃ r, d0 = row_dict r (d_tags d0) ∧ d = row_dict r (d_tags d).
Proof.
  eexists. split; [reflexivity|].
  apply (add_tags_then_get "p1" _ _ Sample.world1
           (get_paper "p1" Sample.world1).2).
  - repeat split; vm_compute; constructor.
  - reflexivity.
Defined.
End TagsMore.

(** ** Tags: other papers, references, sharing *)

Section TagsFrame.
Import PyStr Sql Py DBManager Obs More.

Lemma flat_map_ext_in {A B} (f g : A → list B) (l : list A) :
  (∀ a, a ∈ l → f a = g a) → List.flat_map f l = List.flat_map g l.
Proof.
  induction l as [|a l IH]; [done|]. intros H. cbn.
  rewrite (H a) by by left. rewrite IH; [done|].
  intros b Hb. apply H. by right.
Qed.

Lemma link_refs (pid n : string) (s : store) :
  refs_ok s → refs_ok (link pid n s).
Proof.
  intros Hs pt Hpt.
  destruct (link_shape pid n s) as (tid & Htags & Hpts & Hin1 & _).
  assert (∀ i, i ∈ fst <$> tags s → i ∈ fst <$> tags (link pid n s)) as Hsub.
  { intros i. destruct Htags as [[_ ->]|(_ & _ & ->)]; [done|].
    rewrite fmap_app, elem_of_app. by left. }
  destruct Hpts as [E|E]; rewrite E in Hpt.
  - by apply Hsub, Hs.
  - apply elem_of_app in Hpt as [Hpt|Hpt]; [by apply Hsub, Hs|].
    apply list_elem_of_singleton in Hpt. subst pt.
    by apply (list_elem_of_fmap_2 fst _ (tid, n)).
Qed.

Lemma link_other (pid qid n : string) (s : store) :
  refs_ok s → qid ≠ pid →
  select_tag_names (Some qid) (link pid n s) = select_tag_names (Some qid) s.
Proof.
  intros Hs Hq. cbn [select_tag_names].
  destruct (link_shape pid n s) as (tid & Htags & Hpts & _).
  assert (List.filter (fun pt => bool_decide (fst pt = qid))
            (paper_tags (link pid n s))
          = List.filter (fun pt => bool_decide (fst pt = qid))
              (paper_tags s)) as ->.
  { destruct Hpts as [->| ->]; [done|]. rewrite List.filter_app. cbn.
    rewrite bool_decide_eq_false_2 by (cbn; congruence).
    by rewrite app_nil_r. }
  apply flat_map_ext_in. intros pt [Hpt _]%elem_of_filter.
  destruct Htags as [[_ ->]|(_ & -> & ->)]; [done|].
  unfold names_of_tag. rewrite List.filter_app. cbn.
  rewrite bool_decide_eq_false_2; [by rewrite app_nil_r|].
  intros E. apply (next_tag_id_fresh s). rewrite E. by apply Hs.
Qed.

Lemma tag_step_link (pid : string) (tag : pyval) (s s' : store) :
  tag_step pid tag s = Ret s' → ∃ n, s' = link pid n s.
Proof.
  destruct tag as [|b|n|l]; try done.
  - rewrite (tag_step_named pid (PBool b) (pretty (if b then 1 else 0)%Z))
      by done.
    intros [= <-]. by eexists.
  - rewrite (tag_step_named pid (PStr n) n) by done.
    intros [= <-]. by eexists.
Qed.

Lemma batch_refs (pid : string) (tags : list pyval) (s s' : store) :
  batch pid tags s = Ret s' → refs_ok s → refs_ok s'.
Proof.
  revert s. induction tags as [|tag tags IH]; intros s.
  - by intros [= <-].
  - cbn [batch]. destruct (tag_step pid tag s) as [s1|] eqn:E; [|done].
    apply tag_step_link in E as [n ->].
    intros H Hs. apply (IH _ H). by apply link_refs.
Qed.

Lemma batch_other (pid qid : string) (tags : list pyval) (s s' : store) :
  batch pid tags s = Ret s' → refs_ok s → qid ≠ pid →
  select_tag_names (Some qid) s' = select_tag_names (Some qid) s.
Proof.
  revert s. induction tags as [|tag tags IH]; intros s.
  - by intros [= <-].
  - cbn [batch]. destruct (tag_step pid tag s) as [s1|] eqn:E; [|done].
    apply tag_step_link in E as [n ->].
    intros H Hs Hq. rewrite (IH _ H) by (by try apply link_refs).
    by apply link_other.
Qed.

(** X16.  [add_tags] on one paper never changes what [get_paper] returns
    for another one, whatever the tags and whether the batch succeeds or
    not, as long as no association row names a tag id that does not
    exist (which holds in every reachable store). *)
Theorem add_tags_other_paper (pid qid : string) (tags : list pyval)
    (w : world) :
  refs_ok (db w) → qid ≠ pid →
  (get_paper qid (add_tags pid tags w).2).1 = (get_paper qid w).1.
Proof.
  intros Hs Hq. rewrite !get_paper_run. cbn [fst]. unfold select_paper.
  rewrite add_tags_papers.
  assert (select_tag_names (Some qid) (db (add_tags pid tags w).2)
          = select_tag_names (Some qid) (db w)) as ->; [|done].
  rewrite add_tags_run.
  destruct (batch pid tags (db w)) as [s'|[]] eqn:E; try done.
  cbn [snd released db]. by apply (batch_other pid qid tags (db w)).
Qed.

Lemma add_tags_other_paper_witness :
  let w := (add_tags "p1" [PStr "ml"] Sample.world12).2 in
  (get_paper "p1" (add_tags "p2" [PStr "ml"; PStr "notes"] w).2).1
  = (get_paper "p1" w).1.
Proof.
  intros w. apply add_tags_other_paper; [|done].
  intros pt Hpt%list_elem_of_In. apply list_elem_of_In.
  vm_compute in Hpt. destruct Hpt as [<-|[]]. vm_compute. by left.
Defined.

(** X17.  In every world the operations can produce from an empty database
    each association row names the id of an existing tag: the reference
    from [paper_tags.tag_id] to [tags.id] never dangles, although the
    engine does not enforce it. *)
Theorem reachable_refs (w : world) : reachable w → refs_ok (db w).
Proof.
  induction 1 as [|w paper now _ IH|w pid _ IH
                  |w query source from_date _ IH
                  |w pid tags _ IH|w pid updates _ IH].
  - by intros pt ?%not_elem_of_nil.
  - by destruct (add_paper_db paper now w) as [->|(r & -> & _)].
  - by rewrite get_paper_run.
  - by rewrite (proj1 (search_papers_reads query source from_date w)).
  - rewrite add_tags_run.
    destruct (batch pid tags (db w)) as [s'|[]] eqn:E; try done.
    by apply (batch_refs pid tags (db w)).
  - destruct (update_paper_frame pid updates w) as (_ & Htags & _ & Hpt).
    unfold refs_ok. by rewrite Htags, Hpt.
Qed.

Lemma reachable_refs_witness :
  refs_ok (db (add_tags "p1" [PStr "ml"] Sample.world1).2).
Proof.
  apply reachable_refs. apply reach_add_tags, reach_add_paper, reach_init.
Defined.

(** X18.  [add_tags] does not check that the paper exists.  Tags attached
    to an id before a paper with that id is added are stored, and once
    [add_paper] has inserted the paper, [get_paper] returns it with those
    tags. *)
Theorem tags_before_paper (pid : string) (names : list string)
    (paper : gmap string pyval) (now : string) (w w2 : world) :
  paper !! "id" = Some (PStr pid) →
  add_paper paper now (add_tags pid (PStr <$> names) w).2 = (Ret true, w2) →
  ¬ stored pid (db w)
  ∧ ∃ d w3, get_paper pid w2 = (Ret (Some d), w3)
      ∧ ∀ x, x ∈ names → x ∈ d_tags d.
Proof.
  intros Hid Hadd. rewrite add_tags_names_run in Hadd. cbn [snd] in Hadd.
  apply add_paper_true_row in Hadd
    as (r & id & bid & authors & joined & -> & Hid' & Hb & Hr & _ & _ & _
        & Hfresh).
  rewrite Hid in Hid'. injection Hid' as <-. cbn in Hb. injection Hb as <-.
  cbn in Hr. cbn [released db] in *. destruct Hfresh as [Hfresh _].
  rewrite Hr in Hfresh. split.
  - rewrite stored_taken. rewrite link_all_papers in Hfresh.
    intros H. by rewrite H in Hfresh.
  - rewrite get_paper_run. cbn [released db].
    rewrite select_paper_appended by (by rewrite ?Hr).
    eexists _, _. split; [reflexivity|].
    intros x Hx. cbn [row_dict d_tags].
    change (select_tag_names (Some pid)
              (set_papers
                 (papers (link_all pid names (db w)) ++ [r])
                 (link_all pid names (db w))))
      with (select_tag_names (Some pid) (link_all pid names (db w))).
    by apply linked_joined, link_all_linked.
Qed.

Lemma tags_before_paper_witness :
  ¬ stored "p1" (db initial_world)
  ∧ ∃ d w3,
      get_paper "p1"
        (add_paper Sample.paper1 Sample.now1
           (add_tags "p1" (PStr <$> ["ml"; "graphs"]) initial_world).2).2
      = (Ret (Some d), w3)
      ∧ ∀ x, x ∈ ["ml"; "graphs"] → x ∈ d_tags d.
Proof.
  apply (tags_before_paper "p1" ["ml"; "graphs"] Sample.paper1 Sample.now1
           initial_world); reflexivity.
Defined.

(** X19.  Tags are shared between papers: attaching a name that another
    paper already carries adds no row to [tags]; both papers are then
    joined to the one existing tag. *)
Theorem tag_shared (pid qid x : string) (w : world) :
  linked pid x (db w) →
  let w1 := (add_tags qid [PStr x] w).2 in
  tags (db w1) = tags (db w)
  ∧ (∃ tid, (pid, tid) ∈ paper_tags (db w1) ∧ (qid, tid) ∈ paper_tags (db w1)
            ∧ (tid, x) ∈ tags (db w1))
  ∧ linked pid x (db w1) ∧ linked qid x (db w1).
Proof.
  intros Hl w1. subst w1.
  change [PStr x] with (PStr <$> [x]).
  rewrite (add_tags_names_run qid [x] w). cbn [snd released db link_all foldl].
  pose proof Hl as (tid & Hf & He).
  destruct (link_shape qid x (db w)) as (tid' & Htags & Hpts & Hin1 & Hin2).
  assert (tid' = tid ∧ tags (link qid x (db w)) = tags (db w)) as [-> Ht].
  { destruct Htags as [[Hf' E]|(Hf' & _)]; [|congruence].
    split; [congruence|done]. }
  split; [done|]. split; [|split].
  - exists tid. split; [|by split].
    apply existsb_exists in He as (pt & Hin & Hpt).
    apply bool_decide_eq_true_1 in Hpt. subst pt.
    apply list_elem_of_In in Hin.
    destruct Hpts as [->| ->]; [done|]. apply elem_of_app. by left.
  - apply (linked_mono pid x (db w)); [apply link_grows..|done].
  - apply link_linked.
Qed.

Lemma tag_shared_witness :
  let w := (add_tags "p1" [PStr "ml"] Sample.world12).2 in
  let w1 := (add_tags "p2" [PStr "ml"] w).2 in
  tags (db w1) = tags (db w)
  ∧ (∃ tid, ("p1", tid) ∈ paper_tags (db w1)
            ∧ ("p2", tid) ∈ paper_tags (db w1) ∧ (tid, "ml") ∈ tags (db w1))
  ∧ linked "p1" "ml" (db w1) ∧ linked "p2" "ml" (db w1).
Proof.
  intros w. apply (tag_shared "p1" "p2" "ml" w).
  exists 1%Z. split; reflexivity.
Defined.
End TagsFrame.

(** ** Search: agreement with lookup, filters, case *)

Section SearchMore.
Import PyStr Like Sql Py DBManager Obs More.

Lemma find_unique_id (pid : string) (ps : list paper_row) (r : paper_row) :
  NoDup (omap r_id ps) → r ∈ ps → r_id r = Some pid →
  List.find (has_id pid) ps = Some r.
Proof.
  induction ps as [|r0 ps IH]; [by intros _ ?%not_elem_of_nil|].
  intros Hnd Hin Hr. cbn [List.find]. unfold has_id at 1.
  destruct (decide (r_id r0 = Some pid)) as [E|E].
  - rewrite bool_decide_eq_true_2 by done.
    apply elem_of_cons in Hin as [->|Hin]; [done|].
    cbn [omap list_omap] in Hnd. rewrite E in Hnd.
    apply NoDup_cons in Hnd as [Hnd _]. destruct Hnd.
    apply list_elem_of_omap. by exists r.
  - rewrite bool_decide_eq_false_2 by done.
    apply elem_of_cons in Hin as [->|Hin]; [done|].
    apply IH; [|done..]. cbn [omap list_omap] in Hnd.
    destruct (r_id r0); [by apply NoDup_cons in Hnd as [_ ?]|done].
Qed.

(** X20.  [search_papers] and [get_paper] agree: when the ids are unique
    (as in every reachable store), each dict the search returns with id
    [pid] is the dict [get_paper(pid)] returns next, tags included. *)
Theorem search_hit_is_get_paper (query : string)
    (source from_date : option string) (pid : string) (d : paper_dict)
    (found : list paper_dict) (w w1 : world) :
  ids_unique (db w) →
  search_papers query source from_date w = (Ret found, w1) →
  d ∈ found → d_id d = Some pid →
  ∃ w2, get_paper pid w1 = (Ret (Some d), w2).
Proof.
  intros Hu Hs Hd Hid. apply search_papers_ret in Hs as (_ & -> & ->).
  unfold dicts in Hd. apply list_elem_of_fmap in Hd as (r & -> & Hr).
  unfold hits, select_papers_where in Hr.
  apply elem_of_filter in Hr as [Hr _]. cbn [row_dict d_id] in Hid.
  rewrite get_paper_run. cbn [released db]. unfold select_paper.
  rewrite (find_unique_id pid _ r) by done. cbn. rewrite Hid. by eexists.
Qed.

Lemma search_hit_is_get_paper_witness :
  ∃ w2,
    get_paper "p1"
      (search_papers "NEURAL" (Some "arxiv") None Sample.world12).2
    = (Ret (Some (row_dict row1 [])), w2).
Proof.
  apply (search_hit_is_get_paper "NEURAL" (Some "arxiv") None "p1"
           (row_dict row1 []) [row_dict row1 []] Sample.world12).
  - unfold ids_unique. apply (bool_decide_unpack _). vm_compute. exact I.
  - reflexivity.
  - by left.
  - reflexivity.
Defined.

Lemma filter_sublist_impl {A} (P Q : A → bool) (l : list A) :
  (∀ x, P x = true → Q x = true) →
  List.filter P l `sublist_of` List.filter Q l.
Proof.
  intros H. induction l as [|x l IH]; cbn; [done|].
  destruct (P x) eqn:E.
  - rewrite (H x E). by constructor.
  - destruct (Q x); [by constructor|done].
Qed.

(** X21.  The optional filters only narrow the result: whenever
    [search_papers] returns for the query alone, it returns with a source
    or a date bound as well, a sub-list (same order) of the unfiltered
    result; every hit has the source that was asked for and a publication
    date that is not before the bound in text order. *)
Theorem search_filters_narrow (query : string)
    (source from_date : option string) (all : list paper_dict)
    (w w1 : world) :
  search_papers query None None w = (Ret all, w1) →
  ∃ found,
    search_papers query source from_date w = (Ret found, w1)
    ∧ found `sublist_of` all
    ∧ ∀ d, d ∈ found →
        (∀ s, source = Some s → s ≠ "" → d_source d = s)
        ∧ (∀ f, from_date = Some f → f ≠ "" →
             String.leb f (d_publication_date d) = true).
Proof.
  intros Hall. apply search_papers_ret in Hall as (Hlen & -> & ->).
  assert (hits query source from_date (db w)
            `sublist_of` hits query None None (db w)) as Hsub.
  { unfold hits, select_papers_where. apply filter_sublist_impl.
    intros r. unfold search_where. cbn [truthy].
    intros [[H _]%andb_true_iff _]%andb_true_iff. by rewrite H. }
  eexists. split; [|split].
  - apply search_papers_returns. apply sublist_length in Hsub. lia.
  - unfold dicts. by apply fmap_sublist.
  - intros d (r & -> & Hr)%list_elem_of_fmap.
    unfold hits, select_papers_where in Hr.
    apply elem_of_filter in Hr as [_ Hr]. unfold search_where in Hr.
    apply andb_true_iff in Hr as [[_ Hs]%andb_true_iff Hf].
    cbn [row_dict d_source d_publication_date]. split.
    + intros s -> Hne. destruct s; [done|]. cbn in Hs.
      by apply bool_decide_eq_true_1 in Hs.
    + intros f -> Hne. destruct f; [done|]. exact Hf.
Qed.

Lemma search_filters_narrow_witness :
  ∃ found,
    search_papers "neural" (Some "acm") None Sample.world12
    = (Ret found, released Sample.world12 (db Sample.world12))
    ∧ found `sublist_of` [row_dict row1 []]
    ∧ ∀ d, d ∈ found →
        (∀ s, Some "acm" = Some s → s ≠ "" → d_source d = s)
        ∧ (∀ f, (None : option string) = Some f → f ≠ "" →
             String.leb f (d_publication_date d) = true).
Proof.
  apply (search_filters_narrow "neural" (Some "acm") None
           [row_dict row1 []] Sample.world12).
  reflexivity.
Defined.

Lemma to_lower_idem (c : ascii) : to_lower (to_lower c) = to_lower c.
Proof. destruct c as [[] [] [] [] [] [] [] []]; reflexivity. Qed.

Lemma to_lower_wildcard (c : ascii) :
  is_wildcard (to_lower c) = is_wildcard c.
Proof. destruct c as [[] [] [] [] [] [] [] []]; reflexivity. Qed.

Lemma like_lower (p s : string) : like (lower p) s = like p s.
Proof.
  revert s. induction p as [|c p IH]; intros s; [done|].
  cbn [lower].
  destruct (is_wildcard c) eqn:Ew.
  - unfold is_wildcard in Ew. apply orb_true_iff in Ew as [E|E];
      apply Ascii.eqb_eq in E; subst c.
    + change (to_lower percent) with percent.
      induction s as [|d s IHs].
      * by rewrite (like_percent (lower p) ""), (like_percent p ""), IH.
      * rewrite (like_percent (lower p) (String d s)),
          (like_percent p (String d s)), IH.
        by rewrite IHs.
    + change (to_lower underscore) with underscore.
      rewrite !like_underscore. by destruct s.
  - rewrite !like_plain by by rewrite ?to_lower_wildcard.
    destruct s as [|d s]; [done|]. rewrite IH. f_equal.
    unfold ci_eqb. by rewrite to_lower_idem.
Qed.

Lemma lower_app (a b : string) : lower (a ++ b) = lower a ++ lower b.
Proof.
  induction a as [|c a IH]; [done|].
  change (String c a ++ b) with (String c (a ++ b)). cbn [lower].
  rewrite IH. reflexivity.
Qed.

Lemma to_lower_nul (c : ascii) :
  Ascii.eqb (to_lower c) nul = Ascii.eqb c nul.
Proof. destruct c as [[] [] [] [] [] [] [] []]; reflexivity. Qed.

Lemma c_str_lower (s : string) : c_str (lower s) = lower (c_str s).
Proof.
  induction s as [|c s IH]; [done|]. cbn [lower c_str].
  rewrite to_lower_nul. destruct (Ascii.eqb c nul); [done|].
  cbn [lower]. by rewrite IH.
Qed.

Lemma like_same_lower (q q' s : string) :
  lower q = lower q' →
  sql_like (contains_pattern q) s = sql_like (contains_pattern q') s.
Proof.
  intros H. unfold sql_like.
  rewrite <- (like_lower (c_str (contains_pattern q))),
    <- (like_lower (c_str (contains_pattern q'))), <- !c_str_lower.
  unfold contains_pattern. cbn [lower]. by rewrite !lower_app, H.
Qed.

(** X22.  The query is matched without regard to ASCII case: two queries
    that differ only in the case of their letters give the same result
    on every store, with the same filters. *)
Theorem search_ignores_query_case (q q' : string)
    (source from_date : option string) (w : world) :
  lower q = lower q' →
  search_papers q source from_date w = search_papers q' source from_date w.
Proof.
  intros H. rewrite !search_papers_run.
  assert (hits q source from_date (db w) = hits q' source from_date (db w))
    as ->; [|done].
  unfold hits, select_papers_where. apply filter_ext_all. intros r.
  unfold search_where, like_opt.
  rewrite (like_same_lower q q' (r_title r) H).
  destruct (r_abstract r) as [a|]; [|done].
  by rewrite (like_same_lower q q' a H).
Qed.

Lemma search_ignores_query_case_witness :
  search_papers "NEURAL Net" None None Sample.world12
  = search_papers "neural net" None None Sample.world12.
Proof. by apply search_ignores_query_case. Defined.

(** X23.  [add_paper] never alters a paper that is already stored: what
    [get_paper] returned for an id before the call it returns after it,
    whether the call succeeded, failed or raised. *)
Theorem add_paper_keeps_other_papers (paper : gmap string pyval)
    (now qid : string) (d : paper_dict) (w w0 : world) :
  get_paper qid w = (Ret (Some d), w0) →
  (get_paper qid (add_paper paper now w).2).1 = Ret (Some d).
Proof.
  rewrite !get_paper_run. intros [= Hd _]. cbn [fst]. rewrite <- Hd.
  unfold select_paper in *.
  destruct (add_paper_db paper now w) as [->|(r & -> & _)]; [done|].
  cbn [set_papers papers].
  destruct (List.find (has_id qid) (papers (db w))) as [r0|] eqn:E;
    [|done].
  by rewrite (find_app_l _ _ _ _ E).
Qed.

Lemma add_paper_keeps_other_papers_witness :
  (get_paper "p1" (add_paper Sample.paper2 Sample.now1 Sample.world1).2).1
  = (get_paper "p1" Sample.world1).1.
Proof.
  exact (add_paper_keeps_other_papers Sample.paper2 Sample.now1 "p1" _
           Sample.world1 _ eq_refl).
Defined.
End SearchMore.

(** ** A record without an id *)

Section NullId.
Import PyStr Like Sql Py DBManager Obs More.

(** X25.  The key column admits NULL: a record whose [id] is [None] (and
    that is otherwise insertable) is accepted every time, also when such
    a row is already there; the row has no id, so [get_paper] finds it
    under no id and returns for every id what it returned before. *)
Theorem add_paper_null_id (paper : gmap string pyval) (now : string)
    (l : list string) (w : world) :
  paper !! "id" = Some PNone →
  paper !! "authors" = Some (PList l) →
  insertable paper →
  ∃ r,
    add_paper paper now w
    = (Ret true, released w (set_papers (papers (db w) ++ [r]) (db w)))
    ∧ r_id r = None
    ∧ ∀ pid, (get_paper pid (add_paper paper now w).2).1
             = (get_paper pid w).1.
Proof.
  intros Hid Hauth ([title Ht] & [source Hs] & [pd Hp] & Hb).
  rewrite add_paper_run.
  rewrite (tuple_value_record paper now _ _ _ _ _ Hid Ht Hauth Hs Hp).
  destruct (get_bindable paper "abstract" PNone Hb) as [b1 H1]; [done..|].
  destruct (get_bindable paper "pdf_path" PNone Hb) as [b2 H2]; [done..|].
  destruct (get_bindable paper "bibtex_path" PNone Hb) as [b3 H3];
    [done..|].
  destruct (get_bindable paper "endnote_path" PNone Hb) as [b4 H4];
    [done..|].
  destruct (get_bindable paper "is_paywalled" (PBool false) Hb) as [b5 H5];
    [done..|].
  destruct (get_bindable paper "summary" PNone Hb) as [b6 H6]; [done..|].
  destruct (get_bindable paper "implications" PNone Hb) as [b7 H7];
    [done..|].
  destruct (get_bindable paper "topic_category" PNone Hb) as [b8 H8];
    [done..|].
  unfold insert_paper. cbn [bind_all bind].
  rewrite H1, H2, H3, H4, H5, H6, H7, H8. cbn.
  eexists. split; [reflexivity|]. split; [reflexivity|].
  intros pid. rewrite !get_paper_run. cbn [fst]. unfold select_paper.
  cbn [released db set_papers papers select_tag_names paper_tags tags].
  destruct (List.find (has_id pid) (papers (db w))) as [r0|] eqn:E.
  - by rewrite (find_app_l _ _ _ _ E).
  - by rewrite (find_app_r _ _ _ E).
Qed.

Lemma add_paper_null_id_witness :
  ∃ r,
    add_paper paper_null_id Sample.now1 Sample.world1
    = (Ret true,
       released Sample.world1
         (set_papers (papers (db Sample.world1) ++ [r])
            (db Sample.world1)))
    ∧ r_id r = None
    ∧ ∀ pid,
        (get_paper pid
           (add_paper paper_null_id Sample.now1 Sample.world1).2).1
        = (get_paper pid Sample.world1).1.
Proof.
  apply (add_paper_null_id paper_null_id Sample.now1 ["N"]).
  - reflexivity.
  - reflexivity.
  - repeat split; try by eexists.
    intros k v Hk Hne. unfold paper_null_id in Hk.
    repeat (apply lookup_insert_Some in Hk as [[<- <-]|[_ Hk]]; [done|]).
    by apply lookup_singleton_Some in Hk as [_ <-].
Defined.
End NullId.
